(** * GCBM.Animation: bounding boxes and composite indicators

    A shallow embedding of [gcbmanimation/layer/boundingbox.py] and
    [gcbmanimation/indicator/compositeindicator.py].

    Python objects live in a heap of mutable records addressed by location,
    so that two names for one object (a bounding box handed to its own
    [crop]) are one record.  Methods are programs of a state monad whose
    state survives an exception, as attribute assignments made before a
    [raise] do in Python.  Pixel values, no-data values and geographic
    coordinates are IEEE 754 binary64 numbers, as the values of numpy's
    [float64] and of Python's [float] are. *)

From Stdlib Require Import ZArith QArith Qround List String Ascii Bool Lia SpecFloat.
From stdpp Require Import base option list gmap strings.
Import ListNotations.
Open Scope Z_scope.

(** ** Exceptions and the method monad *)

Inductive exn :=
| IOError (msg : string)
| AttributeError
| TypeError
| ValueError
| RuntimeError.

Definition M (S A : Type) : Type := S -> (exn + A) * S.

Definition ret {S A} (a : A) : M S A := fun s => (inr a, s).

Definition raise {S A} (e : exn) : M S A := fun s => (inl e, s).

Definition bind {S A B} (m : M S A) (k : A -> M S B) : M S B :=
  fun s => match m s with
           | (inl e, s') => (inl e, s')
           | (inr a, s') => k a s'
           end.

Definition gets {S A} (f : S -> A) : M S A := fun s => (inr (f s), s).

Definition modify {S} (f : S -> S) : M S unit := fun s => (inr tt, f s).

Definition lift {S A} (r : exn + A) : M S A :=
  match r with inl e => raise e | inr a => ret a end.

Declare Scope py_scope.
Delimit Scope py_scope with py.
Notation "x <- m ;; k" := (bind m (fun x => k))
  (at level 100, m at next level, right associativity) : py_scope.
Notation "m ;; k" := (bind m (fun _ => k))
  (at level 100, right associativity) : py_scope.
Open Scope py_scope.

(** [not x] for a value that is [None] or a list: [None] and [[]] are falsy. *)
Definition truthy {A} (o : option (list A)) : bool :=
  match o with
  | Some (_ :: _) => true
  | _ => false
  end.

(** ** Numbers *)

(** A binary64 number: a signed zero, a signed infinity, not-a-number, or
    a finite number [(-1)^s * m * 2^e].  Addition and multiplication round
    to nearest, ties to even. *)
Definition float : Type := spec_float.

Definition fadd (x y : float) : float := SFadd 53 1024 x y.

Definition fmul (x y : float) : float := SFmul 53 1024 x y.

(** [float(z)]: the integer, rounded if it has more than 53 significant
    bits. *)
Definition of_int (z : Z) : float := binary_normalize 53 1024 z 0 false.

(** numpy's [==] and [!=] on numbers: not-a-number is unequal to
    everything, itself included, and the two zeros are equal. *)
Definition np_eq (x y : float) : bool := SFeqb x y.

Definition np_ne (x y : float) : bool := negb (SFeqb x y).

(** A numpy boolean in arithmetic: 1.0 or 0.0. *)
Definition of_bool (b : bool) : float := if b then of_int 1 else of_int 0.

(** ** Files *)

(** A path is a name given by the caller or one handed out by the temporary
    file manager. *)
Inductive path :=
| UserPath (s : string)
| TmpPath (n : nat).

#[global] Instance path_eq_dec : EqDecision path.
Proof. solve_decision. Defined.

#[global] Instance path_countable : Countable path.
Proof.
  refine (inj_countable'
            (fun p => match p with UserPath s => inl s | TmpPath n => inr n end)
            (fun x => match x with inl s => UserPath s | inr n => TmpPath n end) _).
  intros []; reflexivity.
Defined.

(** The raster library's view of a single-band file: the pixel grid
    ([band], a list of rows), its width, the declared no-data sentinel and
    the six coefficients of the affine geotransform. *)
Record Dataset := mkDataset {
  RasterXSize : nat;
  band : list (list float);
  NoDataValue : float;
  GeoTransform : float * float * float * float * float * float
}.

(** What [ReadAsArray] returns: the rows and [shape[1]]. *)
Record ndarray := mkArray {
  shape1 : nat;
  rows : list (list float)
}.

(** ** Layers *)

Inductive pyval :=
| PyNone
| PyInt (z : Z)
| PyStr (s : string).

Definition digit_of_ascii (c : ascii) : option Z :=
  let n := Z.of_nat (nat_of_ascii c) in
  if (48 <=? n) && (n <=? 57) then Some (n - 48) else None.

Fixpoint decimal_value (acc : Z) (s : string) : option Z :=
  match s with
  | EmptyString => Some acc
  | String c r =>
      match digit_of_ascii c with
      | Some d => decimal_value (10 * acc + d) r
      | None => None
      end
  end.

(** Python's [int(v)], on an integer and on a non-empty string of ASCII
    decimal digits.  Any other string is reported as [ValueError] (Python
    also reads signs, blanks and underscores, which no four-digit year
    has). *)
Definition py_int (v : pyval) : exn + Z :=
  match v with
  | PyInt z => inr z
  | PyStr EmptyString => inl ValueError
  | PyStr s => match decimal_value 0 s with
               | Some z => inr z
               | None => inl ValueError
               end
  | PyNone => inl TypeError
  end.

Record Layer := mkLayer {
  _path : path;
  _year : option Z;
  _interpretation : option string;
  _nodata_value : option float
}.

(** Modelled from the spec: [Layer.__init__] of gcbmanimation/layer/layer.py,
    which is not among the sources.  The spec gives a layer a file path, a
    year that is an integer or [None], an optional interpretation and a
    no-data value that is read lazily; the constructor therefore keeps the
    path and the interpretation, stores the year as an integer unless it
    is [None], and starts with an empty no-data cache. *)
Definition Layer_init (p : path) (year : pyval) (interpretation : option string)
  : exn + Layer :=
  match year with
  | PyNone => inr (mkLayer p None interpretation None)
  | _ =>
      match py_int year with
      | inl e => inl e
      | inr y => inr (mkLayer p (Some y) interpretation None)
      end
  end.

(** The Python value of a layer's year. *)
Definition year_value (year : option Z) : pyval :=
  match year with
  | Some y => PyInt y
  | None => PyNone
  end.

Record BoundingBox := mkBoundingBox {
  base : Layer;
  _min_pixel_bounds : option (list Z);
  _min_geographic_bounds : option (list float);
  _initialized : bool
}.

Inductive object :=
| OLayer (l : Layer)
| OBoundingBox (b : BoundingBox).

Definition layer_of (o : object) : Layer :=
  match o with
  | OLayer l => l
  | OBoundingBox b => base b
  end.

Definition with_layer (f : Layer -> Layer) (o : object) : object :=
  match o with
  | OLayer l => OLayer (f l)
  | OBoundingBox b =>
      OBoundingBox (mkBoundingBox (f (base b)) (_min_pixel_bounds b)
                                  (_min_geographic_bounds b) (_initialized b))
  end.

Definition set_path (p : path) (l : Layer) : Layer :=
  mkLayer p (_year l) (_interpretation l) (_nodata_value l).

Definition set_nodata (v : option float) (l : Layer) : Layer :=
  mkLayer (_path l) (_year l) (_interpretation l) v.

Definition set_pixel_bounds (v : option (list Z)) (b : BoundingBox) : BoundingBox :=
  mkBoundingBox (base b) v (_min_geographic_bounds b) (_initialized b).

Definition set_geographic_bounds (v : option (list float)) (b : BoundingBox)
  : BoundingBox :=
  mkBoundingBox (base b) (_min_pixel_bounds b) v (_initialized b).

Definition set_initialized (v : bool) (b : BoundingBox) : BoundingBox :=
  mkBoundingBox (base b) (_min_pixel_bounds b) (_min_geographic_bounds b) v.

(** ** The world of a run: files, temporary names, objects *)

(** Objects are addressed by their position in the heap. *)
Abbreviation loc := nat (only parsing).

Record state := mkState {
  fs : gmap path Dataset;
  next_tmp : nat;
  heap : list object
}.

Definition load (l : loc) : M state object :=
  fun s => match heap s !! l with
           | Some o => (inr o, s)
           | None => (inl AttributeError, s)
           end.

Definition store (l : loc) (o : object) : M state unit :=
  modify (fun s => mkState (fs s) (next_tmp s) (<[l := o]> (heap s))).

Definition alloc (o : object) : M state loc :=
  fun s => (inr (length (heap s)), mkState (fs s) (next_tmp s) (heap s ++ [o])).

Definition get_layer (l : loc) : M state Layer :=
  o <- load l ;; ret (layer_of o).

Definition get_bbox (l : loc) : M state BoundingBox :=
  o <- load l ;;
  match o with
  | OBoundingBox b => ret b
  | OLayer _ => raise AttributeError
  end.

Definition update_layer (l : loc) (f : Layer -> Layer) : M state unit :=
  o <- load l ;; store l (with_layer f o).

Definition update_bbox (l : loc) (f : BoundingBox -> BoundingBox) : M state unit :=
  b <- get_bbox l ;; store l (OBoundingBox (f b)).

Definition write_file (p : path) (d : Dataset) : M state unit :=
  modify (fun s => mkState (<[p := d]> (fs s)) (next_tmp s) (heap s)).

(** Modelled from the spec: [TempFileManager.mktmp] of
    gcbmanimation/util/tempfile.py, which is not among the sources.  The
    spec has it provide a fresh unique file path per call; the model hands
    out the next unused temporary name, and there is no raster under a
    name that has just been handed out. *)
Definition mktmp : M state path :=
  fun s => (inr (TmpPath (next_tmp s)),
            mkState (delete (TmpPath (next_tmp s)) (fs s)) (S (next_tmp s)) (heap s)).

(** ** The raster library *)

(** [gdal.Open]: the dataset, or [None] when the file cannot be opened. *)
Definition gdal_Open (p : path) : M state (option Dataset) :=
  gets (fun s => fs s !! p).

Definition ReadAsArray (ds : option Dataset) : M state ndarray :=
  match ds with
  | Some d => ret (mkArray (RasterXSize d) (band d))
  | None => raise AttributeError
  end.

Definition GetGeoTransform (ds : option Dataset)
  : M state (float * float * float * float * float * float) :=
  match ds with
  | Some d => ret (GeoTransform d)
  | None => raise AttributeError
  end.

(** Modelled from the spec: the [nodata_value] property of [Layer], which is
    not among the sources.  The spec has it read the raster's declared
    no-data sentinel from the file's metadata on first access and cache it. *)
Definition nodata_value (l : loc) : M state float :=
  lay <- get_layer l ;;
  match _nodata_value lay with
  | Some v => ret v
  | None =>
      ds <- gdal_Open (_path lay) ;;
      match ds with
      | Some d =>
          update_layer l (set_nodata (Some (NoDataValue d))) ;;
          ret (NoDataValue d)
      | None => raise AttributeError
      end
  end.

(** The expressions [gdal_calc] is given, over the two inputs [A] and [B],
    evaluated as numpy evaluates them on one pixel of each: products and
    sums are those of binary64, so that not-a-number and the infinities
    propagate, and a comparison is 1.0 or 0.0, as a numpy boolean is in
    arithmetic. *)
Inductive calc_expr :=
| CA
| CB
| CConst (x : float)
| CMul (e1 e2 : calc_expr)
| CAdd (e1 e2 : calc_expr)
| CNe (e1 e2 : calc_expr)
| CEq (e1 e2 : calc_expr).

Fixpoint calc_eval (e : calc_expr) (a b : float) : float :=
  match e with
  | CA => a
  | CB => b
  | CConst x => x
  | CMul e1 e2 => fmul (calc_eval e1 a b) (calc_eval e2 a b)
  | CAdd e1 e2 => fadd (calc_eval e1 a b) (calc_eval e2 a b)
  | CNe e1 e2 => of_bool (np_ne (calc_eval e1 a b) (calc_eval e2 a b))
  | CEq e1 e2 => of_bool (np_eq (calc_eval e1 a b) (calc_eval e2 a b))
  end.

(** [gdal_calc.Calc(calc, outfile, NoDataValue, A=.., B=..)]: the
    expression evaluated pixel by pixel over two rasters of one shape, written
    to [outfile] with the given no-data sentinel and the georeferencing of
    [A].  (The library also forces the output no-data value, by the same
    arithmetic, wherever an input pixel equals the no-data value its file
    declares; for the mask expression of [crop] and a finite output
    no-data value that is the value the expression already has, as long as
    the files declare the no-data values the layers report.) *)
Definition gdal_calc_Calc (calc : calc_expr) (outfile : path) (ndv : float)
    (A B : path) : M state unit :=
  da <- gdal_Open A ;;
  db <- gdal_Open B ;;
  match da, db with
  | Some a, Some b =>
      if (RasterXSize a =? RasterXSize b)%nat
         && (length (band a) =? length (band b))%nat
      then write_file outfile
             (mkDataset (RasterXSize a)
                        (zip_with (zip_with (calc_eval calc)) (band a) (band b))
                        ndv (GeoTransform a))
      else raise RuntimeError
  | _, _ => raise RuntimeError
  end.

(** ** numpy on one row *)

Fixpoint np_where_ne_from (i : Z) (row : list float) (nodata : float) : list Z :=
  match row with
  | [] => []
  | v :: r =>
      if np_ne v nodata then i :: np_where_ne_from (i + 1) r nodata
      else np_where_ne_from (i + 1) r nodata
  end.

(** [np.where(row != nodata)[0]] *)
Definition np_where_ne (row : list float) (nodata : float) : list Z :=
  np_where_ne_from 0 row nodata.

(** [np.min] and [np.max]; the loop calls them on a non-empty array only. *)
Definition np_min (l : list Z) : Z :=
  match l with
  | [] => 0
  | x :: xs => fold_left Z.min xs x
  end.

Definition np_max (l : list Z) : Z :=
  match l with
  | [] => 0
  | x :: xs => fold_left Z.max xs x
  end.

(** ** BoundingBox *)

(** One pass of the body of the [for i, row in enumerate(raster_data)] loop
    of [min_pixel_bounds], given the value read from [self.nodata_value]. *)
Definition scan_row (nodata : float) (i : Z) (row : list float) (acc : Z * Z * Z * Z)
  : Z * Z * Z * Z :=
  let '(x_min, x_max, y_min, y_max) := acc in
  let x_index := np_where_ne row nodata in
  if (length x_index =? 0)%nat then acc
  else
    let x_index_min := np_min x_index in
    let x_index_max := np_max x_index in
    let y_min := if y_min =? 0 then i else y_min in
    let x_min := if x_index_min <? x_min then x_index_min else x_min in
    let x_max := if x_index_max >? x_max then x_index_max else x_max in
    let y_max := i in
    (x_min, x_max, y_min, y_max).

Fixpoint scan_rows (self : loc) (i : Z) (rs : list (list float)) (acc : Z * Z * Z * Z)
  : M state (Z * Z * Z * Z) :=
  match rs with
  | [] => ret acc
  | row :: rest =>
      nodata <- nodata_value self ;;
      scan_rows self (i + 1) rest (scan_row nodata i row acc)
  end.

(** [BoundingBox.__init__] *)
Definition BoundingBox_init (p : path) : M state loc :=
  l <- lift (Layer_init p (PyInt 0) None) ;;
  alloc (OBoundingBox (mkBoundingBox l None None false)).

Definition min_pixel_bounds (self : loc) : M state (option (list Z)) :=
  b <- get_bbox self ;;
  (if negb (truthy (_min_pixel_bounds b)) then
     ds <- gdal_Open (_path (base b)) ;;
     raster_data <- ReadAsArray ds ;;
     let x_min := Z.of_nat (shape1 raster_data) in
     let x_max := 0 in
     let y_min := 0 in
     let y_max := 0 in
     found <- scan_rows self 0 (rows raster_data) (x_min, x_max, y_min, y_max) ;;
     let '(x_min, x_max, y_min, y_max) := found in
     update_bbox self
       (set_pixel_bounds (Some [x_min - 1; x_max + 1; y_min - 1; y_max + 1]))
   else ret tt) ;;
  b <- get_bbox self ;;
  ret (_min_pixel_bounds b).

(** [x_min, x_max, y_min, y_max = ...] *)
Definition unpack4 (v : option (list Z)) : M state (Z * Z * Z * Z) :=
  match v with
  | Some [a; b; c; d] => ret (a, b, c, d)
  | Some _ => raise ValueError
  | None => raise TypeError
  end.

Definition min_geographic_bounds (self : loc) : M state (option (list float)) :=
  b <- get_bbox self ;;
  (if negb (truthy (_min_geographic_bounds b)) then
     pb <- min_pixel_bounds self ;;
     unpacked <- unpack4 pb ;;
     let '(x_min, x_max, y_min, y_max) := unpacked in
     b <- get_bbox self ;;
     ds <- gdal_Open (_path (base b)) ;;
     gt <- GetGeoTransform ds ;;
     let '(origin_x, x_size, _, origin_y, _, y_size) := gt in
     let x_min_proj := fadd origin_x (fmul (of_int x_min) x_size) in
     let x_max_proj := fadd origin_x (fmul (of_int x_max) x_size) in
     let y_min_proj := fadd origin_y (fmul (of_int y_min) y_size) in
     let y_max_proj := fadd origin_y (fmul (of_int y_max) y_size) in
     update_bbox self
       (set_geographic_bounds (Some [x_min_proj; y_min_proj; x_max_proj; y_max_proj]))
   else ret tt) ;;
  b <- get_bbox self ;;
  ret (_min_geographic_bounds b).

(** The mask expression of [crop]:
    ["A * (B != {0}) + ((B == {0}) * {1})".format(bbox_nodata, layer_nodata)] *)
Definition crop_calc (bbox_nodata layer_nodata : float) : calc_expr :=
  CAdd (CMul CA (CNe CB (CConst bbox_nodata)))
       (CMul (CEq CB (CConst bbox_nodata)) (CConst layer_nodata)).

Section RasterLibrary.

(** The windowing of [gdal.Translate(.., projWin=..)] is the raster
    library's: it yields the windowed dataset or fails with an error. *)
Variable gdal_window : Dataset -> option (list float) -> exn + Dataset.

(** [gdal.Translate(dest, src, projWin=..)], whose result [crop] does not
    look at.  The raster library is used as the module imports it, in the
    mode in which [gdal.Open] returns [None] for a file it cannot open: in
    that mode a window that cannot be made is an error the library
    reports without raising; it writes nothing and returns [None].  A
    source that is [None] is refused by the binding, with a
    [ValueError]. *)
Definition gdal_Translate (dest : path) (src : option Dataset)
    (projWin : option (list float)) : M state unit :=
  match src with
  | None => raise ValueError
  | Some d =>
      match gdal_window d projWin with
      | inr d' => write_file dest d'
      | inl _ => ret tt
      end
  end.

Definition crop (self layer : loc) : M state loc :=
  b <- get_bbox self ;;
  (if negb (_initialized b) then
     bbox_path <- mktmp ;;
     b <- get_bbox self ;;
     src <- gdal_Open (_path (base b)) ;;
     projWin <- min_geographic_bounds self ;;
     gdal_Translate bbox_path src projWin ;;
     update_layer self (set_path bbox_path) ;;
     update_bbox self (set_initialized true)
   else ret tt) ;;
  tmp_path <- mktmp ;;
  lay <- get_layer layer ;;
  src <- gdal_Open (_path lay) ;;
  projWin <- min_geographic_bounds self ;;
  gdal_Translate tmp_path src projWin ;;
  bbox_nodata <- nodata_value self ;;
  layer_nodata <- nodata_value layer ;;
  let calc := crop_calc bbox_nodata layer_nodata in
  output_path <- mktmp ;;
  out_nodata <- nodata_value layer ;;
  self_layer <- get_layer self ;;
  gdal_calc_Calc calc output_path out_nodata tmp_path (_path self_layer) ;;
  lay <- get_layer layer ;;
  cropped_layer <- lift (Layer_init output_path (year_value (_year lay))
                                    (_interpretation lay)) ;;
  alloc (OLayer cropped_layer).

(** The calls a client can make on the objects of the heap, and a
    client that makes a sequence of them, carrying on after an exception. *)
Inductive call :=
| CallMinPixelBounds (self : loc)
| CallMinGeographicBounds (self : loc)
| CallNodataValue (l : loc)
| CallCrop (self layer : loc).

Definition do_call (c : call) (s : state) : state :=
  match c with
  | CallMinPixelBounds self => snd (min_pixel_bounds self s)
  | CallMinGeographicBounds self => snd (min_geographic_bounds self s)
  | CallNodataValue l => snd (nodata_value l s)
  | CallCrop self layer => snd (crop self layer s)
  end.

Definition run (cs : list call) (s : state) : state :=
  fold_left (fun s c => do_call c s) cs s.

End RasterLibrary.

(** * The composite indicator *)

(** ** os.path.splitext *)

(** [s.rfind(c)]: the index of the last [c] in [s], or -1. *)
Fixpoint rfind_from (i : Z) (found : Z) (c : ascii) (s : string) : Z :=
  match s with
  | EmptyString => found
  | String a r => rfind_from (i + 1) (if Ascii.eqb a c then i else found) c r
  end.

Definition rfind (c : ascii) (s : string) : Z := rfind_from 0 (-1) c s.

(** Whether some character of [s] is not [c]. *)
Fixpoint has_other (c : ascii) (s : string) : bool :=
  match s with
  | EmptyString => false
  | String a r => negb (Ascii.eqb a c) || has_other c r
  end.

(** The two flavours of [os.path]. *)
Inductive os_path := posixpath | ntpath.

(** [genericpath._splitext(p, sep, altsep, extsep)]: the extension starts
    at the last dot of the last path component, unless that component has
    nothing but dots before it. *)
Definition _splitext (p : string) (sep : ascii) (altsep : option ascii) (extsep : ascii)
  : string * string :=
  let sepIndex := rfind sep p in
  let sepIndex := match altsep with
                  | Some a => Z.max sepIndex (rfind a p)
                  | None => sepIndex
                  end in
  let dotIndex := rfind extsep p in
  if (dotIndex >? sepIndex)
     && has_other extsep
          (substring (Z.to_nat (sepIndex + 1)) (Z.to_nat (dotIndex - (sepIndex + 1))) p)
  then (substring 0 (Z.to_nat dotIndex) p,
        substring (Z.to_nat dotIndex) (String.length p - Z.to_nat dotIndex) p)
  else (p, EmptyString).

Definition splitext (os : os_path) (p : string) : string * string :=
  match os with
  | posixpath => _splitext p "/"%char None "."%char
  | ntpath => _splitext p "\"%char (Some "/"%char) "."%char
  end.

(** [s[-4:]] *)
Definition last4 (s : string) : string :=
  substring (String.length s - 4) 4 s.


(** ** LayerCollection *)

Inductive BlendMode := Add | Subtract.

Inductive Units := Tc | TcPerHa | OtherUnits (name : string).

#[global] Instance Units_eq_dec : EqDecision Units.
Proof. solve_decision. Defined.

(** Modelled from the spec: [LayerCollection] of
    gcbmanimation/layer/layercollection.py, which is not among the sources.
    The spec has it hold an ordered sequence of layers and two styling
    parameters, start empty, grow by [append], and be falsy when empty. *)
Record LayerCollection := mkLayerCollection {
  layers : list Layer;
  palette : string;
  background_color : Z * Z * Z
}.

Definition LayerCollection_init (palette : string) (background_color : Z * Z * Z)
  : LayerCollection :=
  mkLayerCollection [] palette background_color.

Definition append (c : LayerCollection) (layer : Layer) : LayerCollection :=
  mkLayerCollection (layers c ++ [layer]) (palette c) (background_color c).

Definition collection_truthy (c : LayerCollection) : bool :=
  match layers c with
  | [] => false
  | _ :: _ => true
  end.

(** [not x] for a value that is [None] or a collection. *)
Definition composite_truthy (o : option LayerCollection) : bool :=
  match o with
  | Some c => collection_truthy c
  | None => false
  end.

(** ** CompositeIndicator *)

Record ResultsProvider := mkResultsProvider {
  provider_layers : list Layer;
  per_hectare : bool
}.

Record CompositeIndicator := mkCompositeIndicator {
  _indicator : string;
  _patterns : list (string * BlendMode);
  _title : option string;
  _graph_units : Units;
  _map_units : Units;
  _palette : string;
  _background_color : Z * Z * Z;
  _composite_layers : option LayerCollection;
  _results_provider : option ResultsProvider
}.

(** The calls [_init] makes into the rest of the package, in order. *)
Inductive event :=
| EvLayerCollection
| EvGlob (pattern : string)
| EvBlend (composite found : LayerCollection) (blend_mode : BlendMode)
| EvResultsProvider (found : list Layer) (per_ha : bool).

Record indicator_state := mkIndicatorState {
  this : CompositeIndicator;
  trace : list event
}.

Definition emit (e : event) : M indicator_state unit :=
  modify (fun st => mkIndicatorState (this st) (trace st ++ [e])).

Definition set_composite_layers (c : option LayerCollection) : M indicator_state unit :=
  modify (fun st =>
    let i := this st in
    mkIndicatorState
      (mkCompositeIndicator (_indicator i) (_patterns i) (_title i) (_graph_units i)
         (_map_units i) (_palette i) (_background_color i) c (_results_provider i))
      (trace st)).

Definition set_results_provider (p : option ResultsProvider) : M indicator_state unit :=
  modify (fun st =>
    let i := this st in
    mkIndicatorState
      (mkCompositeIndicator (_indicator i) (_patterns i) (_title i) (_graph_units i)
         (_map_units i) (_palette i) (_background_color i) (_composite_layers i) p)
      (trace st)).

(** [CompositeIndicator.__init__], with the defaults of its signature left
    to the caller. *)
Definition CompositeIndicator_init (indicator : string)
    (patterns : list (string * BlendMode)) (title : option string)
    (graph_units map_units : Units) (palette : string)
    (background_color : Z * Z * Z) : CompositeIndicator :=
  mkCompositeIndicator indicator patterns title graph_units map_units palette
                       background_color None None.

Section Collaborators.

Variable os : os_path.

(** Discovery: the paths a glob pattern matches, in the order found. *)
Variable glob : string -> list string.

(** [LayerCollection.blend], [LayerCollection.render], the provider's
    [simulation_years] and [BasicResultsPlot(..).render] belong to modules
    that are not among the sources; they are taken as given. *)
Variable blend : LayerCollection -> LayerCollection -> BlendMode -> exn + LayerCollection.
Variables Frames kwargs : Type.
Variable simulation_years : ResultsProvider -> exn + Z * Z.
Variable render : LayerCollection -> option BoundingBox -> Z -> Z -> exn + Frames.
Variable plot_render :
  string -> option ResultsProvider -> Units -> kwargs -> exn + Frames.

Definition new_LayerCollection (palette : string) (background_color : Z * Z * Z)
  : M indicator_state LayerCollection :=
  emit EvLayerCollection ;; ret (LayerCollection_init palette background_color).

(** The [for layer_path in glob(pattern)] loop of [_find_layers]. *)
Fixpoint wrap_layers (paths : list string) (found : LayerCollection)
  : M indicator_state LayerCollection :=
  match paths with
  | [] => ret found
  | layer_path :: rest =>
      let year := last4 (fst (splitext os layer_path)) in
      layer <- lift (Layer_init (UserPath layer_path) (PyStr year) None) ;;
      wrap_layers rest (append found layer)
  end.

Definition _find_layers (pattern : string) : M indicator_state LayerCollection :=
  self <- gets this ;;
  found <- new_LayerCollection (_palette self) (_background_color self) ;;
  emit (EvGlob pattern) ;;
  found <- wrap_layers (glob pattern) found ;;
  if negb (collection_truthy found)
  then raise (IOError ("No spatial output found for pattern: " ++ pattern))
  else ret found.

(** The [for pattern, blend_mode in self._patterns.items()] loop of
    [_init]. *)
Fixpoint blend_patterns (items : list (string * BlendMode)) : M indicator_state unit :=
  match items with
  | [] => ret tt
  | (pattern, blend_mode) :: rest =>
      found <- _find_layers pattern ;;
      self <- gets this ;;
      match _composite_layers self with
      | None => raise AttributeError
      | Some composite =>
          emit (EvBlend composite found blend_mode) ;;
          blended <- lift (blend composite found blend_mode) ;;
          set_composite_layers (Some blended) ;;
          blend_patterns rest
      end
  end.

Definition _init : M indicator_state unit :=
  self <- gets this ;;
  if negb (composite_truthy (_composite_layers self)) then
    composite <- new_LayerCollection (_palette self) (_background_color self) ;;
    set_composite_layers (Some composite) ;;
    blend_patterns (_patterns self) ;;
    self <- gets this ;;
    match _composite_layers self with
    | None => raise AttributeError
    | Some composite =>
        let per_ha := bool_decide (_map_units self = TcPerHa) in
        emit (EvResultsProvider (layers composite) per_ha) ;;
        set_results_provider (Some (mkResultsProvider (layers composite) per_ha))
    end
  else ret tt.

Definition render_map_frames (bounding_box : option BoundingBox)
  : M indicator_state Frames :=
  _init ;;
  self <- gets this ;;
  match _results_provider self, _composite_layers self with
  | Some provider, Some composite =>
      years <- lift (simulation_years provider) ;;
      let '(start_year, end_year) := years in
      lift (render composite bounding_box start_year end_year)
  | _, _ => raise AttributeError
  end.

Definition render_graph_frames (options : kwargs) : M indicator_state Frames :=
  _init ;;
  self <- gets this ;;
  lift (plot_render (_indicator self) (_results_provider self) (_graph_units self)
                    options).

End Collaborators.

(** * Specification vocabulary *)



(** The same number: the same value bit for bit, or two numbers that [==]
    holds equal, as the two zeros are. *)
Definition same_number (x y : float) : Prop := x = y \/ np_eq x y = true.

(** The heap with one object replaced. *)
Definition put_obj (l : loc) (o : object) (s : state) : state :=
  mkState (fs s) (next_tmp s) (<[l := o]> (heap s)).

(** The pixel in row [i] and column [j] of a dataset. *)
Definition pixel (d : Dataset) (i j : nat) : option float :=
  match band d !! i with
  | Some row => row !! j
  | None => None
  end.

(** The files with one written. *)
Definition put_file (p : path) (d : Dataset) (s : state) : state :=
  mkState (<[p := d]> (fs s)) (next_tmp s) (heap s).

(** One more temporary name handed out. *)
Definition tick (s : state) : state :=
  mkState (delete (TmpPath (next_tmp s)) (fs s)) (S (next_tmp s)) (heap s).

(** The no-data value the property yields for an object: the cached one,
    else the one declared by the file at its path. *)
Definition nodata_of (s : state) (o : object) : option float :=
  match _nodata_value (layer_of o) with
  | Some v => Some v
  | None => NoDataValue <$> (fs s !! _path (layer_of o))
  end.

(** The row loop, once the no-data value is known. *)
Fixpoint scan_fold (nodata : float) (i : Z) (rs : list (list float))
    (acc : Z * Z * Z * Z)
  : Z * Z * Z * Z :=
  match rs with
  | [] => acc
  | row :: rest => scan_fold nodata (i + 1) rest (scan_row nodata i row acc)
  end.

(** The list [min_pixel_bounds] stores once the loop is over. *)
Definition box_of (acc : Z * Z * Z * Z) : list Z :=
  let '(x_min, x_max, y_min, y_max) := acc in
  [x_min - 1; x_max + 1; y_min - 1; y_max + 1].

(** The list that unpacks into four given bounds. *)
Definition box_of_inv (acc : Z * Z * Z * Z) : list Z :=
  let '(x_min, x_max, y_min, y_max) := acc in [x_min; x_max; y_min; y_max].

(** The box [min_pixel_bounds] computes from a dataset. *)
Definition pixel_box (nodata : float) (d : Dataset) : list Z :=
  box_of (scan_fold nodata 0 (band d) (Z.of_nat (RasterXSize d), 0, 0, 0)).

(** The affine transform of a dataset applied to a pixel box. *)
Definition affine (gt : float * float * float * float * float * float)
    (x_min x_max y_min y_max : Z) : list float :=
  let '(origin_x, x_size, _, origin_y, _, y_size) := gt in
  [fadd origin_x (fmul (of_int x_min) x_size);
   fadd origin_y (fmul (of_int y_min) y_size);
   fadd origin_x (fmul (of_int x_max) x_size);
   fadd origin_y (fmul (of_int y_max) y_size)].

(** What may change in a layer over time: nothing but an empty no-data
    cache being filled. *)
Definition layer_static (l l' : Layer) : Prop :=
  _year l' = _year l /\ _interpretation l' = _interpretation l /\
  (forall v, _nodata_value l = Some v -> _nodata_value l' = Some v).

(** A cache that holds a value keeps it. *)
Definition cache_kept {A} (c c' : option (list A)) : Prop :=
  truthy c = true -> c' = c.

(** [object_evolves n n' o o']: [o'] is a later state of the object [o],
    between a moment when [n] temporary names had been handed out and one
    when [n'] had. *)
Definition object_evolves (n n' : nat) (o o' : object) : Prop :=
  match o, o' with
  | OLayer l, OLayer l' => layer_static l l' /\ _path l' = _path l
  | OBoundingBox b, OBoundingBox b' =>
      layer_static (base b) (base b') /\
      cache_kept (_min_pixel_bounds b) (_min_pixel_bounds b') /\
      cache_kept (_min_geographic_bounds b) (_min_geographic_bounds b') /\
      (_initialized b = true -> _initialized b' = true) /\
      (_path (base b') <> _path (base b) ->
       _initialized b = false /\ _initialized b' = true /\
       exists k, (n <= k < n')%nat /\ _path (base b') = TmpPath k)
  | _, _ => False
  end.

(** A path that is not among the temporary names numbered [n] and up. *)
Definition old_name (n : nat) (p : path) : Prop :=
  match p with
  | UserPath _ => True
  | TmpPath k => (k < n)%nat
  end.

(** A path that is not a temporary name still to be handed out. *)
Definition old_path (s : state) (p : path) : Prop := old_name (next_tmp s) p.

(** [evolves_from n s s']: [s'] is a later state than [s], and nothing
    happened in between to the files whose names are older than the
    temporary name [n]. *)
Definition evolves_from (n : nat) (s s' : state) : Prop :=
  (next_tmp s <= next_tmp s')%nat /\
  (forall p, old_name n p -> fs s' !! p = fs s !! p) /\
  (forall (l : loc) o, heap s !! l = Some o ->
     exists o', heap s' !! l = Some o' /\
                object_evolves n (next_tmp s') o o').

(** [s'] is a later state than [s]: temporary names are only handed out,
    the files that existed under names already in use are untouched, and
    every object is still there, changed at most as [object_evolves]
    allows. *)
Definition evolves (s s' : state) : Prop := evolves_from (next_tmp s) s s'.

(** The initialisation flag of an object; a plain layer has none. *)
Definition flag_of (o : object) : bool :=
  match o with
  | OBoundingBox b => _initialized b
  | OLayer _ => false
  end.

(** The same objects, with caches possibly filled. *)
Definition heap_cached (h h' : list object) : Prop :=
  length h' = length h /\
  (forall (l : loc) o, h !! l = Some o ->
     exists o', h' !! l = Some o' /\
                layer_static (layer_of o) (layer_of o') /\
                _path (layer_of o') = _path (layer_of o)).

(** Every object is still there, with its path and its flag. *)
Definition paths_kept (s s' : state) : Prop :=
  forall (l : loc) o, heap s !! l = Some o ->
    exists o', heap s' !! l = Some o' /\
               _path (layer_of o') = _path (layer_of o) /\
               flag_of o' = flag_of o.

(** A later state in which no object changed its path or its flag. *)
Definition quiet (n : nat) (s s' : state) : Prop :=
  evolves_from n s s' /\ paths_kept s s'.

(** The effect of reading a property: files, temporary names, paths and
    the initialisation flag stay; caches may be filled. *)
Definition caches_only (s s' : state) : Prop :=
  fs s' = fs s /\ next_tmp s' = next_tmp s /\
  length (heap s') = length (heap s) /\
  (forall (l : loc) o, heap s !! l = Some o ->
     exists o', heap s' !! l = Some o' /\
                object_evolves (next_tmp s) (next_tmp s) o o' /\
                _path (layer_of o') = _path (layer_of o) /\
                flag_of o' = flag_of o).

(** A row of width [W] whose data are exactly the columns [x0..x1]. *)
Definition data_row (nodata : float) (W x0 x1 : nat) (row : list float) : Prop :=
  length row = W /\
  forall (j : nat) v, row !! j = Some v ->
    (np_ne v nodata = true <-> (x0 <= j <= x1)%nat).

(** The accumulator of the loop of [min_pixel_bounds] when it reaches row
    [i] of a raster of width [W] whose data fill the rectangle of columns
    [x0..x1] and rows [y0..y1]. *)
Definition scan_state (W x0 x1 y0 y1 i : nat) : Z * Z * Z * Z :=
  if (i <=? y0)%nat then (Z.of_nat W, 0, 0, 0)
  else (Z.of_nat x0, Z.of_nat x1,
        (if (y0 =? 0)%nat then (if (1 <=? Nat.min (i - 1) y1)%nat then 1 else 0)
         else Z.of_nat y0),
        Z.of_nat (Nat.min (i - 1) y1)).

(** A pixel of [d] that holds data: a value that [!=] tells from
    [nodata]. *)
Definition data_at (nodata : float) (d : Dataset) (i j : nat) : Prop :=
  exists v, pixel d i j = Some v /\ np_ne v nodata = true.

(** The same, on the rows the loop of [min_pixel_bounds] walks over. *)
Definition row_data (nodata : float) (rs : list (list float)) (i j : nat) : Prop :=
  exists row v, rs !! i = Some row /\ row !! j = Some v /\ np_ne v nodata = true.

(** What the accumulator of the loop encloses once the rows before [n] are
    done: every data pixel of those rows, between [x_min] and [x_max] and
    up to [y_max]; and from [y_min] on, unless the pixel is in row 0. *)
Definition scan_encloses (nodata : float) (rs : list (list float)) (n : nat)
    (acc : Z * Z * Z * Z) : Prop :=
  let '(x_min, x_max, y_min, y_max) := acc in
  0 <= y_min <= y_max /\ y_max <= Z.of_nat n /\
  forall i j, (i < n)%nat -> row_data nodata rs i j ->
    x_min <= Z.of_nat j <= x_max /\ Z.of_nat i <= y_max /\
    (i = 0%nat \/ 0 < y_min <= Z.of_nat i).

(** What the accumulator touches: it is as the loop started with it as long
    as no row had data, and from then on each of its four numbers is the
    column or the row of a data pixel. *)
Definition scan_touches (nodata : float) (W : nat) (rs : list (list float)) (n : nat)
    (acc : Z * Z * Z * Z) : Prop :=
  let '(x_min, x_max, y_min, y_max) := acc in
  ((forall i j, (i < n)%nat -> ~ row_data nodata rs i j) /\
   acc = (Z.of_nat W, 0, 0, 0)) \/
  ((exists i j, row_data nodata rs i j /\ x_min = Z.of_nat j) /\
   (exists i j, row_data nodata rs i j /\ x_max = Z.of_nat j) /\
   (exists i j, row_data nodata rs i j /\ y_min = Z.of_nat i) /\
   (exists i j, row_data nodata rs i j /\ y_max = Z.of_nat i)).

Section CropBlocks.

Variable gdal_window : Dataset -> option (list float) -> exn + Dataset.

(** The two halves of [crop]: the body of [if not self._initialized],
    and everything after it. *)
Definition self_crop (self : loc) : M state unit :=
  bbox_path <- mktmp ;;
  b <- get_bbox self ;;
  src <- gdal_Open (_path (base b)) ;;
  projWin <- min_geographic_bounds self ;;
  gdal_Translate gdal_window bbox_path src projWin ;;
  update_layer self (set_path bbox_path) ;;
  update_bbox self (set_initialized true).

Definition crop_layer (self layer : loc) : M state loc :=
  tmp_path <- mktmp ;;
  lay <- get_layer layer ;;
  src <- gdal_Open (_path lay) ;;
  projWin <- min_geographic_bounds self ;;
  gdal_Translate gdal_window tmp_path src projWin ;;
  bbox_nodata <- nodata_value self ;;
  layer_nodata <- nodata_value layer ;;
  let calc := crop_calc bbox_nodata layer_nodata in
  output_path <- mktmp ;;
  out_nodata <- nodata_value layer ;;
  self_layer <- get_layer self ;;
  gdal_calc_Calc calc output_path out_nodata tmp_path (_path self_layer) ;;
  lay <- get_layer layer ;;
  cropped_layer <- lift (Layer_init output_path (year_value (_year lay))
                                    (_interpretation lay)) ;;
  alloc (OLayer cropped_layer).

(** The end of [crop_layer]: what [crop] does with a layer once it has read
    the geographic bounds of the box. *)
Definition mask_layer (self layer : loc) (tmp_path : path) (src : option Dataset)
    (projWin : option (list float)) : M state loc :=
  gdal_Translate gdal_window tmp_path src projWin ;;
  bbox_nodata <- nodata_value self ;;
  layer_nodata <- nodata_value layer ;;
  let calc := crop_calc bbox_nodata layer_nodata in
  output_path <- mktmp ;;
  out_nodata <- nodata_value layer ;;
  self_layer <- get_layer self ;;
  gdal_calc_Calc calc output_path out_nodata tmp_path (_path self_layer) ;;
  lay <- get_layer layer ;;
  cropped_layer <- lift (Layer_init output_path (year_value (_year lay))
                                    (_interpretation lay)) ;;
  alloc (OLayer cropped_layer).

End CropBlocks.

(** The bounding box at a location, if there is one. *)
Definition bbox_at (s : state) (l : loc) : option BoundingBox :=
  match heap s !! l with
  | Some (OBoundingBox b) => Some b
  | _ => None
  end.

(** The path of the object at a location. *)
Definition path_at (s : state) (l : loc) : option path :=
  (fun o => _path (layer_of o)) <$> (heap s !! l).

(** ** Vocabulary of the composite indicator *)

(** The year read off the last four characters of a file name stem, when
    they are four decimal digits. *)
Definition trailing_year (stem : string) : option Z :=
  match last4 stem with
  | String c1 (String c2 (String c3 (String c4 EmptyString))) =>
      match digit_of_ascii c1, digit_of_ascii c2, digit_of_ascii c3, digit_of_ascii c4 with
      | Some d1, Some d2, Some d3, Some d4 =>
          Some (1000 * d1 + 100 * d2 + 10 * d3 + d4)
      | _, _, _, _ => None
      end
  | _ => None
  end.

(** A layer wrapping the file at path [p] under the year of its name. *)
Definition layer_from (os : os_path) (p : string) (l : Layer) : Prop :=
  _path l = UserPath p /\
  exists year, trailing_year (fst (splitext os p)) = Some year /\ _year l = Some year.

(** [f"No spatial output found for pattern: {pattern}"] *)
Definition no_output_message (pattern : string) : string :=
  "No spatial output found for pattern: " ++ pattern.

(** The state of [_init] once it has created the empty composite. *)
Definition begin_build (st : indicator_state) : indicator_state :=
  let i := this st in
  mkIndicatorState
    (mkCompositeIndicator (_indicator i) (_patterns i) (_title i) (_graph_units i)
       (_map_units i) (_palette i) (_background_color i)
       (Some (LayerCollection_init (_palette i) (_background_color i)))
       (_results_provider i))
    (trace st ++ [EvLayerCollection]).

(** The blends a trace records beyond those of an earlier trace all take a
    non-empty discovery. *)
Definition blends_found (old new : list event) : Prop :=
  forall composite found blend_mode,
    In (EvBlend composite found blend_mode) new ->
    In (EvBlend composite found blend_mode) old \/ collection_truthy found = true.

(** One turn of the loop of [_init] read as a fold: what the pattern
    discovers is blended into the composite so far, and an exception ends
    the loop. *)
Definition blend_step (discover : string -> exn + LayerCollection)
    (blend : LayerCollection -> LayerCollection -> BlendMode -> exn + LayerCollection)
    (acc : exn + LayerCollection) (item : string * BlendMode)
  : exn + LayerCollection :=
  match acc with
  | inl e => inl e
  | inr composite =>
      match discover (fst item) with
      | inl e => inl e
      | inr found => blend composite found (snd item)
      end
  end.

(** The settings of an indicator: everything but the composite and the
    results provider. *)
Definition same_settings (i i' : CompositeIndicator) : Prop :=
  _indicator i' = _indicator i /\ _patterns i' = _patterns i /\
  _title i' = _title i /\ _graph_units i' = _graph_units i /\
  _map_units i' = _map_units i /\ _palette i' = _palette i /\
  _background_color i' = _background_color i.

(** The discovery and blend calls a trace records, in order: a pattern for
    a [glob], a blend mode for a [blend]. *)
Definition call_of (e : event) : option (string + BlendMode) :=
  match e with
  | EvGlob pattern => Some (inl pattern)
  | EvBlend _ _ blend_mode => Some (inr blend_mode)
  | _ => None
  end.

Definition calls (t : list event) : list (string + BlendMode) := omap call_of t.

(** The calls a mapping of patterns asks for: each pattern discovered,
    then blended in its mode. *)
Definition planned (items : list (string * BlendMode)) : list (string + BlendMode) :=
  flat_map (fun item => [inl (fst item); inr (snd item)]) items.

(** * Sample data *)

(** A windowing in the manner of [gdal_translate -projwin], on a grid whose
    axes are not rotated: the window is rounded to whole pixels and what
    falls outside the source is filled with the no-data value. *)
Definition window_row (d : Dataset) (i : Z) (xoff : Z) (xsize : nat) : list float :=
  map (fun j =>
         let x := xoff + Z.of_nat j in
         if (0 <=? i) && (0 <=? x) then
           match pixel d (Z.to_nat i) (Z.to_nat x) with
           | Some v => v
           | None => NoDataValue d
           end
         else NoDataValue d)
      (seq 0 xsize).

(** The rational number a finite binary64 number stands for. *)
Definition float_to_Q (x : float) : option Q :=
  match x with
  | S754_zero _ => Some 0%Q
  | S754_finite s m e => Some (inject_Z (if s then Zneg m else Zpos m) * 2 ^ e)%Q
  | S754_infinity _ | S754_nan => None
  end.

(** The window from the coordinate [lo] to the coordinate [hi] on an axis
    of origin [o] and pixel size [size]: its offset from the origin and its
    length, in whole pixels, when it has at least one pixel. *)
Definition window_axis (o size lo hi : float) : option (Z * Z) :=
  match float_to_Q o, float_to_Q size, float_to_Q lo, float_to_Q hi with
  | Some o, Some size, Some lo, Some hi =>
      if Qeq_bool size 0 then None
      else
        let off := Qfloor ((lo - o) / size + (1 # 2))%Q in
        let len := Qfloor ((hi - lo) / size + (1 # 2))%Q in
        if len <=? 0 then None else Some (off, len)
  | _, _, _, _ => None
  end.

Definition window_by_pixels (d : Dataset) (projWin : option (list float))
  : exn + Dataset :=
  match projWin with
  | None => inr d
  | Some [ulx; uly; lrx; lry] =>
      let '(ox, xs, r1, oy, r2, ys) := GeoTransform d in
      match window_axis ox xs ulx lrx, window_axis oy ys uly lry with
      | Some (xoff, xsize), Some (yoff, ysize) =>
          inr (mkDataset (Z.to_nat xsize)
                 (map (fun i => window_row d (yoff + Z.of_nat i) xoff (Z.to_nat xsize))
                      (seq 0 (Z.to_nat ysize)))
                 (NoDataValue d)
                 (fadd ox (fmul (of_int xoff) xs), xs, r1,
                  fadd oy (fmul (of_int yoff) ys), r2, ys))
      | _, _ => inl RuntimeError
      end
  | Some _ => inl ValueError
  end.

(** A raster of whole numbers. *)
Definition whole_raster (W : nat) (rows : list (list Z)) (nodata : Z)
    (gt : float * float * float * float * float * float) : Dataset :=
  mkDataset W (map (map of_int) rows) (of_int nodata) gt.

(** A bounding box over a 4x4 raster with data in rows 1..2, and a layer
    for the year 2001 on the same grid. *)
Definition demo_gt : float * float * float * float * float * float :=
  (of_int 100, of_int 10, of_int 0, of_int 500, of_int 0, of_int (-10)).

Definition demo_bbox_raster : Dataset :=
  whole_raster 4 [[0; 0; 0; 0]; [0; 1; 1; 0]; [0; 1; 0; 0]; [0; 0; 0; 0]] 0 demo_gt.

Definition demo_layer_raster : Dataset :=
  whole_raster 4 [[11; 12; 13; 14]; [21; 22; 23; 24]; [31; 32; 33; 34]; [41; 42; 43; 44]]
               (-1) demo_gt.

Definition demo_bbox : BoundingBox :=
  mkBoundingBox (mkLayer (UserPath "bbox.tif") (Some 0) None None) None None false.

Definition demo_layer : Layer :=
  mkLayer (UserPath "npp_2001.tif") (Some 2001) (Some "absolute"%string) None.

Definition demo_state : state :=
  mkState (<[UserPath "npp_2001.tif" := demo_layer_raster]>
             (<[UserPath "bbox.tif" := demo_bbox_raster]> ∅))
          0
          [OBoundingBox demo_bbox; OLayer demo_layer].

(** A raster that is data everywhere, and one that is no-data everywhere. *)
Definition full_raster : Dataset := whole_raster 2 [[1; 1]; [1; 1]] 0 demo_gt.

Definition full_state : state :=
  mkState (<[UserPath "bbox.tif" := full_raster]> ∅) 0 [OBoundingBox demo_bbox].

Definition blank_raster : Dataset := whole_raster 3 [[7; 7; 7]; [7; 7; 7]] 7 demo_gt.

Definition blank_state : state :=
  mkState (<[UserPath "bbox.tif" := blank_raster]> ∅) 0 [OBoundingBox demo_bbox].

(** The box without data, beside the sample layer. *)
Definition blank_box_state : state :=
  mkState (<[UserPath "npp_2001.tif" := demo_layer_raster]>
             (<[UserPath "bbox.tif" := blank_raster]> ∅))
          0
          [OBoundingBox demo_bbox; OLayer demo_layer].



(** A box whose data start in row 2 and column 2 of a 5x5 raster. *)
Definition offset_raster : Dataset :=
  whole_raster 5 [[0; 0; 0; 0; 0]; [0; 0; 0; 0; 0]; [0; 0; 1; 1; 0]; [0; 0; 1; 1; 0];
                  [0; 0; 0; 0; 0]] 0 demo_gt.

Definition offset_state : state :=
  mkState (<[UserPath "npp_2001.tif" := demo_layer_raster]>
             (<[UserPath "bbox.tif" := offset_raster]> ∅))
          0
          [OBoundingBox demo_bbox; OLayer demo_layer].

Definition demo_calls : list call :=
  [CallCrop 0%nat 1%nat; CallMinGeographicBounds 0%nat; CallCrop 0%nat 2%nat].

(** A directory with two NPP rasters and one Rh raster, and a blend that
    keeps the composite's layers once it has some. *)
Definition sample_glob (pattern : string) : list string :=
  if String.eqb pattern "out/NPP_*.tif" then ["out/NPP_2001.tif"; "out/NPP_2002.tif"]%string
  else if String.eqb pattern "out/Rh_*.tif" then ["out/Rh_2001.tif"]%string
  else [].

Definition sample_blend (composite found : LayerCollection) (blend_mode : BlendMode)
  : exn + LayerCollection :=
  inr (mkLayerCollection
         (match layers composite with [] => layers found | _ => layers composite end)
         (palette composite) (background_color composite)).

Definition sample_indicator (patterns : list (string * BlendMode)) : indicator_state :=
  mkIndicatorState
    (CompositeIndicator_init "NBP" patterns None Tc TcPerHa "Greens" (255, 255, 255)) [].

(** A box whose raster is not there. *)
Definition missing_state : state := mkState ∅ 0 [OBoundingBox demo_bbox].

(** A provider that reports the years 2001 to 2002, and a map renderer
    and a plot that answer with the number of layers they are given. *)
Definition sample_years (provider : ResultsProvider) : exn + Z * Z := inr (2001, 2002).

Definition sample_render (composite : LayerCollection)
    (bounding_box : option BoundingBox) (start_year end_year : Z) : exn + nat :=
  inr (length (layers composite)).

Definition sample_plot (indicator : string) (provider : option ResultsProvider)
    (units : Units) (options : unit) : exn + nat :=
  match provider with
  | Some p => inr (length (provider_layers p))
  | None => inl AttributeError
  end.

Definition npp_then_rh : list (string * BlendMode) :=
  [("out/NPP_*.tif"%string, Add); ("out/Rh_*.tif"%string, Subtract)].

Definition npp_then_nothing : list (string * BlendMode) :=
  [("out/NPP_*.tif"%string, Add); ("out/X_*.tif"%string, Subtract)].

(** * Facts about numbers *)


Lemma of_int_0 : of_int 0 = S754_zero false.
Proof. reflexivity. Qed.





Lemma same_number_refl x : same_number x x.
Proof. left. reflexivity. Qed.










(** * Facts about the monad and the heap *)

Lemma Layer_init_year_value p year interpretation :
  Layer_init p (year_value year) interpretation
  = inr (mkLayer p year interpretation None).
Proof. destruct year; reflexivity. Qed.

Lemma bind_ok {S A B} (m : M S A) (k : A -> M S B) s a s1 :
  m s = (inr a, s1) -> bind m k s = k a s1.
Proof. intros H. unfold bind. rewrite H. reflexivity. Qed.

Lemma bind_err {S A B} (m : M S A) (k : A -> M S B) s e s1 :
  m s = (inl e, s1) -> bind m k s = (inl e, s1).
Proof. intros H. unfold bind. rewrite H. reflexivity. Qed.

Lemma bind_inv {S A B} (m : M S A) (k : A -> M S B) s r s' :
  bind m k s = (r, s') ->
  (exists e, m s = (inl e, s') /\ r = inl e) \/
  (exists a s1, m s = (inr a, s1) /\ k a s1 = (r, s')).
Proof.
  unfold bind. destruct (m s) as [[e|a] s1]; intros H.
  - left. exists e. inversion H; subst. auto.
  - right. exists a, s1. auto.
Qed.

Lemma bind_inv_ok {S A B} (m : M S A) (k : A -> M S B) s b s' :
  bind m k s = (inr b, s') ->
  exists a s1, m s = (inr a, s1) /\ k a s1 = (inr b, s').
Proof.
  intros H. apply bind_inv in H as [(e & _ & He)|H]; [discriminate | exact H].
Qed.

Lemma get_bbox_eq s l b :
  heap s !! l = Some (OBoundingBox b) -> get_bbox l s = (inr b, s).
Proof. intros H. unfold get_bbox, bind, load. rewrite H. reflexivity. Qed.

Lemma get_bbox_inv s l r s' :
  get_bbox l s = (r, s') ->
  s' = s /\ (forall b, r = inr b -> heap s !! l = Some (OBoundingBox b)).
Proof.
  unfold get_bbox, bind, load.
  destruct (heap s !! l) as [[lay|b]|]; cbn; intros H; inversion H; subst;
    split; auto; intros b' Hb; inversion Hb; subst; reflexivity.
Qed.

Lemma get_layer_eq s l o :
  heap s !! l = Some o -> get_layer l s = (inr (layer_of o), s).
Proof. intros H. unfold get_layer, bind, load. rewrite H. reflexivity. Qed.

Lemma get_layer_inv s l r s' :
  get_layer l s = (r, s') ->
  s' = s /\ (forall lay, r = inr lay ->
             exists o, heap s !! l = Some o /\ lay = layer_of o).
Proof.
  unfold get_layer, bind, load.
  destruct (heap s !! l) as [o|]; cbn; intros H; inversion H; subst;
    split; auto; intros lay Hl; inversion Hl; subst; eauto.
Qed.

Lemma update_layer_eq s l f o :
  heap s !! l = Some o ->
  update_layer l f s = (inr tt, put_obj l (with_layer f o) s).
Proof. intros H. unfold update_layer, bind, load. rewrite H. reflexivity. Qed.

Lemma update_bbox_eq s l f b :
  heap s !! l = Some (OBoundingBox b) ->
  update_bbox l f s = (inr tt, put_obj l (OBoundingBox (f b)) s).
Proof.
  intros H. unfold update_bbox. rewrite (bind_ok _ _ _ _ _ (get_bbox_eq _ _ _ H)).
  reflexivity.
Qed.

Lemma heap_put_obj_eq s l o o0 :
  heap s !! l = Some o0 -> heap (put_obj l o s) !! l = Some o.
Proof.
  intros H. cbn. apply list_lookup_insert_eq. eapply lookup_lt_Some; eauto.
Qed.

Lemma heap_put_obj_ne s l l' o :
  l <> l' -> heap (put_obj l o s) !! l' = heap s !! l'.
Proof. intros H. cbn. apply list_lookup_insert_ne; auto. Qed.

(** ** The relations are preorders *)

Lemma layer_static_refl l : layer_static l l.
Proof. unfold layer_static; auto. Qed.

Lemma layer_static_trans l1 l2 l3 :
  layer_static l1 l2 -> layer_static l2 l3 -> layer_static l1 l3.
Proof.
  intros (Hy & Hi & Hn) (Hy' & Hi' & Hn'). unfold layer_static.
  repeat split; try congruence. auto.
Qed.

Lemma cache_kept_refl {A} (c : option (list A)) : cache_kept c c.
Proof. unfold cache_kept; auto. Qed.

Lemma cache_kept_trans {A} (c1 c2 c3 : option (list A)) :
  cache_kept c1 c2 -> cache_kept c2 c3 -> cache_kept c1 c3.
Proof.
  unfold cache_kept. intros H12 H23 Ht.
  specialize (H12 Ht). subst c2. auto.
Qed.

Lemma object_evolves_refl n o : object_evolves n n o o.
Proof.
  destruct o as [l|b]; cbn.
  - split; [apply layer_static_refl | reflexivity].
  - repeat split; auto using layer_static_refl, cache_kept_refl;
      try (exfalso; congruence).
Qed.

Lemma object_evolves_trans n m o1 o2 o3 :
  object_evolves n m o1 o2 -> object_evolves n m o2 o3 ->
  object_evolves n m o1 o3.
Proof.
  destruct o1 as [l1|b1], o2 as [l2|b2], o3 as [l3|b3]; cbn; try tauto.
  - intros [Hs Hp] [Hs' Hp']. split; [eapply layer_static_trans; eauto | congruence].
  - intros (Hs & Hpx & Hg & Hi & Hp) (Hs' & Hpx' & Hg' & Hi' & Hp').
    split; [eapply layer_static_trans; eauto|].
    split; [eapply cache_kept_trans; eauto|].
    split; [eapply cache_kept_trans; eauto|].
    split; [auto|].
    intros Hne.
    destruct (decide (_path (base b2) = _path (base b1))) as [E|E].
    + rewrite <- E in Hne. destruct (Hp' Hne) as (Hf & Ht & k & Hk & Hpk).
      split.
      { destruct (_initialized b1); auto. specialize (Hi eq_refl). congruence. }
      split; [exact Ht|]. exists k. split; [lia | exact Hpk].
    + destruct (Hp E) as (Hf & Ht & k & Hk & Hpk).
      destruct (decide (_path (base b3) = _path (base b2))) as [E'|E'].
      * split; [exact Hf|]. split; [auto|]. exists k. split; [lia | congruence].
      * destruct (Hp' E') as (Hf' & _). congruence.
Qed.

Lemma object_evolves_same_path n1 n2 m1 m2 o o' :
  _path (layer_of o') = _path (layer_of o) ->
  object_evolves n1 n2 o o' -> object_evolves m1 m2 o o'.
Proof.
  intros Hp. destruct o as [l|b], o' as [l'|b']; cbn in *; tauto.
Qed.

Lemma object_evolves_weaken n1 n2 m1 m2 o o' :
  (m1 <= n1)%nat -> (n2 <= m2)%nat ->
  object_evolves n1 n2 o o' -> object_evolves m1 m2 o o'.
Proof.
  intros H1 H2. destruct o as [l|b], o' as [l'|b']; cbn; try tauto.
  intros (Hs & Hpx & Hg & Hi & Hp).
  split; [exact Hs|]. split; [exact Hpx|]. split; [exact Hg|]. split; [exact Hi|].
  intros Hne. destruct (Hp Hne) as (Hf & Ht & k & Hk & Hpk).
  split; [exact Hf|]. split; [exact Ht|]. exists k. split; [lia | exact Hpk].
Qed.

Lemma old_name_mono n m p : (n <= m)%nat -> old_name n p -> old_name m p.
Proof. destruct p; cbn; auto. lia. Qed.

Lemma evolves_from_refl n s : evolves_from n s s.
Proof.
  split; [lia|]. split; [auto|].
  intros l o H. exists o. split; [exact H|].
  eapply object_evolves_same_path; [reflexivity | apply (object_evolves_refl 0)].
Qed.

Lemma evolves_from_trans n s1 s2 s3 :
  evolves_from n s1 s2 -> evolves_from n s2 s3 -> evolves_from n s1 s3.
Proof.
  intros (Hn & Hf & Hh) (Hn' & Hf' & Hh').
  split; [lia|]. split.
  - intros p Hp. rewrite Hf' by exact Hp. auto.
  - intros l o Hl. destruct (Hh l o Hl) as (o2 & Hl2 & He).
    destruct (Hh' l o2 Hl2) as (o3 & Hl3 & He').
    exists o3. split; [exact Hl3|].
    eapply object_evolves_trans; [|exact He'].
    eapply object_evolves_weaken; [| |exact He]; lia.
Qed.

Lemma evolves_from_weaken n m s s' :
  (m <= n)%nat -> evolves_from n s s' -> evolves_from m s s'.
Proof.
  intros Hmn (Hn & Hf & Hh). split; [exact Hn|]. split.
  - intros p Hp. apply Hf. eapply old_name_mono; eauto.
  - intros l o Hl. destruct (Hh l o Hl) as (o' & Hl' & He).
    exists o'. split; [exact Hl'|].
    eapply object_evolves_weaken; [| |exact He]; lia.
Qed.

Lemma evolves_refl s : evolves s s.
Proof. apply evolves_from_refl. Qed.

Lemma evolves_trans s1 s2 s3 : evolves s1 s2 -> evolves s2 s3 -> evolves s1 s3.
Proof.
  unfold evolves. intros H12 H23. eapply evolves_from_trans; [exact H12|].
  eapply evolves_from_weaken; [|exact H23]. destruct H12; auto.
Qed.

Lemma caches_only_refl s : caches_only s s.
Proof.
  repeat split; auto. intros l o H. exists o.
  split; [exact H|]. split; [apply object_evolves_refl | auto].
Qed.

Lemma caches_only_trans s1 s2 s3 :
  caches_only s1 s2 -> caches_only s2 s3 -> caches_only s1 s3.
Proof.
  intros (Hf & Hn & Hl & Hh) (Hf' & Hn' & Hl' & Hh').
  split; [congruence|]. split; [congruence|]. split; [congruence|].
  intros l o Ho. destruct (Hh l o Ho) as (o2 & Ho2 & He & Hp & Hi).
  destruct (Hh' l o2 Ho2) as (o3 & Ho3 & He' & Hp' & Hi').
  exists o3. split; [exact Ho3|]. split; [|split; congruence].
  rewrite Hn in He'. eapply object_evolves_trans; eauto.
Qed.

Lemma caches_only_evolves_from n s s' : caches_only s s' -> evolves_from n s s'.
Proof.
  intros (Hf & Hn & Hl & Hh). split; [lia|]. split.
  - intros p _. congruence.
  - intros l o Ho. destruct (Hh l o Ho) as (o' & Ho' & He & Hp & _).
    exists o'. split; [exact Ho'|]. eapply object_evolves_same_path; eauto.
Qed.

Lemma caches_only_evolves s s' : caches_only s s' -> evolves s s'.
Proof. apply caches_only_evolves_from. Qed.

(** ** Heap updates that only fill caches *)

Lemma caches_only_put s l o o' :
  heap s !! l = Some o ->
  object_evolves (next_tmp s) (next_tmp s) o o' ->
  _path (layer_of o') = _path (layer_of o) ->
  flag_of o' = flag_of o ->
  caches_only s (put_obj l o' s).
Proof.
  intros Hl He Hp Hi. repeat split; cbn; auto.
  - apply length_insert.
  - intros l' o0 Hl'. destruct (decide (l = l')) as [->|Hne].
    + exists o'. rewrite list_lookup_insert_eq by (eapply lookup_lt_Some; eauto).
      assert (o0 = o) by congruence. subst o0. auto.
    + exists o0. rewrite list_lookup_insert_ne by auto.
      split; [exact Hl'|]. split; [apply object_evolves_refl | auto].
Qed.

Lemma set_nodata_evolves n o v :
  _nodata_value (layer_of o) = None ->
  object_evolves n n o (with_layer (set_nodata (Some v)) o).
Proof.
  intros Hnone. destruct o as [l|b]; cbn in *.
  - split; [|reflexivity]. repeat split; cbn; auto. intros w Hw. congruence.
  - split.
    { repeat split; cbn; auto. intros w Hw. congruence. }
    repeat split; auto using cache_kept_refl; exfalso; auto.
Qed.

(** ** The no-data property *)

Lemma nodata_value_eq l s :
  nodata_value l s =
  match heap s !! l with
  | None => (inl AttributeError, s)
  | Some o =>
      match _nodata_value (layer_of o) with
      | Some v => (inr v, s)
      | None =>
          match fs s !! _path (layer_of o) with
          | Some d =>
              (inr (NoDataValue d),
               put_obj l (with_layer (set_nodata (Some (NoDataValue d))) o) s)
          | None => (inl AttributeError, s)
          end
      end
  end.
Proof.
  unfold nodata_value, get_layer, bind, load.
  destruct (heap s !! l) as [o|] eqn:Hl; [|reflexivity]. cbn.
  destruct (_nodata_value (layer_of o)) as [v|]; [reflexivity|].
  unfold gdal_Open, gets. destruct (fs s !! _path (layer_of o)) as [d|]; [|reflexivity].
  unfold update_layer, bind, load. rewrite Hl. reflexivity.
Qed.

Lemma nodata_value_cached l s o v :
  heap s !! l = Some o -> _nodata_value (layer_of o) = Some v ->
  nodata_value l s = (inr v, s).
Proof. intros Hl Hv. rewrite nodata_value_eq, Hl, Hv. reflexivity. Qed.

Lemma nodata_value_state l s r s1 :
  nodata_value l s = (r, s1) ->
  s1 = s \/
  exists o v, heap s !! l = Some o /\ _nodata_value (layer_of o) = None /\
              r = inr v /\
              s1 = put_obj l (with_layer (set_nodata (Some v)) o) s.
Proof.
  rewrite nodata_value_eq.
  destruct (heap s !! l) as [o|] eqn:Hl; [|intros H; inversion H; auto].
  destruct (_nodata_value (layer_of o)) as [v|] eqn:Hv; [intros H; inversion H; auto|].
  destruct (fs s !! _path (layer_of o)) as [d|]; intros H; inversion H; subst; auto.
  right. exists o, (NoDataValue d). auto.
Qed.

Lemma nodata_value_ok l s v s1 :
  nodata_value l s = (inr v, s1) ->
  exists o o1, heap s !! l = Some o /\ nodata_of s o = Some v /\
               heap s1 !! l = Some o1 /\ _nodata_value (layer_of o1) = Some v /\
               _path (layer_of o1) = _path (layer_of o).
Proof.
  rewrite nodata_value_eq.
  destruct (heap s !! l) as [o|] eqn:Hl; [|discriminate].
  destruct (_nodata_value (layer_of o)) as [w|] eqn:Hw.
  - intros H; inversion H; subst. exists o, o. unfold nodata_of. rewrite Hw.
    repeat split; auto.
  - destruct (fs s !! _path (layer_of o)) as [d|] eqn:Hd; [|discriminate].
    intros H; inversion H; subst.
    exists o, (with_layer (set_nodata (Some (NoDataValue d))) o).
    split; [reflexivity|]. split; [unfold nodata_of; rewrite Hw, Hd; reflexivity|].
    split; [eapply heap_put_obj_eq; eauto|].
    destruct o; cbn; auto.
Qed.

Lemma nodata_value_caches_only l s : caches_only s (snd (nodata_value l s)).
Proof.
  destruct (nodata_value l s) as [r s1] eqn:H. cbn.
  apply nodata_value_state in H as [->|(o & v & Hl & Hn & _ & ->)].
  - apply caches_only_refl.
  - eapply caches_only_put; eauto using set_nodata_evolves;
      destruct o; reflexivity.
Qed.

(** ** The row loop *)

Lemma scan_rows_cached l s o nodata rs :
  heap s !! l = Some o -> _nodata_value (layer_of o) = Some nodata ->
  forall i acc, scan_rows l i rs acc s = (inr (scan_fold nodata i rs acc), s).
Proof.
  intros Hl Hv. induction rs as [|row rest IH]; intros i acc; cbn.
  - reflexivity.
  - rewrite (bind_ok _ _ _ _ _ (nodata_value_cached _ _ _ _ Hl Hv)). apply IH.
Qed.

Lemma scan_rows_eq l i rs acc s :
  scan_rows l i rs acc s =
  match rs with
  | [] => (inr acc, s)
  | _ :: _ =>
      match nodata_value l s with
      | (inr nodata, s1) => (inr (scan_fold nodata i rs acc), s1)
      | (inl e, s1) => (inl e, s1)
      end
  end.
Proof.
  destruct rs as [|row rest]; [reflexivity|]. cbn [scan_rows]. unfold bind at 1.
  destruct (nodata_value l s) as [[e|nodata] s1] eqn:H; [reflexivity|].
  destruct (nodata_value_ok _ _ _ _ H) as (o & o1 & _ & _ & Hl1 & Hv1 & _).
  rewrite (scan_rows_cached _ _ _ _ rest Hl1 Hv1). reflexivity.
Qed.

Lemma scan_rows_state l i rs acc s r s1 :
  scan_rows l i rs acc s = (r, s1) ->
  s1 = s \/
  exists o v, heap s !! l = Some o /\ _nodata_value (layer_of o) = None /\
              s1 = put_obj l (with_layer (set_nodata (Some v)) o) s.
Proof.
  rewrite scan_rows_eq. destruct rs as [|row rest].
  - intros H; inversion H; auto.
  - destruct (nodata_value l s) as [[e|nodata] s2] eqn:Hn; intros H; inversion H; subst;
      apply nodata_value_state in Hn as [->|(o & v & Hl & Hv & _ & ->)]; eauto 6.
Qed.

(** ** [min_pixel_bounds] *)

Lemma bbox_at_Some s l b :
  bbox_at s l = Some b <-> heap s !! l = Some (OBoundingBox b).
Proof.
  unfold bbox_at. destruct (heap s !! l) as [[lay|b']|]; split; intros H;
    inversion H; subst; reflexivity.
Qed.

Lemma get_bbox_eq' l s :
  get_bbox l s =
  match bbox_at s l with
  | Some b => (inr b, s)
  | None => (inl AttributeError, s)
  end.
Proof.
  unfold get_bbox, bbox_at, bind, load.
  destruct (heap s !! l) as [[lay|b]|]; reflexivity.
Qed.

Lemma bbox_at_put_eq s l b b0 :
  bbox_at s l = Some b0 -> bbox_at (put_obj l (OBoundingBox b) s) l = Some b.
Proof.
  intros H. apply bbox_at_Some in H. apply bbox_at_Some.
  eapply heap_put_obj_eq; eauto.
Qed.

Lemma min_pixel_bounds_eq self s :
  min_pixel_bounds self s =
  match bbox_at s self with
  | None => (inl AttributeError, s)
  | Some b =>
      if truthy (_min_pixel_bounds b) then (inr (_min_pixel_bounds b), s)
      else
        match fs s !! _path (base b) with
        | None => (inl AttributeError, s)
        | Some d =>
            match scan_rows self 0 (band d) (Z.of_nat (RasterXSize d), 0, 0, 0) s with
            | (inl e, s1) => (inl e, s1)
            | (inr acc, s1) =>
                match bbox_at s1 self with
                | Some b1 =>
                    (inr (Some (box_of acc)),
                     put_obj self
                       (OBoundingBox (set_pixel_bounds (Some (box_of acc)) b1)) s1)
                | None => (inl AttributeError, s1)
                end
            end
        end
  end.
Proof.
  unfold min_pixel_bounds. unfold bind at 1. rewrite get_bbox_eq'.
  destruct (bbox_at s self) as [b|] eqn:Hb; [|reflexivity].
  destruct (truthy (_min_pixel_bounds b)) eqn:Ht; cbn [negb].
  - unfold bind, ret. rewrite get_bbox_eq', Hb. reflexivity.
  - unfold bind at 1. unfold bind at 1. unfold gdal_Open, gets.
    destruct (fs s !! _path (base b)) as [d|]; cbn [ReadAsArray]; [|reflexivity].
    unfold bind at 1. unfold ret at 1. cbn [shape1 rows]. unfold bind at 1.
    destruct (scan_rows self 0 (band d) (Z.of_nat (RasterXSize d), 0, 0, 0) s)
      as [[e|[[[x_min x_max] y_min] y_max]] s1]; [reflexivity|].
    unfold update_bbox. unfold bind at 1. rewrite get_bbox_eq'.
    destruct (bbox_at s1 self) as [b1|] eqn:Hb1; [|reflexivity].
    unfold store, modify, bind. rewrite get_bbox_eq'.
    fold (put_obj self (OBoundingBox (set_pixel_bounds
            (Some [x_min - 1; x_max + 1; y_min - 1; y_max + 1]) b1)) s1).
    rewrite (bbox_at_put_eq _ _ _ _ Hb1). reflexivity.
Qed.

Lemma scan_rows_bbox l self i rs acc s r s1 b :
  scan_rows l i rs acc s = (r, s1) ->
  bbox_at s self = Some b ->
  caches_only s s1 /\
  exists b1, bbox_at s1 self = Some b1 /\
             _min_pixel_bounds b1 = _min_pixel_bounds b /\
             _min_geographic_bounds b1 = _min_geographic_bounds b /\
             _initialized b1 = _initialized b /\
             _path (base b1) = _path (base b).
Proof.
  intros H Hb. apply scan_rows_state in H as [->|(o & v & Hl & Hv & ->)].
  - split; [apply caches_only_refl|]. exists b. auto.
  - split.
    { eapply caches_only_put; eauto using set_nodata_evolves; destruct o; reflexivity. }
    destruct (decide (l = self)) as [->|Hne].
    + apply bbox_at_Some in Hb. assert (o = OBoundingBox b) by congruence. subst o.
      eexists. split; [eapply bbox_at_put_eq; apply bbox_at_Some; eauto|]. cbn. auto.
    + exists b. split; [|auto]. unfold bbox_at in *.
      rewrite heap_put_obj_ne by auto. exact Hb.
Qed.

Lemma set_pixel_bounds_evolves n b v :
  truthy (_min_pixel_bounds b) = false ->
  object_evolves n n (OBoundingBox b) (OBoundingBox (set_pixel_bounds v b)).
Proof.
  intros Hf. cbn. split; [apply layer_static_refl|].
  split; [intros Ht; congruence|]. split; [apply cache_kept_refl|].
  split; [auto|]. intros Hne. exfalso; auto.
Qed.

Lemma min_pixel_bounds_caches_only self s :
  caches_only s (snd (min_pixel_bounds self s)).
Proof.
  rewrite min_pixel_bounds_eq.
  destruct (bbox_at s self) as [b|] eqn:Hb; [|apply caches_only_refl].
  destruct (truthy (_min_pixel_bounds b)) eqn:Ht; [apply caches_only_refl|].
  destruct (fs s !! _path (base b)) as [d|]; [|apply caches_only_refl].
  destruct (scan_rows self 0 (band d) (Z.of_nat (RasterXSize d), 0, 0, 0) s)
    as [[e|acc] s1] eqn:Hs;
    destruct (scan_rows_bbox _ self _ _ _ _ _ _ _ Hs Hb)
      as (Hc & b1 & Hb1 & Hpx & _); [exact Hc|].
  rewrite Hb1. cbn [snd]. eapply caches_only_trans; [exact Hc|].
  eapply caches_only_put.
  - apply bbox_at_Some; eauto.
  - apply set_pixel_bounds_evolves. congruence.
  - reflexivity.
  - reflexivity.
Qed.

Lemma min_pixel_bounds_cached self s b :
  bbox_at s self = Some b -> truthy (_min_pixel_bounds b) = true ->
  min_pixel_bounds self s = (inr (_min_pixel_bounds b), s).
Proof. intros Hb Ht. rewrite min_pixel_bounds_eq, Hb, Ht. reflexivity. Qed.

Lemma box_of_truthy acc : truthy (Some (box_of acc)) = true.
Proof. destruct acc as [[[a b] c] d]. reflexivity. Qed.

Lemma min_pixel_bounds_ok self s v s1 :
  min_pixel_bounds self s = (inr v, s1) ->
  truthy v = true /\
  exists b1, bbox_at s1 self = Some b1 /\ _min_pixel_bounds b1 = v.
Proof.
  rewrite min_pixel_bounds_eq.
  destruct (bbox_at s self) as [b|] eqn:Hb; [|discriminate].
  destruct (truthy (_min_pixel_bounds b)) eqn:Ht.
  - intros H; inversion H; subst. eauto.
  - destruct (fs s !! _path (base b)) as [d|]; [|discriminate].
    destruct (scan_rows self 0 (band d) (Z.of_nat (RasterXSize d), 0, 0, 0) s)
      as [[e|acc] s2] eqn:Hs; [discriminate|].
    destruct (bbox_at s2 self) as [b2|] eqn:Hb2; [|discriminate].
    intros H; inversion H; subst. split; [apply box_of_truthy|].
    eexists. split; [eapply bbox_at_put_eq; eauto | reflexivity].
Qed.

(** First access on a box whose file can be opened: the loop runs with the
    box's no-data value and its result is returned. *)
Lemma min_pixel_bounds_computes self s b d nodata :
  bbox_at s self = Some b ->
  truthy (_min_pixel_bounds b) = false ->
  fs s !! _path (base b) = Some d ->
  nodata_of s (OBoundingBox b) = Some nodata ->
  exists s1, min_pixel_bounds self s = (inr (Some (pixel_box nodata d)), s1).
Proof.
  intros Hb Ht Hd Hn. rewrite min_pixel_bounds_eq, Hb, Ht, Hd.
  rewrite scan_rows_eq. unfold pixel_box.
  destruct (band d) as [|row rest] eqn:Hband.
  - rewrite Hb. eauto.
  - rewrite nodata_value_eq. apply bbox_at_Some in Hb. rewrite Hb.
    unfold nodata_of in Hn. cbn [layer_of] in *.
    destruct (_nodata_value (base b)) as [w|] eqn:Hw.
    + inversion Hn; subst. apply bbox_at_Some in Hb. rewrite Hb. eauto.
    + rewrite Hd in *. cbn in Hn. inversion Hn; subst. cbn [with_layer].
      erewrite bbox_at_put_eq by (apply bbox_at_Some; eauto). eauto.
Qed.

(** ** [min_geographic_bounds] *)

Lemma unpack4_state v s : snd (unpack4 v s) = s.
Proof.
  destruct v as [[|a [|b [|c [|d [|e t]]]]]|]; reflexivity.
Qed.

Lemma unpack4_ok v s acc s1 :
  unpack4 v s = (inr acc, s1) -> v = Some (box_of_inv acc) /\ s1 = s.
Proof.
  destruct v as [[|a [|b [|c [|d [|e t]]]]]|]; cbn; intros H; inversion H; subst.
  split; reflexivity.
Qed.

Lemma min_geographic_bounds_eq self s :
  min_geographic_bounds self s =
  match bbox_at s self with
  | None => (inl AttributeError, s)
  | Some b =>
      if truthy (_min_geographic_bounds b) then (inr (_min_geographic_bounds b), s)
      else
        match min_pixel_bounds self s with
        | (inl e, s1) => (inl e, s1)
        | (inr pb, s1) =>
            match unpack4 pb s1 with
            | (inl e, s2) => (inl e, s2)
            | (inr (x_min, x_max, y_min, y_max), s2) =>
                match bbox_at s2 self with
                | None => (inl AttributeError, s2)
                | Some b2 =>
                    match fs s2 !! _path (base b2) with
                    | None => (inl AttributeError, s2)
                    | Some d =>
                        let g := Some (affine (GeoTransform d) x_min x_max y_min y_max) in
                        (inr g,
                         put_obj self (OBoundingBox (set_geographic_bounds g b2)) s2)
                    end
                end
            end
        end
  end.
Proof.
  unfold min_geographic_bounds. unfold bind at 1. rewrite get_bbox_eq'.
  destruct (bbox_at s self) as [b|] eqn:Hb; [|reflexivity].
  destruct (truthy (_min_geographic_bounds b)) eqn:Ht; cbn [negb].
  - unfold bind, ret. rewrite get_bbox_eq', Hb. reflexivity.
  - unfold bind at 1. unfold bind at 1.
    destruct (min_pixel_bounds self s) as [[e|pb] s1]; [reflexivity|].
    unfold bind at 1.
    destruct (unpack4 pb s1) as [[e|[[[x_min x_max] y_min] y_max]] s2]; [reflexivity|].
    unfold bind at 1. rewrite get_bbox_eq'.
    destruct (bbox_at s2 self) as [b2|] eqn:Hb2; [|reflexivity].
    unfold bind at 1. unfold gdal_Open, gets.
    destruct (fs s2 !! _path (base b2)) as [d|]; cbn [GetGeoTransform]; [|reflexivity].
    unfold bind at 1. unfold ret at 1.
    destruct (GeoTransform d) as [[[[[origin_x x_size] r1] origin_y] r2] y_size] eqn:Hgt.
    unfold update_bbox. unfold bind at 1. rewrite get_bbox_eq', Hb2.
    unfold store, modify, bind. rewrite get_bbox_eq'.
    cbn [affine].
    match goal with
    | |- context [set_geographic_bounds ?g b2] =>
        fold (put_obj self (OBoundingBox (set_geographic_bounds g b2)) s2)
    end.
    rewrite (bbox_at_put_eq _ _ _ _ Hb2). reflexivity.
Qed.

(** [min_pixel_bounds] leaves the geographic cache, the flag and the path of
    every box as they are. *)
Lemma min_pixel_bounds_keeps self l s b :
  bbox_at s l = Some b ->
  exists b1, bbox_at (snd (min_pixel_bounds self s)) l = Some b1 /\
             _min_geographic_bounds b1 = _min_geographic_bounds b /\
             _initialized b1 = _initialized b /\
             _path (base b1) = _path (base b).
Proof.
  intros Hl. rewrite min_pixel_bounds_eq.
  destruct (bbox_at s self) as [b0|] eqn:Hb; [|exists b; auto].
  destruct (truthy (_min_pixel_bounds b0)) eqn:Ht; [exists b; auto|].
  destruct (fs s !! _path (base b0)) as [d|]; [|exists b; auto].
  destruct (scan_rows self 0 (band d) (Z.of_nat (RasterXSize d), 0, 0, 0) s)
    as [[e|acc] s1] eqn:Hs.
  - destruct (scan_rows_bbox _ l _ _ _ _ _ _ _ Hs Hl) as (_ & b1 & Hb1 & _ & Hg & Hi & Hp).
    exists b1. auto.
  - destruct (scan_rows_bbox _ l _ _ _ _ _ _ _ Hs Hl) as (_ & b1 & Hb1 & _ & Hg & Hi & Hp).
    destruct (bbox_at s1 self) as [b2|] eqn:Hb2; [|exists b1; auto].
    cbn [snd]. destruct (decide (self = l)) as [->|Hne].
    + assert (b2 = b1) by congruence. subst b2.
      eexists. split; [eapply bbox_at_put_eq; eauto|]. cbn. auto.
    + exists b1. split; [|auto]. unfold bbox_at in *.
      rewrite heap_put_obj_ne by auto. exact Hb1.
Qed.

Lemma set_geographic_bounds_evolves n b v :
  truthy (_min_geographic_bounds b) = false ->
  object_evolves n n (OBoundingBox b) (OBoundingBox (set_geographic_bounds v b)).
Proof.
  intros Hf. cbn. split; [apply layer_static_refl|].
  split; [apply cache_kept_refl|]. split; [intros Ht; congruence|].
  split; [auto|]. intros Hne. exfalso; auto.
Qed.

Lemma min_geographic_bounds_caches_only self s :
  caches_only s (snd (min_geographic_bounds self s)).
Proof.
  rewrite min_geographic_bounds_eq.
  destruct (bbox_at s self) as [b|] eqn:Hb; [|apply caches_only_refl].
  destruct (truthy (_min_geographic_bounds b)) eqn:Ht; [apply caches_only_refl|].
  pose proof (min_pixel_bounds_caches_only self s) as Hc.
  destruct (min_pixel_bounds_keeps self self s b Hb) as (b1 & Hb1 & Hg & _).
  destruct (min_pixel_bounds self s) as [[e|pb] s1]; cbn [snd] in *; [exact Hc|].
  pose proof (unpack4_state pb s1) as Hu.
  destruct (unpack4 pb s1) as [[e|[[[x_min x_max] y_min] y_max]] s2];
    cbn [snd] in Hu; subst s2; [exact Hc|].
  rewrite Hb1. destruct (fs s1 !! _path (base b1)) as [d|]; [|exact Hc].
  cbn [snd]. eapply caches_only_trans; [exact Hc|].
  eapply caches_only_put.
  - apply bbox_at_Some; eauto.
  - apply set_geographic_bounds_evolves. congruence.
  - reflexivity.
  - reflexivity.
Qed.

Lemma min_geographic_bounds_cached self s b :
  bbox_at s self = Some b -> truthy (_min_geographic_bounds b) = true ->
  min_geographic_bounds self s = (inr (_min_geographic_bounds b), s).
Proof. intros Hb Ht. rewrite min_geographic_bounds_eq, Hb, Ht. reflexivity. Qed.

Lemma min_geographic_bounds_ok self s v s1 :
  min_geographic_bounds self s = (inr v, s1) ->
  truthy v = true /\
  exists b1, bbox_at s1 self = Some b1 /\ _min_geographic_bounds b1 = v.
Proof.
  rewrite min_geographic_bounds_eq.
  destruct (bbox_at s self) as [b|] eqn:Hb; [|discriminate].
  destruct (truthy (_min_geographic_bounds b)) eqn:Ht.
  - intros H; inversion H; subst. eauto.
  - destruct (min_pixel_bounds self s) as [[e|pb] s2]; [discriminate|].
    destruct (unpack4 pb s2) as [[e|[[[x_min x_max] y_min] y_max]] s3]; [discriminate|].
    destruct (bbox_at s3 self) as [b3|] eqn:Hb3; [|discriminate].
    destruct (fs s3 !! _path (base b3)) as [d|]; [|discriminate].
    intros H; inversion H; subst. split.
    { destruct (GeoTransform d) as [[[[[? ?] ?] ?] ?] ?]. reflexivity. }
    eexists. split; [eapply bbox_at_put_eq; eauto | reflexivity].
Qed.

(** A property read keeps every box a box with the same flag and path. *)
Lemma caches_only_bbox s s1 l b :
  caches_only s s1 -> bbox_at s l = Some b ->
  exists b1, bbox_at s1 l = Some b1 /\
             _initialized b1 = _initialized b /\
             _path (base b1) = _path (base b) /\
             layer_static (base b) (base b1) /\
             cache_kept (_min_pixel_bounds b) (_min_pixel_bounds b1) /\
             cache_kept (_min_geographic_bounds b) (_min_geographic_bounds b1).
Proof.
  intros (_ & _ & _ & Hh) Hb. apply bbox_at_Some in Hb.
  destruct (Hh _ _ Hb) as (o' & Ho' & He & Hp & Hi).
  destruct o' as [l'|b1]; cbn in He; [contradiction|].
  destruct He as (Hs & Hpx & Hg & _). cbn in Hp, Hi.
  exists b1. split; [apply bbox_at_Some; exact Ho'|]. auto 6.
Qed.

Lemma nodata_of_file s b d :
  fs s !! _path (base b) = Some d -> is_Some (nodata_of s (OBoundingBox b)).
Proof.
  intros Hd. unfold nodata_of. cbn [layer_of].
  destruct (_nodata_value (base b)); [eauto|]. rewrite Hd. cbn. eauto.
Qed.

Lemma box_of_four acc : exists a b c d, box_of acc = [a; b; c; d].
Proof. destruct acc as [[[a b] c] d]. cbn. eauto. Qed.

(** On a box whose raster can be opened and whose cached pixel box, if it
    has one, has four entries, [min_geographic_bounds] returns. *)
Lemma min_geographic_bounds_returns self s b d :
  bbox_at s self = Some b ->
  fs s !! _path (base b) = Some d ->
  (truthy (_min_pixel_bounds b) = true ->
   exists a0 a1 a2 a3, _min_pixel_bounds b = Some [a0; a1; a2; a3]) ->
  exists g s1, min_geographic_bounds self s = (inr g, s1).
Proof.
  intros Hb Hd Hfour.
  destruct (truthy (_min_geographic_bounds b)) eqn:Ht.
  { rewrite (min_geographic_bounds_cached _ _ _ Hb Ht). eauto. }
  assert (Hpx : exists x_min x_max y_min y_max sm,
             min_pixel_bounds self s = (inr (Some [x_min; x_max; y_min; y_max]), sm)).
  { destruct (truthy (_min_pixel_bounds b)) eqn:Hp.
    - destruct (Hfour eq_refl) as (a0 & a1 & a2 & a3 & E).
      exists a0, a1, a2, a3, s. rewrite (min_pixel_bounds_cached _ _ _ Hb Hp), E.
      reflexivity.
    - destruct (nodata_of_file _ _ _ Hd) as (nodata & Hn).
      destruct (min_pixel_bounds_computes _ _ _ _ _ Hb Hp Hd Hn) as (sm & H).
      unfold pixel_box in H.
      destruct (box_of_four (scan_fold nodata 0 (band d)
                               (Z.of_nat (RasterXSize d), 0, 0, 0)))
        as (a0 & a1 & a2 & a3 & E).
      rewrite E in H. eauto 6. }
  destruct Hpx as (x_min & x_max & y_min & y_max & sm & Hpx).
  pose proof (min_pixel_bounds_caches_only self s) as Hc. rewrite Hpx in Hc.
  cbn [snd] in Hc.
  destruct (min_pixel_bounds_ok _ _ _ _ Hpx) as (_ & bm & Hbm & Hpm).
  destruct (caches_only_bbox _ _ _ _ Hc Hb) as (bm' & Hbm' & _ & Hpath & _).
  assert (bm' = bm) by congruence. subst bm'.
  destruct Hc as (Hfs & _).
  rewrite min_geographic_bounds_eq, Hb, Ht, Hpx. cbn [unpack4 ret].
  rewrite Hbm, Hfs, Hpath, Hd. cbv zeta. eauto.
Qed.

(** ** Stepping through a method *)

Lemma bind_mktmp {B} (k : path -> M state B) s :
  bind mktmp k s = k (TmpPath (next_tmp s)) (tick s).
Proof. reflexivity. Qed.

Lemma bind_gdal_Open {B} p (k : option Dataset -> M state B) s :
  bind (gdal_Open p) k s = k (fs s !! p) s.
Proof. reflexivity. Qed.

Lemma bind_get_bbox {B} l (k : BoundingBox -> M state B) s b :
  bbox_at s l = Some b -> bind (get_bbox l) k s = k b s.
Proof. intros H. unfold bind. rewrite get_bbox_eq', H. reflexivity. Qed.

Lemma bind_get_layer {B} l (k : Layer -> M state B) s o :
  heap s !! l = Some o -> bind (get_layer l) k s = k (layer_of o) s.
Proof. intros H. unfold bind. rewrite (get_layer_eq _ _ _ H). reflexivity. Qed.

Lemma bind_get_layer_none {B} l (k : Layer -> M state B) s :
  heap s !! l = None -> bind (get_layer l) k s = (inl AttributeError, s).
Proof. intros H. unfold bind, get_layer, bind, load. rewrite H. reflexivity. Qed.

Lemma bind_update_layer {B} l f (k : unit -> M state B) s o :
  heap s !! l = Some o ->
  bind (update_layer l f) k s = k tt (put_obj l (with_layer f o) s).
Proof. intros H. unfold bind at 1. rewrite (update_layer_eq _ _ _ _ H). reflexivity. Qed.

Lemma gdal_Translate_eq w dest src projWin s :
  gdal_Translate w dest src projWin s =
  match src with
  | None => (inl ValueError, s)
  | Some d =>
      match w d projWin with
      | inl _ => (inr tt, s)
      | inr d' => (inr tt, put_file dest d' s)
      end
  end.
Proof.
  unfold gdal_Translate. destruct src as [d|]; [|reflexivity].
  destruct (w d projWin); reflexivity.
Qed.

Lemma gdal_calc_Calc_eq calc outfile ndv A B s :
  gdal_calc_Calc calc outfile ndv A B s =
  match fs s !! A, fs s !! B with
  | Some a, Some b =>
      if (RasterXSize a =? RasterXSize b)%nat
         && (length (band a) =? length (band b))%nat
      then (inr tt,
            put_file outfile
              (mkDataset (RasterXSize a)
                 (zip_with (zip_with (calc_eval calc)) (band a) (band b))
                 ndv (GeoTransform a)) s)
      else (inl RuntimeError, s)
  | _, _ => (inl RuntimeError, s)
  end.
Proof.
  unfold gdal_calc_Calc. rewrite !bind_gdal_Open.
  destruct (fs s !! A) as [a|], (fs s !! B) as [b|]; try reflexivity.
  destruct ((RasterXSize a =? RasterXSize b)%nat
            && (length (band a) =? length (band b))%nat); reflexivity.
Qed.

(** ** Steps that keep old files and old objects *)

Lemma evolves_from_tick n s : (n <= next_tmp s)%nat -> evolves_from n s (tick s).
Proof.
  intros Hn. split; [cbn; lia|]. split.
  { intros p Hp. cbn. apply lookup_delete_ne. intros <-. cbn in Hp. lia. }
  intros l o H. exists o. split; [exact H|].
  eapply object_evolves_same_path; [reflexivity | apply (object_evolves_refl 0)].
Qed.

Lemma evolves_from_put_file n k d s :
  (n <= k)%nat -> evolves_from n s (put_file (TmpPath k) d s).
Proof.
  intros Hk. split; [cbn; lia|]. split.
  - intros p Hp. cbn. apply lookup_insert_ne. intros <-. cbn in Hp. lia.
  - intros l o H. exists o. split; [exact H|].
    eapply object_evolves_same_path; [reflexivity | apply (object_evolves_refl 0)].
Qed.

Lemma evolves_from_alloc n o s : evolves_from n s (snd (alloc o s)).
Proof.
  split; [cbn; lia|]. split; [auto|].
  intros l o0 H. exists o0. split.
  - cbn. rewrite lookup_app_l; [exact H | eapply lookup_lt_Some; eauto].
  - eapply object_evolves_same_path; [reflexivity | apply (object_evolves_refl 0)].
Qed.

Lemma evolves_from_object n s s' l o :
  evolves_from n s s' -> heap s !! l = Some o ->
  exists o', heap s' !! l = Some o' /\ object_evolves n (next_tmp s') o o'.
Proof. intros (_ & _ & H) Hl. auto. Qed.

Lemma evolves_from_bbox n s s' l b :
  evolves_from n s s' -> bbox_at s l = Some b ->
  exists b', bbox_at s' l = Some b' /\
             object_evolves n (next_tmp s') (OBoundingBox b) (OBoundingBox b').
Proof.
  intros He Hb. apply bbox_at_Some in Hb.
  destruct (evolves_from_object _ _ _ _ _ He Hb) as ([l'|b'] & Hl' & Ho);
    [contradiction|].
  exists b'. split; [apply bbox_at_Some; exact Hl' | exact Ho].
Qed.

Lemma put_obj_put_obj l o1 o2 s :
  put_obj l o2 (put_obj l o1 s) = put_obj l o2 s.
Proof. unfold put_obj. cbn. rewrite list_insert_insert_eq. reflexivity. Qed.

Lemma evolves_from_put n s l o o' :
  heap s !! l = Some o ->
  object_evolves n (next_tmp s) o o' ->
  evolves_from n s (put_obj l o' s).
Proof.
  intros Hl He. split; [cbn; lia|]. split; [auto|].
  intros l' o0 Hl'. destruct (decide (l = l')) as [->|Hne].
  - exists o'. split; [eapply heap_put_obj_eq; eauto|].
    assert (o0 = o) by congruence. subst o0. exact He.
  - exists o0. rewrite heap_put_obj_ne by auto. split; [exact Hl'|].
    eapply object_evolves_same_path; [reflexivity | apply (object_evolves_refl 0)].
Qed.

(** ** [crop] *)

Section Crop.

Variable w : Dataset -> option (list float) -> exn + Dataset.

Lemma crop_eq self layer :
  crop w self layer =
  (b <- get_bbox self ;;
   (if negb (_initialized b) then self_crop w self else ret tt) ;;
   crop_layer w self layer).
Proof. reflexivity. Qed.

(** The first half: either it raises and the box keeps its path and stays
    uninitialised, or it ends with the box initialised on the temporary
    name it asked for first, under which there is the window of the box's
    raster if the window could be made, and no raster if it could not. *)
Lemma self_crop_spec self s b r s' :
  bbox_at s self = Some b -> _initialized b = false ->
  self_crop w self s = (r, s') ->
  evolves s s' /\
  (forall l o, l <> self -> heap s !! l = Some o ->
     exists o', heap s' !! l = Some o' /\
                _path (layer_of o') = _path (layer_of o) /\
                flag_of o' = flag_of o) /\
  exists b', bbox_at s' self = Some b' /\
    match r with
    | inl _ => _initialized b' = false /\ _path (base b') = _path (base b)
    | inr _ => _initialized b' = true /\
               _path (base b') = TmpPath (next_tmp s) /\
               next_tmp s' = S (next_tmp s) /\
               truthy (_min_geographic_bounds b') = true /\
               exists d, fs s !! _path (base b) = Some d /\
                         fs s' !! TmpPath (next_tmp s)
                         = match w d (_min_geographic_bounds b') with
                           | inr d' => Some d'
                           | inl _ => None
                           end
    end.
Proof.
  intros Hb Hi H. unfold self_crop in H. rewrite bind_mktmp in H.
  assert (Hb1 : bbox_at (tick s) self = Some b) by exact Hb.
  rewrite (bind_get_bbox _ _ _ _ Hb1), bind_gdal_Open in H.
  pose proof (min_geographic_bounds_caches_only self (tick s)) as Hc.
  destruct (min_geographic_bounds self (tick s)) as [[e|pw] s2] eqn:Hg;
    cbn [snd] in Hc;
    destruct (caches_only_bbox _ _ _ _ Hc Hb1)
      as (b2 & Hb2 & Hi2 & Hp2 & Hst & Hpx & Hgeo);
    assert (He2 : evolves_from (next_tmp s) s s2)
      by (eapply evolves_from_trans;
          [apply evolves_from_tick; lia | apply caches_only_evolves_from; exact Hc]);
    assert (Hk2 : paths_kept s s2)
      by (intros l o Hl; destruct Hc as (_ & _ & _ & Hh);
          destruct (Hh l o Hl) as (o' & Ho' & _ & Hp' & Hf'); eauto).
  - rewrite (bind_err _ _ _ _ _ Hg) in H. inversion H; subst.
    split; [exact He2|]. split; [intros l o _ Hl; exact (Hk2 l o Hl)|].
    exists b2. split; [exact Hb2|]. split; congruence.
  - rewrite (bind_ok _ _ _ _ _ Hg) in H. unfold bind at 1 in H.
    rewrite gdal_Translate_eq in H.
    destruct (fs (tick s) !! _path (base b)) as [d|] eqn:Hd.
    2:{ inversion H; subst. split; [exact He2|].
        split; [intros l o _ Hl; exact (Hk2 l o Hl)|]. exists b2.
        split; [exact Hb2|]. split; congruence. }
    cbn [fs tick] in Hd. apply lookup_delete_Some in Hd as [_ Hd].
    set (s3 := match w d pw with
               | inl _ => s2
               | inr d' => put_file (TmpPath (next_tmp s)) d' s2
               end).
    assert (E3 : match w d pw with
                 | inl _ => (@inr exn unit tt, s2)
                 | inr d' => (inr tt, put_file (TmpPath (next_tmp s)) d' s2)
                 end = (inr tt, s3))
      by (unfold s3; destruct (w d pw); reflexivity).
    rewrite E3 in H. clear E3.
    destruct Hc as (Hfs2 & Hnt & _).
    assert (Hh3 : heap s3 = heap s2) by (unfold s3; destruct (w d pw); reflexivity).
    assert (Hn3 : next_tmp s3 = next_tmp s2)
      by (unfold s3; destruct (w d pw); reflexivity).
    assert (Hf3 : fs s3 !! TmpPath (next_tmp s)
                  = match w d pw with inr d' => Some d' | inl _ => None end).
    { unfold s3. destruct (w d pw); cbn [fs put_file].
      - rewrite Hfs2. cbn [fs tick]. apply lookup_delete_eq.
      - apply lookup_insert_eq. }
    assert (He3 : evolves_from (next_tmp s) s2 s3).
    { unfold s3. destruct (w d pw);
        [apply evolves_from_refl | apply evolves_from_put_file; lia]. }
    clearbody s3.
    assert (Hl3 : heap s3 !! self = Some (OBoundingBox b2))
      by (rewrite Hh3; apply bbox_at_Some; exact Hb2).
    rewrite (bind_update_layer _ _ _ _ _ Hl3) in H.
    erewrite update_bbox_eq in H by (eapply heap_put_obj_eq; exact Hl3).
    rewrite put_obj_put_obj in H. inversion H; subst r s'. clear H.
    destruct (min_geographic_bounds_ok _ _ _ _ Hg) as (Hpw & b2' & Hb2' & Hgv).
    assert (b2' = b2) by congruence. subst b2'.
    split.
    + eapply evolves_from_trans; [exact He2|].
      eapply evolves_from_trans; [exact He3|].
      eapply evolves_from_put; [exact Hl3|].
      cbn. split; [unfold layer_static; cbn; auto|].
      split; [apply cache_kept_refl|]. split; [apply cache_kept_refl|].
      split; [auto|]. intros _. split; [congruence|]. split; [reflexivity|].
      exists (next_tmp s). split; [|reflexivity]. rewrite Hn3, Hnt. cbn. lia.
    + split.
      { intros l o Hne Hl. destruct (Hk2 l o Hl) as (o' & Ho' & Hp' & Hf').
        exists o'. rewrite heap_put_obj_ne by auto. rewrite Hh3. auto. }
      eexists. split; [eapply bbox_at_put_eq; apply bbox_at_Some; exact Hl3|].
      cbn. split; [reflexivity|]. split; [reflexivity|].
      split; [rewrite Hn3, Hnt; reflexivity|]. split; [congruence|].
      exists d. split; [exact Hd|]. rewrite Hgv. exact Hf3.
Qed.

(** The first half raises only if the read of the geographic bounds
    raises or the box's raster cannot be opened. *)
Lemma self_crop_raises self s b e s' :
  bbox_at s self = Some b ->
  self_crop w self s = (inl e, s') ->
  fst (min_geographic_bounds self (tick s)) = inl e \/
  fs (tick s) !! _path (base b) = None.
Proof.
  intros Hb H. unfold self_crop in H. rewrite bind_mktmp in H.
  assert (Hb1 : bbox_at (tick s) self = Some b) by exact Hb.
  rewrite (bind_get_bbox _ _ _ _ Hb1), bind_gdal_Open in H.
  pose proof (min_geographic_bounds_caches_only self (tick s)) as Hc.
  destruct (min_geographic_bounds self (tick s)) as [[e'|pw] s2] eqn:Hg;
    cbn [snd] in Hc.
  - rewrite (bind_err _ _ _ _ _ Hg) in H. inversion H; subst. left. reflexivity.
  - destruct (fs (tick s) !! _path (base b)) as [d|] eqn:Hd; [|right; reflexivity].
    exfalso.
    destruct (caches_only_bbox _ _ _ _ Hc Hb1) as (b2 & Hb2 & _).
    rewrite (bind_ok _ _ _ _ _ Hg) in H. unfold bind at 1 in H.
    rewrite gdal_Translate_eq in H.
    set (s3 := match w d pw with
               | inl _ => s2
               | inr d' => put_file (TmpPath (next_tmp s)) d' s2
               end).
    assert (E3 : match w d pw with
                 | inl _ => (@inr exn unit tt, s2)
                 | inr d' => (inr tt, put_file (TmpPath (next_tmp s)) d' s2)
                 end = (inr tt, s3))
      by (unfold s3; destruct (w d pw); reflexivity).
    rewrite E3 in H. clear E3.
    assert (Hh3 : heap s3 = heap s2) by (unfold s3; destruct (w d pw); reflexivity).
    clearbody s3.
    assert (Hl3 : heap s3 !! self = Some (OBoundingBox b2))
      by (rewrite Hh3; apply bbox_at_Some; exact Hb2).
    rewrite (bind_update_layer _ _ _ _ _ Hl3) in H.
    erewrite update_bbox_eq in H by (eapply heap_put_obj_eq; exact Hl3).
    discriminate.
Qed.

End Crop.

Lemma heap_cached_refl h : heap_cached h h.
Proof.
  split; [reflexivity|]. intros l o H. exists o.
  split; [exact H|]. split; [apply layer_static_refl | reflexivity].
Qed.

Lemma heap_cached_trans h1 h2 h3 :
  heap_cached h1 h2 -> heap_cached h2 h3 -> heap_cached h1 h3.
Proof.
  intros (Hl & Hh) (Hl' & Hh'). split; [congruence|].
  intros l o Ho. destruct (Hh l o Ho) as (o2 & Ho2 & Hs & Hp).
  destruct (Hh' l o2 Ho2) as (o3 & Ho3 & Hs' & Hp').
  exists o3. split; [exact Ho3|].
  split; [eapply layer_static_trans; eauto | congruence].
Qed.

Lemma object_evolves_layer_static n m o o' :
  object_evolves n m o o' -> layer_static (layer_of o) (layer_of o').
Proof. destruct o, o'; cbn; tauto. Qed.

Lemma caches_only_heap s s' : caches_only s s' -> heap_cached (heap s) (heap s').
Proof.
  intros (_ & _ & Hl & Hh). split; [exact Hl|].
  intros l o Ho. destruct (Hh l o Ho) as (o' & Ho' & He & Hp & _).
  exists o'. split; [exact Ho'|].
  split; [eapply object_evolves_layer_static; eauto | exact Hp].
Qed.

(** ** Every outcome of [crop] is a later state *)

Lemma paths_kept_refl s : paths_kept s s.
Proof. intros l o H. eauto. Qed.

Lemma paths_kept_trans s1 s2 s3 :
  paths_kept s1 s2 -> paths_kept s2 s3 -> paths_kept s1 s3.
Proof.
  intros H12 H23 l o Hl. destruct (H12 l o Hl) as (o2 & Hl2 & Hp & Hf).
  destruct (H23 l o2 Hl2) as (o3 & Hl3 & Hp' & Hf').
  exists o3. split; [exact Hl3|]. split; congruence.
Qed.

Lemma quiet_refl n s : quiet n s s.
Proof. split; [apply evolves_from_refl | apply paths_kept_refl]. Qed.

Lemma quiet_trans n s1 s2 s3 : quiet n s1 s2 -> quiet n s2 s3 -> quiet n s1 s3.
Proof.
  intros [E K] [E' K'].
  split; [eapply evolves_from_trans | eapply paths_kept_trans]; eauto.
Qed.

Lemma quiet_tick n s : (n <= next_tmp s)%nat -> quiet n s (tick s).
Proof.
  intros Hn. split; [apply evolves_from_tick; exact Hn | intros l o H; exists o; auto].
Qed.

Lemma quiet_put_file n k d s : (n <= k)%nat -> quiet n s (put_file (TmpPath k) d s).
Proof.
  intros Hk. split; [apply evolves_from_put_file; exact Hk|].
  intros l o H. exists o. auto.
Qed.

Lemma quiet_caches_only n s s' : caches_only s s' -> quiet n s s'.
Proof.
  intros Hc. split; [apply caches_only_evolves_from; exact Hc|].
  intros l o Hl. destruct Hc as (_ & _ & _ & Hh).
  destruct (Hh l o Hl) as (o' & Ho' & _ & Hp & Hf). eauto.
Qed.

Lemma quiet_alloc n o s : quiet n s (snd (alloc o s)).
Proof.
  split; [apply evolves_from_alloc|].
  intros l o0 H. exists o0. split; [|auto].
  cbn. rewrite lookup_app_l; [exact H | eapply lookup_lt_Some; eauto].
Qed.

Lemma quiet_bind {A B} n (m : M state A) (k : A -> M state B) s0 s :
  quiet n s0 s ->
  quiet n s (snd (m s)) ->
  (forall a s1, m s = (inr a, s1) -> quiet n s0 s1 -> quiet n s0 (snd (k a s1))) ->
  quiet n s0 (snd (bind m k s)).
Proof.
  intros H0 Hm Hk. unfold bind. destruct (m s) as [[e|a] s1] eqn:E; cbn [snd] in *.
  - eapply quiet_trans; eauto.
  - apply Hk; [reflexivity|]. eapply quiet_trans; eauto.
Qed.

Lemma get_layer_state l s : snd (get_layer l s) = s.
Proof. unfold get_layer, bind, load. destruct (heap s !! l); reflexivity. Qed.

Lemma get_bbox_state l s : snd (get_bbox l s) = s.
Proof. rewrite get_bbox_eq'. destruct (bbox_at s l); reflexivity. Qed.

Lemma lift_state {S A} (r : exn + A) (s : S) : snd (lift r s) = s.
Proof. destruct r; reflexivity. Qed.

Lemma quiet_Translate n w k src pw s :
  (n <= k)%nat -> quiet n s (snd (gdal_Translate w (TmpPath k) src pw s)).
Proof.
  intros Hk. rewrite gdal_Translate_eq. destruct src as [d|]; [|apply quiet_refl].
  destruct (w d pw); [apply quiet_refl | apply quiet_put_file; exact Hk].
Qed.

Lemma quiet_Calc n calc k ndv A B s :
  (n <= k)%nat -> quiet n s (snd (gdal_calc_Calc calc (TmpPath k) ndv A B s)).
Proof.
  intros Hk. rewrite gdal_calc_Calc_eq.
  destruct (fs s !! A) as [a|], (fs s !! B) as [b|]; try apply quiet_refl.
  destruct ((RasterXSize a =? RasterXSize b)%nat
            && (length (band a) =? length (band b))%nat);
    [apply quiet_put_file; exact Hk | apply quiet_refl].
Qed.

Lemma mktmp_ok s a s1 :
  mktmp s = (inr a, s1) -> a = TmpPath (next_tmp s) /\ s1 = tick s.
Proof. unfold mktmp. intros H; inversion H; subst. split; reflexivity. Qed.

Section CropEvolves.

Variable w : Dataset -> option (list float) -> exn + Dataset.

Lemma crop_layer_quiet self layer s :
  quiet (next_tmp s) s (snd (crop_layer w self layer s)).
Proof.
  unfold crop_layer. set (n := next_tmp s).
  apply quiet_bind; [apply quiet_refl | apply quiet_tick; unfold n; lia|].
  intros tmp_path s1 Hm E1. apply mktmp_ok in Hm as [-> ->].
  apply quiet_bind; [exact E1 | rewrite get_layer_state; apply quiet_refl|].
  intros lay s2 _ E2.
  apply quiet_bind; [exact E2 | apply quiet_refl|].
  intros src s3 _ E3.
  apply quiet_bind;
    [exact E3 | apply quiet_caches_only, min_geographic_bounds_caches_only|].
  intros pw s4 _ E4.
  apply quiet_bind; [exact E4 | apply quiet_Translate; lia|].
  intros _ s5 _ E5.
  apply quiet_bind; [exact E5 | apply quiet_caches_only, nodata_value_caches_only|].
  intros bbox_nodata s6 _ E6.
  apply quiet_bind; [exact E6 | apply quiet_caches_only, nodata_value_caches_only|].
  intros layer_nodata s7 _ E7.
  apply quiet_bind;
    [exact E7 | apply quiet_tick; destruct E7 as ((Hn7 & _) & _); exact Hn7|].
  intros output_path s8 Hm E8. apply mktmp_ok in Hm as [-> ->].
  apply quiet_bind; [exact E8 | apply quiet_caches_only, nodata_value_caches_only|].
  intros out_nodata s9 _ E9.
  apply quiet_bind; [exact E9 | rewrite get_layer_state; apply quiet_refl|].
  intros self_layer s10 _ E10.
  apply quiet_bind.
  { exact E10. }
  { apply quiet_Calc. destruct E7 as ((Hn & _) & _). exact Hn. }
  intros _ s11 _ E11.
  apply quiet_bind; [exact E11 | rewrite get_layer_state; apply quiet_refl|].
  intros lay' s12 _ E12.
  apply quiet_bind; [exact E12 | rewrite lift_state; apply quiet_refl|].
  intros cropped s13 _ E13.
  eapply quiet_trans; [exact E13 | apply quiet_alloc].
Qed.

Lemma crop_layer_eq self layer :
  crop_layer w self layer =
  (tmp_path <- mktmp ;;
   lay <- get_layer layer ;;
   src <- gdal_Open (_path lay) ;;
   projWin <- min_geographic_bounds self ;;
   mask_layer w self layer tmp_path src projWin).
Proof. reflexivity. Qed.

Lemma mask_layer_quiet self layer k src pw s :
  quiet 0 s (snd (mask_layer w self layer (TmpPath k) src pw s)).
Proof.
  unfold mask_layer.
  apply quiet_bind; [apply quiet_refl | apply quiet_Translate; lia|].
  intros _ s5 _ E5.
  apply quiet_bind; [exact E5 | apply quiet_caches_only, nodata_value_caches_only|].
  intros bbox_nodata s6 _ E6.
  apply quiet_bind; [exact E6 | apply quiet_caches_only, nodata_value_caches_only|].
  intros layer_nodata s7 _ E7.
  apply quiet_bind; [exact E7 | apply quiet_tick; lia|].
  intros output_path s8 Hm E8. apply mktmp_ok in Hm as [-> ->].
  apply quiet_bind; [exact E8 | apply quiet_caches_only, nodata_value_caches_only|].
  intros out_nodata s9 _ E9.
  apply quiet_bind; [exact E9 | rewrite get_layer_state; apply quiet_refl|].
  intros self_layer s10 _ E10.
  apply quiet_bind; [exact E10 | apply quiet_Calc; lia|].
  intros _ s11 _ E11.
  apply quiet_bind; [exact E11 | rewrite get_layer_state; apply quiet_refl|].
  intros lay' s12 _ E12.
  apply quiet_bind; [exact E12 | rewrite lift_state; apply quiet_refl|].
  intros cropped s13 _ E13.
  eapply quiet_trans; [exact E13 | apply quiet_alloc].
Qed.

(** A [crop] that returns leaves the geographic bounds of the box cached. *)
Lemma crop_layer_geo self layer s out s' :
  crop_layer w self layer s = (inr out, s') ->
  exists bs', bbox_at s' self = Some bs' /\
              truthy (_min_geographic_bounds bs') = true.
Proof.
  rewrite crop_layer_eq. intros H.
  apply bind_inv_ok in H as (tmp_path & s1 & Hm & H). apply mktmp_ok in Hm as [-> ->].
  apply bind_inv_ok in H as (lay & s2 & _ & H).
  apply bind_inv_ok in H as (src & s3 & _ & H).
  apply bind_inv_ok in H as (pw & s4 & Hg & H).
  destruct (min_geographic_bounds_ok _ _ _ _ Hg) as (Ht & b4 & Hb4 & Hg4).
  pose proof (mask_layer_quiet self layer (next_tmp s) src pw s4) as [He _].
  rewrite H in He. cbn [snd] in He.
  destruct (evolves_from_bbox _ _ _ _ _ He Hb4) as (bs' & Hbs' & Hev).
  exists bs'. split; [exact Hbs'|]. cbn in Hev. destruct Hev as (_ & _ & Hgeo & _).
  rewrite Hgeo; congruence.
Qed.

Lemma crop_evolves self layer s : evolves s (snd (crop w self layer s)).
Proof.
  rewrite crop_eq. unfold bind at 1. rewrite get_bbox_eq'.
  destruct (bbox_at s self) as [b|] eqn:Hb; [|apply evolves_refl].
  destruct (_initialized b) eqn:Hi; cbn [negb].
  - unfold bind at 1. cbn [ret]. apply crop_layer_quiet.
  - unfold bind at 1.
    destruct (self_crop w self s) as [[e|[]] s1] eqn:Hs;
      destruct (self_crop_spec w _ _ _ _ _ Hb Hi Hs) as (He & _);
      [exact He|].
    eapply evolves_trans; [exact He | apply crop_layer_quiet].
Qed.

Lemma do_call_evolves c s : evolves s (do_call w c s).
Proof.
  destruct c as [self|self|l|self layer]; cbn [do_call].
  - apply caches_only_evolves, min_pixel_bounds_caches_only.
  - apply caches_only_evolves, min_geographic_bounds_caches_only.
  - apply caches_only_evolves, nodata_value_caches_only.
  - apply crop_evolves.
Qed.

Lemma run_evolves cs s : evolves s (run w cs s).
Proof.
  revert s. induction cs as [|c cs IH]; intros s; cbn.
  - apply evolves_refl.
  - eapply evolves_trans; [apply do_call_evolves | apply IH].
Qed.

End CropEvolves.

(** ** A successful second half of [crop] *)

Section CropOk.
Variable w : Dataset -> option (list float) -> exn + Dataset.

Lemma crop_layer_ok self layer s out s' :
  crop_layer w self layer s = (inr out, s') ->
  exists ol bs' dl A B nb nl,
    heap s !! layer = Some ol /\
    fs s !! _path (layer_of ol) = Some dl /\
    bbox_at s' self = Some bs' /\
    w dl (_min_geographic_bounds bs') = inr A /\
    <[TmpPath (next_tmp s) := A]> (fs s) !! _path (base bs') = Some B /\
    nodata_value self s' = (inr nb, s') /\
    nodata_value layer s' = (inr nl, s') /\
    RasterXSize A = RasterXSize B /\
    length (band A) = length (band B) /\
    out = length (heap s) /\
    heap s' !! out =
      Some (OLayer (mkLayer (TmpPath (S (next_tmp s))) (_year (layer_of ol))
                            (_interpretation (layer_of ol)) None)) /\
    length (heap s') = S (length (heap s)) /\
    next_tmp s' = S (S (next_tmp s)) /\
    fs s' = <[TmpPath (S (next_tmp s)) :=
               mkDataset (RasterXSize A)
                 (zip_with (zip_with (calc_eval (crop_calc nb nl))) (band A) (band B))
                 nl (GeoTransform A)]>
            (<[TmpPath (next_tmp s) := A]> (fs s)).
Proof.
  intros H. unfold crop_layer in H. rewrite bind_mktmp in H.
  destruct (heap s !! layer) as [ol|] eqn:Hol;
    [|rewrite (bind_get_layer_none _ _ (tick s) Hol) in H; discriminate].
  rewrite (bind_get_layer _ _ (tick s) _ Hol), bind_gdal_Open in H.
  pose proof (min_geographic_bounds_caches_only self (tick s)) as C2.
  destruct (min_geographic_bounds self (tick s)) as [[e|pw] s2] eqn:Hg;
    [rewrite (bind_err _ _ _ _ _ Hg) in H; discriminate|].
  rewrite (bind_ok _ _ _ _ _ Hg) in H. cbn [snd] in C2.
  unfold bind at 1 in H. rewrite gdal_Translate_eq in H. cbn [fs tick] in H.
  destruct (delete (TmpPath (next_tmp s)) (fs s) !! _path (layer_of ol))
    as [dl|] eqn:Hdl; [|discriminate].
  apply lookup_delete_Some in Hdl as [_ Hdl].
  (* the window of the layer, written or not *)
  set (s3 := match w dl pw with
             | inl _ => s2
             | inr A => put_file (TmpPath (next_tmp s)) A s2
             end).
  assert (E3 : match w dl pw with
               | inl _ => (@inr exn unit tt, s2)
               | inr d' => (inr tt, put_file (TmpPath (next_tmp s)) d' s2)
               end = (inr tt, s3))
    by (unfold s3; destruct (w dl pw); reflexivity).
  rewrite E3 in H. clear E3.
  assert (Hh3 : heap s3 = heap s2) by (unfold s3; destruct (w dl pw); reflexivity).
  assert (Hn3 : next_tmp s3 = next_tmp s2)
    by (unfold s3; destruct (w dl pw); reflexivity).
  assert (Hf3 : fs s3 = match w dl pw with
                        | inl _ => fs s2
                        | inr A => <[TmpPath (next_tmp s) := A]> (fs s2)
                        end)
    by (unfold s3; destruct (w dl pw); reflexivity).
  clearbody s3.
  unfold bind at 1 in H.
  pose proof (nodata_value_caches_only self s3) as C4.
  destruct (nodata_value self s3) as [[e|nb] s4] eqn:Hnb; [discriminate|].
  unfold bind at 1 in H.
  pose proof (nodata_value_caches_only layer s4) as C5.
  destruct (nodata_value layer s4) as [[e|nl] s5] eqn:Hnl; [discriminate|].
  cbn [snd] in C4, C5.
  rewrite bind_mktmp in H.
  destruct (nodata_value_ok _ _ _ _ Hnl) as (o4 & o5 & Ho4 & _ & Ho5 & Hc5 & _).
  rewrite (bind_ok _ _ _ _ _ (nodata_value_cached layer (tick s5) _ _ Ho5 Hc5)) in H.
  destruct (min_geographic_bounds_ok _ _ _ _ Hg) as (Hpw & b2 & Hb2 & Hgeo2).
  assert (Hb3 : bbox_at s3 self = Some b2) by (unfold bbox_at; rewrite Hh3; exact Hb2).
  destruct (caches_only_bbox _ _ _ _ C4 Hb3) as (b4 & Hb4 & _ & Hp4 & Hst4 & _ & Hg4).
  destruct (caches_only_bbox _ _ _ _ C5 Hb4) as (b5 & Hb5 & _ & Hp5 & Hst5 & _ & Hg5).
  assert (Hgeo5 : _min_geographic_bounds b5 = pw).
  { rewrite Hg5, Hg4; [exact Hgeo2 | congruence | rewrite Hg4; congruence]. }
  assert (Hl5 : heap (tick s5) !! self = Some (OBoundingBox b5))
    by (apply bbox_at_Some; exact Hb5).
  rewrite (bind_get_layer _ _ _ _ Hl5) in H. cbn [layer_of] in H.
  assert (Hfs5 : fs s5 = match w dl pw with
                         | inl _ => delete (TmpPath (next_tmp s)) (fs s)
                         | inr A => <[TmpPath (next_tmp s) := A]>
                                      (delete (TmpPath (next_tmp s)) (fs s))
                         end).
  { destruct C5 as (-> & _). destruct C4 as (-> & _). destruct C2 as (E & _).
    rewrite Hf3, E. reflexivity. }
  assert (Hnt5 : next_tmp s5 = S (next_tmp s)).
  { destruct C5 as (_ & -> & _). destruct C4 as (_ & -> & _).
    destruct C2 as (_ & E & _). rewrite Hn3, E. reflexivity. }
  assert (Hlen5 : length (heap s5) = length (heap s)).
  { destruct C5 as (_ & _ & -> & _). destruct C4 as (_ & _ & -> & _).
    destruct C2 as (_ & _ & E & _). rewrite Hh3, E. reflexivity. }
  unfold bind at 1 in H. rewrite gdal_calc_Calc_eq in H. cbn [fs tick] in H.
  rewrite Hnt5 in H.
  rewrite (lookup_delete_ne _ (TmpPath (S (next_tmp s))) (TmpPath (next_tmp s))) in H
    by (intros E; inversion E; lia).
  rewrite Hfs5 in H.
  (* gdal_calc needs the window: had it not been written, it would raise *)
  destruct (w dl pw) as [e|A] eqn:HA;
    [rewrite lookup_delete_eq in H; discriminate|].
  rewrite lookup_insert_eq in H.
  destruct (delete (TmpPath (S (next_tmp s)))
              (<[TmpPath (next_tmp s) := A]> (delete (TmpPath (next_tmp s)) (fs s)))
            !! _path (base b5)) as [B|] eqn:HB; [|discriminate].
  apply lookup_delete_Some in HB as [_ HB]. rewrite insert_delete_eq in HB.
  destruct ((RasterXSize A =? RasterXSize B)%nat
            && (length (band A) =? length (band B))%nat) eqn:Hshape; [|discriminate].
  apply andb_true_iff in Hshape as [Hx Hy].
  apply Nat.eqb_eq in Hx. apply Nat.eqb_eq in Hy.
  match type of H with
  | context [put_file ?p ?d ?st] => set (s9 := put_file p d st) in H
  end.
  assert (Ho9 : heap s9 !! layer = Some o5) by exact Ho5.
  rewrite (bind_get_layer _ _ _ _ Ho9) in H.
  rewrite Layer_init_year_value in H. cbn [lift] in H.
  unfold bind at 1 in H. cbn [ret] in H.
  unfold alloc in H. inversion H; subst out s'. clear H.
  (* the input layer as it was at the start *)
  assert (Hcache : heap_cached (heap s) (heap s5)).
  { eapply heap_cached_trans; [apply (caches_only_heap _ _ C2)|]. rewrite <- Hh3.
    eapply heap_cached_trans; [apply (caches_only_heap _ _ C4)|].
    apply (caches_only_heap _ _ C5). }
  destruct Hcache as (_ & Hcache). destruct (Hcache _ _ Hol) as (o5' & Ho5' & Hst & Hpath).
  assert (o5' = o5) by congruence. subst o5'.
  destruct Hst as (Hyear & Hinterp & _).
  destruct (nodata_value_ok _ _ _ _ Hnb) as (_ & os4 & _ & _ & Hos4 & Hcs4 & _).
  assert (os4 = OBoundingBox b4) by (apply bbox_at_Some in Hb4; congruence).
  subst os4. cbn [layer_of] in Hcs4.
  assert (Hcs5 : _nodata_value (base b5) = Some nb) by (apply Hst5; exact Hcs4).
  exists ol, b5, dl, A, B, nb, nl. cbn [heap fs next_tmp s9 put_file tick].
  split; [reflexivity|]. split; [exact Hdl|].
  split.
  { apply bbox_at_Some. cbn. apply lookup_app_l_Some. apply bbox_at_Some. exact Hb5. }
  split; [rewrite Hgeo5; exact HA|]. split; [exact HB|].
  split.
  { eapply nodata_value_cached; [cbn; apply lookup_app_l_Some; apply bbox_at_Some; exact Hb5|].
    exact Hcs5. }
  split.
  { eapply nodata_value_cached; [cbn; apply lookup_app_l_Some; exact Ho5 | exact Hc5]. }
  split; [exact Hx|]. split; [exact Hy|]. split; [exact Hlen5|].
  split.
  { rewrite list_lookup_middle by reflexivity. rewrite Hyear, Hinterp. reflexivity. }
  split; [rewrite length_app; cbn; lia|].
  split; [rewrite Hnt5; reflexivity|].
  rewrite ?Hnt5, insert_delete_eq, Hfs5, insert_delete_eq. reflexivity.
Qed.
End CropOk.

(** ** The mask expression and the outcome of a successful [crop] *)




Lemma old_name_lookup n k (m : gmap path Dataset) d p :
  old_name n p -> (n <= k)%nat -> <[TmpPath k := d]> m !! p = m !! p.
Proof.
  intros Hp Hk. apply lookup_insert_ne. intros <-. cbn in Hp. lia.
Qed.

Section CropFinal.
Variable w : Dataset -> option (list float) -> exn + Dataset.

Lemma crop_ok self layer s out s' :
  crop w self layer s = (inr out, s') ->
  exists b sm, bbox_at s self = Some b /\
    (if _initialized b then sm = s else self_crop w self s = (inr tt, sm)) /\
    crop_layer w self layer sm = (inr out, s').
Proof.
  rewrite crop_eq. intros H.
  apply bind_inv_ok in H as (b & s0 & Hb & H).
  apply get_bbox_inv in Hb as [-> Hb]. specialize (Hb b eq_refl).
  apply bbox_at_Some in Hb.
  apply bind_inv_ok in H as ([] & sm & Hm & H).
  exists b, sm. split; [exact Hb|]. split; [|exact H].
  destruct (_initialized b); cbn [negb] in Hm; [inversion Hm; reflexivity | exact Hm].
Qed.

End CropFinal.

(** * The bounding box: theorems *)

(** The sample box has data in rows 1..2 and columns 1..2: its pixel box is
    [[0, 3, 0, 3]], its geographic box runs from (100, 500) to (130, 470),
    and cropping the sample layer to it keeps the layer's values where the
    box has data and writes the layer's no-data value elsewhere. *)
Example demo_pixel_bounds :
  fst (min_pixel_bounds 0%nat demo_state) = inr (Some [0; 3; 0; 3]).
Proof. vm_compute. reflexivity. Qed.

Example demo_geographic_bounds :
  fst (min_geographic_bounds 0%nat demo_state)
  = inr (Some (map of_int [100; 500; 130; 470])).
Proof. vm_compute. reflexivity. Qed.

Example demo_crop :
  let s' := snd (crop window_by_pixels 0%nat 1%nat demo_state) in
  fst (crop window_by_pixels 0%nat 1%nat demo_state) = inr 2%nat /\
  heap s' !! 2%nat
  = Some (OLayer (mkLayer (TmpPath 2) (Some 2001) (Some "absolute"%string) None)) /\
  band <$> (fs s' !! TmpPath 0)
  = Some (map (map of_int) [[0; 0; 0]; [0; 1; 1]; [0; 1; 0]]) /\
  band <$> (fs s' !! TmpPath 1)
  = Some (map (map of_int) [[11; 12; 13]; [21; 22; 23]; [31; 32; 33]]) /\
  band <$> (fs s' !! TmpPath 2)
  = Some (map (map of_int) [[-1; -1; -1]; [-1; 22; 23]; [-1; 32; -1]]).
Proof. vm_compute. repeat split; reflexivity. Qed.

(** The cached boxes refer to the raster they were computed on.  After its
    first [crop] the box is backed by the window, whose origin has moved to
    (110, 490); the properties still return the pixel box [[1, 4, 1, 4]] of
    the original grid and the geographic box computed from the original
    origin (100, 500). *)
Example cached_bounds_outlive_raster :
  let s' := snd (crop window_by_pixels 0%nat 1%nat offset_state) in
  path_at s' 0%nat = Some (TmpPath 0) /\
  GeoTransform <$> (fs s' !! TmpPath 0)
  = Some (of_int 110, of_int 10, of_int 0, of_int 490, of_int 0, of_int (-10)) /\
  fst (min_pixel_bounds 0%nat s') = inr (Some [1; 4; 1; 4]) /\
  fst (min_geographic_bounds 0%nat s') = inr (Some (map of_int [110; 490; 140; 460])).
Proof. vm_compute. repeat split; reflexivity. Qed.

Lemma evolves_from_length n s s' :
  evolves_from n s s' -> (length (heap s) <= length (heap s'))%nat.
Proof.
  intros (_ & _ & Hh). destruct (heap s) as [|o h] eqn:E using rev_ind; [cbn; lia|].
  destruct (Hh (length h) o) as (o' & Ho' & _).
  { apply list_lookup_middle. reflexivity. }
  apply lookup_lt_Some in Ho'. rewrite length_app. cbn. lia.
Qed.

Lemma path_at_bbox s l b : bbox_at s l = Some b -> path_at s l = Some (_path (base b)).
Proof. intros H. apply bbox_at_Some in H. unfold path_at. rewrite H. reflexivity. Qed.

Section BoundingBoxTheorems.

Variable w : Dataset -> option (list float) -> exn + Dataset.

Lemma crop_keeps_others self layer s l o :
  l <> self -> heap s !! l = Some o ->
  exists o', heap (snd (crop w self layer s)) !! l = Some o' /\
             _path (layer_of o') = _path (layer_of o) /\
             flag_of o' = flag_of o.
Proof.
  intros Hne Hl. rewrite crop_eq. unfold bind at 1. rewrite get_bbox_eq'.
  destruct (bbox_at s self) as [b|] eqn:Hb; [|cbn; eauto].
  destruct (_initialized b) eqn:Hi; cbn [negb].
  - unfold bind at 1. cbn [ret]. apply (crop_layer_quiet w self layer s); exact Hl.
  - unfold bind at 1.
    destruct (self_crop w self s) as [[e|[]] s1] eqn:Hs;
      destruct (self_crop_spec w _ _ _ _ _ Hb Hi Hs) as (_ & Hk & _);
      destruct (Hk _ _ Hne Hl) as (o1 & Ho1 & Hp1 & Hf1); [cbn; eauto|].
    destruct (proj2 (crop_layer_quiet w self layer s1) _ _ Ho1) as (o2 & Ho2 & Hp2 & Hf2).
    exists o2. split; [exact Ho2|]. split; congruence.
Qed.

(** The first [crop] of a box either fails inside the self-cropping step,
    or gets through it and goes on with the layer. *)
Lemma crop_first_cases self layer s b r s1 :
  bbox_at s self = Some b -> _initialized b = false ->
  crop w self layer s = (r, s1) ->
  (exists e, self_crop w self s = (inl e, s1) /\ r = inl e) \/
  (exists sm, self_crop w self s = (inr tt, sm) /\
              crop_layer w self layer sm = (r, s1)).
Proof.
  intros Hb Hi. rewrite crop_eq, (bind_get_bbox _ _ _ _ Hb), Hi. cbn [negb].
  unfold bind at 1.
  destruct (self_crop w self s) as [[e|[]] sm]; intros H.
  - left. exists e. inversion H; subst. auto.
  - right. exists sm. auto.
Qed.

(** Once a box is initialised, no call changes its path. *)
Lemma initialized_path_stable self s b cs :
  bbox_at s self = Some b -> _initialized b = true ->
  path_at (run w cs s) self = path_at s self.
Proof.
  intros Hb Hi.
  destruct (evolves_from_bbox _ _ _ _ _ (run_evolves w cs s) Hb) as (b2 & Hb2 & Hev).
  rewrite (path_at_bbox _ _ _ Hb), (path_at_bbox _ _ _ Hb2).
  cbn in Hev. destruct Hev as (_ & _ & _ & _ & Hp).
  destruct (decide (_path (base b2) = _path (base b))) as [->|Hne]; [reflexivity|].
  destruct (Hp Hne) as (Hf & _). congruence.
Qed.

(** C3, amended: the first [crop] of a box either raises and leaves the
    box uninitialised on its path; or it leaves the box initialised on a
    temporary name it has just been given, and from then on no call
    changes the path.  It does the latter whenever it returns, and
    whenever the box's raster can be opened and the cached pixel box, if
    there is one, has four entries.  Under the new name there is the box's
    raster windowed to the bounds [min_geographic_bounds] returns if the
    window could be made, as it was whenever [crop] returns, and no raster
    at all if it could not. *)
Theorem crop_self_crops_once self layer s b r s1 :
  bbox_at s self = Some b ->
  _initialized b = false ->
  old_path s (_path (base b)) ->
  crop w self layer s = (r, s1) ->
  exists b1,
    bbox_at s1 self = Some b1 /\
    (forall out, r = inr out -> _initialized b1 = true) /\
    (is_Some (fs s !! _path (base b)) ->
     (truthy (_min_pixel_bounds b) = true ->
      exists a0 a1 a2 a3, _min_pixel_bounds b = Some [a0; a1; a2; a3]) ->
     _initialized b1 = true) /\
    (_initialized b1 = false ->
     _path (base b1) = _path (base b) /\ exists e, r = inl e) /\
    (_initialized b1 = true ->
     _path (base b1) = TmpPath (next_tmp s) /\
     _path (base b1) <> _path (base b) /\
     (exists d g,
         fs s !! _path (base b) = Some d /\
         min_geographic_bounds self s1 = (inr g, s1) /\ truthy g = true /\
         fs s1 !! _path (base b1)
         = match w d g with inr d' => Some d' | inl _ => None end /\
         (forall out, r = inr out -> exists d', w d g = inr d')) /\
     forall cs, path_at (run w cs s1) self = path_at s1 self).
Proof.
  intros Hb Hi Hold H.
  destruct (crop_first_cases _ _ _ _ _ _ Hb Hi H) as [(e & Hs & ->)|(sm & Hsm & Hl)].
  - destruct (self_crop_spec w _ _ _ _ _ Hb Hi Hs) as (_ & _ & b1 & Hb1 & Hi1 & Hp1).
    exists b1. split; [exact Hb1|]. split; [discriminate|].
    split.
    { intros [d Hd] Hfour. exfalso.
      assert (Hd' : fs (tick s) !! _path (base b) = Some d).
      { cbn [fs tick]. rewrite lookup_delete_ne; [exact Hd|].
        intros E. rewrite <- E in Hold. cbn in Hold. lia. }
      destruct (self_crop_raises w _ _ _ _ _ Hb Hs) as [Hg|Hn]; [|congruence].
      destruct (min_geographic_bounds_returns self (tick s) b d Hb Hd' Hfour)
        as (g & s2 & E).
      rewrite E in Hg. discriminate. }
    split; [intros _; split; [exact Hp1 | eauto]|]. congruence.
  - destruct (self_crop_spec w _ _ _ _ _ Hb Hi Hsm)
      as (_ & _ & bm & Hbm & Him & Hpm & Hnm & Hgm & d & Hd & Hfile).
    pose proof (crop_layer_quiet w self layer sm) as [He Hk].
    rewrite Hl in He, Hk. cbn [snd] in He, Hk.
    destruct (evolves_from_bbox _ _ _ _ _ He Hbm) as (b1 & Hb1 & Hev).
    destruct (Hk _ _ (proj1 (bbox_at_Some _ _ _) Hbm)) as (o1 & Ho1 & Hp1 & Hf1).
    assert (o1 = OBoundingBox b1) by (apply bbox_at_Some in Hb1; congruence).
    subst o1. cbn in Hp1, Hf1. cbn in Hev. destruct Hev as (_ & _ & Hg1 & _).
    specialize (Hg1 Hgm).
    assert (Hinit1 : _initialized b1 = true) by congruence.
    assert (Hfile1 : fs s1 !! TmpPath (next_tmp s)
                     = match w d (_min_geographic_bounds b1) with
                       | inr d' => Some d'
                       | inl _ => None
                       end).
    { destruct He as (_ & Hfs & _). rewrite Hfs by (rewrite Hnm; cbn; lia).
      rewrite Hg1. exact Hfile. }
    exists b1. split; [exact Hb1|]. split; [auto|]. split; [auto|].
    split; [congruence|].
    intros _. split; [congruence|]. split.
    { rewrite Hp1, Hpm. intros E. rewrite <- E in Hold. cbn in Hold. lia. }
    split.
    + exists d, (_min_geographic_bounds b1). split; [exact Hd|].
      split; [apply min_geographic_bounds_cached; [exact Hb1 | congruence]|].
      split; [congruence|]. split; [rewrite Hp1, Hpm; exact Hfile1|].
      intros out ->.
      destruct (crop_layer_ok w _ _ _ _ _ Hl)
        as (ol & bs' & dl & A & B & nb & nl & _ & _ & Hbs' & _ & HB & _).
      assert (bs' = b1) by congruence. subst bs'.
      rewrite Hp1, Hpm, lookup_insert_ne in HB
        by (rewrite Hnm; intros E; inversion E; lia).
      rewrite Hfile, <- Hg1 in HB.
      destruct (w d (_min_geographic_bounds b1)) as [e|d']; [discriminate | eauto].
    + intros cs. apply initialized_path_stable with (b := b1); assumption.
Qed.


(** C9, amended: a successful [crop] returns a new object, a layer on a
    temporary file name handed out during the call, with the year and
    the interpretation of the input layer; the input layer, whichever it
    is, keeps its year and interpretation and the file at its path is as
    before; it keeps its path too unless it is the bounding box itself at
    its first [crop], which the call moves to a temporary name. *)
Theorem crop_returns_new_layer self layer s ol out s' :
  heap s !! layer = Some ol ->
  old_path s (_path (layer_of ol)) ->
  crop w self layer s = (inr out, s') ->
  heap s !! out = None /\
  exists k lout ol',
    heap s' !! out = Some (OLayer lout) /\
    _path lout = TmpPath k /\ (next_tmp s <= k < next_tmp s')%nat /\
    is_Some (fs s' !! TmpPath k) /\
    _year lout = _year (layer_of ol) /\
    _interpretation lout = _interpretation (layer_of ol) /\
    heap s' !! layer = Some ol' /\
    _year (layer_of ol') = _year (layer_of ol) /\
    _interpretation (layer_of ol') = _interpretation (layer_of ol) /\
    fs s' !! _path (layer_of ol) = fs s !! _path (layer_of ol) /\
    (layer <> self \/ flag_of ol = true ->
     _path (layer_of ol') = _path (layer_of ol)) /\
    (layer = self -> flag_of ol = false ->
     _path (layer_of ol') = TmpPath (next_tmp s)).
Proof.
  intros Hol Hpl H.
  pose proof (crop_evolves w self layer s) as He. rewrite H in He. cbn [snd] in He.
  destruct (crop_ok w _ _ _ _ _ H) as (b & sm & Hb & Hsm & Hl).
  assert (Hesm : evolves s sm).
  { destruct (_initialized b) eqn:Hi; [subst sm; apply evolves_refl|].
    apply (self_crop_spec w _ _ _ _ _ Hb Hi Hsm). }
  destruct (crop_layer_ok w _ _ _ _ _ Hl)
    as (olm & bs' & dl & A & B & nb & nl & Holm & _ & _ & _ & _ & _ & _
        & _ & _ & Hout & Hnew & _ & Hnt & Hfs).
  destruct (evolves_from_object _ _ _ _ _ Hesm Hol) as (olm' & Holm' & Hevm).
  assert (olm' = olm) by congruence. subst olm'.
  apply object_evolves_layer_static in Hevm as (Hym & Him & _).
  destruct (evolves_from_object _ _ _ _ _ He Hol) as (ol' & Hol' & Hev).
  pose proof (object_evolves_layer_static _ _ _ _ Hev) as (Hy & Hi & _).
  split.
  { apply lookup_ge_None. rewrite Hout. eapply evolves_from_length; exact Hesm. }
  eexists (S (next_tmp sm)), _, ol'. split; [exact Hnew|]. cbn [_path _year _interpretation].
  split; [reflexivity|].
  split; [destruct Hesm as (Hn & _); lia|].
  split; [rewrite Hfs, lookup_insert_eq; eauto|].
  split; [exact Hym|]. split; [exact Him|]. split; [exact Hol'|].
  split; [exact Hy|]. split; [exact Hi|].
  split; [destruct He as (_ & Hfs' & _); apply Hfs'; exact Hpl|].
  split.
  - intros [Hne|Hflag].
    + pose proof (crop_keeps_others self layer s layer ol Hne Hol) as (o2 & Ho2 & Hp2 & _).
      rewrite H in Ho2. cbn [snd] in Ho2. congruence.
    + destruct ol as [l0|b0], ol' as [l1|b1]; cbn in Hev, Hflag |- *; try tauto;
        try discriminate.
      destruct Hev as (_ & _ & _ & _ & Hp).
      destruct (decide (_path (base b1) = _path (base b0))) as [E|E]; [exact E|].
      destruct (Hp E) as (Hf & _). congruence.
  - intros -> Hflag.
    assert (ol = OBoundingBox b) by (apply bbox_at_Some in Hb; congruence). subst ol.
    cbn [flag_of] in Hflag. rewrite Hflag in Hsm.
    destruct (self_crop_spec w _ _ _ _ _ Hb Hflag Hsm)
      as (_ & _ & bm & Hbm & _ & Hpm & _).
    destruct (proj2 (crop_layer_quiet w self self sm) _ _ (proj1 (bbox_at_Some _ _ _) Hbm))
      as (o2 & Ho2 & Hp2 & _).
    rewrite Hl in Ho2. cbn [snd] in Ho2.
    assert (o2 = ol') by congruence. subst o2. rewrite Hp2. exact Hpm.
Qed.

End BoundingBoxTheorems.

Lemma crop_self_crops_once_witness :
  let s1 := snd (crop window_by_pixels 0%nat 1%nat demo_state) in
  exists b1,
    bbox_at s1 0%nat = Some b1 /\
    (forall out, @inr exn nat 2%nat = inr out -> _initialized b1 = true) /\
    (is_Some (fs demo_state !! UserPath "bbox.tif") ->
     (truthy (@None (list Z)) = true ->
      exists a0 a1 a2 a3, @None (list Z) = Some [a0; a1; a2; a3]) ->
     _initialized b1 = true) /\
    (_initialized b1 = false ->
     _path (base b1) = UserPath "bbox.tif" /\ exists e, @inr exn nat 2%nat = inl e) /\
    (_initialized b1 = true ->
     _path (base b1) = TmpPath 0 /\
     _path (base b1) <> UserPath "bbox.tif" /\
     (exists d g,
         fs demo_state !! UserPath "bbox.tif" = Some d /\
         min_geographic_bounds 0%nat s1 = (inr g, s1) /\ truthy g = true /\
         fs s1 !! _path (base b1)
         = match window_by_pixels d g with inr d' => Some d' | inl _ => None end /\
         (forall out, @inr exn nat 2%nat = inr out ->
                      exists d', window_by_pixels d g = inr d')) /\
     forall cs, path_at (run window_by_pixels cs s1) 0%nat = path_at s1 0%nat).
Proof.
  cbv zeta.
  apply (crop_self_crops_once window_by_pixels 0%nat 1%nat demo_state demo_bbox
           (inr 2%nat)).
  - reflexivity.
  - reflexivity.
  - exact I.
  - vm_compute. reflexivity.
Defined.

(** C3 as stated, refuted: the raster of the sample box without data has
    no window (its pixel box is [[2, 1, -1, 1]], narrower than nothing).
    The first [crop] moves the box to a temporary name all the same, and
    under that name there is no raster, windowed or other. *)
Lemma crop_moves_box_to_no_raster :
  ~ (forall w self layer s b r s1,
        bbox_at s self = Some b ->
        _initialized b = false ->
        old_path s (_path (base b)) ->
        crop w self layer s = (r, s1) ->
        forall b1,
          bbox_at s1 self = Some b1 ->
          _path (base b1) <> _path (base b) ->
          exists d g d',
            fs s !! _path (base b) = Some d /\ w d g = inr d' /\
            fs s1 !! _path (base b1) = Some d').
Proof.
  intros Hclaim.
  pose (s1 := snd (crop window_by_pixels 0%nat 1%nat blank_box_state)).
  destruct (bbox_at s1 0%nat) as [b1|] eqn:Hb1; [|vm_compute in Hb1; discriminate].
  destruct (Hclaim window_by_pixels 0%nat 1%nat blank_box_state demo_bbox
              (fst (crop window_by_pixels 0%nat 1%nat blank_box_state)) s1
              eq_refl eq_refl I (surjective_pairing _) b1 Hb1)
    as (d & g & d' & _ & _ & Hfile).
  - vm_compute in Hb1. inversion Hb1; subst b1. discriminate.
  - vm_compute in Hb1. inversion Hb1; subst b1. vm_compute in Hfile. discriminate.
Qed.



Lemma crop_returns_new_layer_witness :
  let s' := snd (crop window_by_pixels 0%nat 0%nat demo_state) in
  heap demo_state !! 2%nat = None /\
  exists k lout ol',
    heap s' !! 2%nat = Some (OLayer lout) /\
    _path lout = TmpPath k /\ (0 <= k < next_tmp s')%nat /\
    is_Some (fs s' !! TmpPath k) /\
    _year lout = Some 0 /\
    _interpretation lout = None /\
    heap s' !! 0%nat = Some ol' /\
    _year (layer_of ol') = Some 0 /\
    _interpretation (layer_of ol') = None /\
    fs s' !! UserPath "bbox.tif" = fs demo_state !! UserPath "bbox.tif" /\
    (0%nat <> 0%nat \/ false = true -> _path (layer_of ol') = UserPath "bbox.tif") /\
    (0%nat = 0%nat -> false = false -> _path (layer_of ol') = TmpPath 0).
Proof.
  cbv zeta.
  apply (crop_returns_new_layer window_by_pixels 0%nat 0%nat demo_state
           (OBoundingBox demo_bbox) 2%nat).
  - reflexivity.
  - exact I.
  - vm_compute. reflexivity.
Defined.

(** C9 as stated, refuted: handed to its own first [crop], the bounding
    box is the input layer, the call returns, and the input's path is no
    longer what it was. *)
Lemma crop_moves_aliased_input :
  ~ (forall w self layer s ol out s',
        heap s !! layer = Some ol ->
        old_path s (_path (layer_of ol)) ->
        crop w self layer s = (inr out, s') ->
        exists ol',
          heap s' !! layer = Some ol' /\
          _path (layer_of ol') = _path (layer_of ol) /\
          _year (layer_of ol') = _year (layer_of ol) /\
          _interpretation (layer_of ol') = _interpretation (layer_of ol) /\
          fs s' !! _path (layer_of ol) = fs s !! _path (layer_of ol)).
Proof.
  intros Hclaim.
  destruct (Hclaim window_by_pixels 0%nat 0%nat demo_state (OBoundingBox demo_bbox)
                   2%nat (snd (crop window_by_pixels 0%nat 0%nat demo_state))
                   eq_refl I)
    as (ol' & Hol' & Hpath & _).
  - vm_compute. reflexivity.
  - vm_compute in Hol'. inversion Hol'; subst ol'. discriminate.
Qed.

(** C4, amended: on a box whose raster can be opened, the first read of
    [min_geographic_bounds] returns the affine transform of that raster
    applied to the value of [min_pixel_bounds]: origin + pixel index *
    resolution on each axis, computed in binary64, in the order x_min,
    y_min, x_max, y_max; both properties return the same values from then
    on.  The raster is the one the box is on at that first read. *)
Theorem min_geographic_bounds_affine self s b d :
  bbox_at s self = Some b ->
  truthy (_min_geographic_bounds b) = false ->
  fs s !! _path (base b) = Some d ->
  (truthy (_min_pixel_bounds b) = true ->
   exists a0 a1 a2 a3, _min_pixel_bounds b = Some [a0; a1; a2; a3]) ->
  exists x_min x_max y_min y_max sm s1 origin_x x_size r1 origin_y r2 y_size,
    let g := Some [fadd origin_x (fmul (of_int x_min) x_size);
                   fadd origin_y (fmul (of_int y_min) y_size);
                   fadd origin_x (fmul (of_int x_max) x_size);
                   fadd origin_y (fmul (of_int y_max) y_size)] in
    min_pixel_bounds self s = (inr (Some [x_min; x_max; y_min; y_max]), sm) /\
    GeoTransform d = (origin_x, x_size, r1, origin_y, r2, y_size) /\
    min_geographic_bounds self s = (inr g, s1) /\
    min_pixel_bounds self s1 = (inr (Some [x_min; x_max; y_min; y_max]), s1) /\
    min_geographic_bounds self s1 = (inr g, s1).
Proof.
  intros Hb Ht Hd Hfour.
  assert (Hpx : exists x_min x_max y_min y_max sm,
             min_pixel_bounds self s = (inr (Some [x_min; x_max; y_min; y_max]), sm)).
  { destruct (truthy (_min_pixel_bounds b)) eqn:Hp.
    - destruct (Hfour eq_refl) as (a0 & a1 & a2 & a3 & E).
      exists a0, a1, a2, a3, s. rewrite (min_pixel_bounds_cached _ _ _ Hb Hp), E.
      reflexivity.
    - destruct (nodata_of_file _ _ _ Hd) as (nodata & Hn).
      destruct (min_pixel_bounds_computes _ _ _ _ _ Hb Hp Hd Hn) as (sm & H).
      unfold pixel_box in H.
      destruct (box_of_four (scan_fold nodata 0 (band d)
                               (Z.of_nat (RasterXSize d), 0, 0, 0)))
        as (a0 & a1 & a2 & a3 & E).
      rewrite E in H. eauto 6. }
  destruct Hpx as (x_min & x_max & y_min & y_max & sm & Hpx).
  pose proof (min_pixel_bounds_caches_only self s) as Hc. rewrite Hpx in Hc.
  cbn [snd] in Hc.
  destruct (min_pixel_bounds_ok _ _ _ _ Hpx) as (_ & bm & Hbm & Hpm).
  destruct (caches_only_bbox _ _ _ _ Hc Hb) as (bm' & Hbm' & _ & Hpath & _).
  assert (bm' = bm) by congruence. subst bm'.
  destruct Hc as (Hfs & _).
  destruct (GeoTransform d) as [[[[[origin_x x_size] r1] origin_y] r2] y_size] eqn:Hgt.
  eexists x_min, x_max, y_min, y_max, sm, _, origin_x, x_size, r1, origin_y, r2, y_size.
  cbv zeta. split; [exact Hpx|]. split; [reflexivity|].
  split; [|split].
  - rewrite min_geographic_bounds_eq, Hb, Ht, Hpx. cbn [unpack4 ret].
    rewrite Hbm, Hfs, Hpath, Hd, Hgt. reflexivity.
  - erewrite min_pixel_bounds_cached;
      [|eapply bbox_at_put_eq; exact Hbm | cbn; rewrite Hpm; reflexivity].
    cbn. rewrite Hpm. reflexivity.
  - erewrite min_geographic_bounds_cached;
      [|eapply bbox_at_put_eq; exact Hbm | reflexivity].
    reflexivity.
Qed.

Lemma min_geographic_bounds_affine_witness :
  exists x_min x_max y_min y_max sm s1 origin_x x_size r1 origin_y r2 y_size,
    let g := Some [fadd origin_x (fmul (of_int x_min) x_size);
                   fadd origin_y (fmul (of_int y_min) y_size);
                   fadd origin_x (fmul (of_int x_max) x_size);
                   fadd origin_y (fmul (of_int y_max) y_size)] in
    min_pixel_bounds 0%nat demo_state
    = (inr (Some [x_min; x_max; y_min; y_max]), sm) /\
    GeoTransform demo_bbox_raster = (origin_x, x_size, r1, origin_y, r2, y_size) /\
    min_geographic_bounds 0%nat demo_state = (inr g, s1) /\
    min_pixel_bounds 0%nat s1 = (inr (Some [x_min; x_max; y_min; y_max]), s1) /\
    min_geographic_bounds 0%nat s1 = (inr g, s1).
Proof.
  apply (min_geographic_bounds_affine 0%nat demo_state demo_bbox demo_bbox_raster).
  - reflexivity.
  - reflexivity.
  - vm_compute. reflexivity.
  - discriminate.
Defined.

(** C4 as stated, refuted: after its first [crop] the sample box whose
    data start in row 2 and column 2 is on the window of its raster, whose
    origin is (110, 490).  [min_pixel_bounds] still returns [[1, 4, 1, 4]]
    and [min_geographic_bounds] still returns the corners (110, 490) and
    (140, 460) computed from the origin (100, 500) of the raster the box
    was on before; the transform of the raster it is on now would make of
    those pixel bounds the corners (120, 480) and (150, 450). *)
Lemma geographic_bounds_of_an_earlier_raster :
  ~ (forall (self : nat) s b d x_min x_max y_min y_max g sm s1,
        bbox_at s self = Some b ->
        fs s !! _path (base b) = Some d ->
        min_pixel_bounds self s = (inr (Some [x_min; x_max; y_min; y_max]), sm) ->
        min_geographic_bounds self s = (inr g, s1) ->
        g = Some (affine (GeoTransform d) x_min x_max y_min y_max)).
Proof.
  intros Hclaim.
  pose (s := snd (crop window_by_pixels 0%nat 1%nat offset_state)).
  destruct (bbox_at s 0%nat) as [b|] eqn:Hb; [|vm_compute in Hb; discriminate].
  destruct (fs s !! _path (base b)) as [d|] eqn:Hd.
  2:{ vm_compute in Hb. inversion Hb; subst b. vm_compute in Hd. discriminate. }
  specialize (Hclaim 0%nat s b d 1 4 1 4
                (Some (map of_int [110; 490; 140; 460])) s s Hb Hd).
  vm_compute in Hb. inversion Hb; subst b. clear Hb.
  vm_compute in Hd. inversion Hd; subst d. clear Hd.
  assert (E : Some (map of_int [110; 490; 140; 460])
              = Some (map of_int [120; 480; 150; 450])).
  { apply Hclaim; vm_compute; reflexivity. }
  vm_compute in E. discriminate.
Qed.

Lemma np_where_ne_from_blank nodata row :
  Forall (fun v => np_ne v nodata = false) row ->
  forall i, np_where_ne_from i row nodata = [].
Proof.
  induction 1 as [|v row Hv _ IH]; intros i; cbn; [reflexivity|].
  rewrite Hv. apply IH.
Qed.

Lemma scan_row_blank nodata i row acc :
  Forall (fun v => np_ne v nodata = false) row -> scan_row nodata i row acc = acc.
Proof.
  intros H. unfold scan_row, np_where_ne.
  rewrite (np_where_ne_from_blank _ _ H). destruct acc as [[[a b] c] d]. reflexivity.
Qed.

Lemma scan_fold_blank nodata rs :
  Forall (Forall (fun v => np_ne v nodata = false)) rs ->
  forall i acc, scan_fold nodata i rs acc = acc.
Proof.
  induction 1 as [|row rs Hrow _ IH]; intros i acc; cbn; [reflexivity|].
  rewrite (scan_row_blank _ _ _ _ Hrow). apply IH.
Qed.

(** ** The row scan on a rectangle of data *)

Lemma np_where_ne_from_In nodata row : forall k x,
  In x (np_where_ne_from k row nodata) <->
  exists (j : nat) v,
    x = k + Z.of_nat j /\ row !! j = Some v /\ np_ne v nodata = true.
Proof.
  induction row as [|v row IH]; intros k x; cbn [np_where_ne_from].
  - split; [intros [] | intros (j & v & _ & H & _); destruct j; discriminate].
  - destruct (np_ne v nodata) eqn:E.
    + cbn [In]. rewrite IH. split.
      * intros [<-|(j & v' & -> & Hj & Hv)].
        { exists 0%nat, v. split; [lia | auto]. }
        exists (S j), v'. split; [lia | auto].
      * intros (j & v' & -> & Hj & Hv). destruct j as [|j].
        { left. lia. }
        right. exists j, v'. split; [lia | auto].
    + rewrite IH. split.
      * intros (j & v' & -> & Hj & Hv). exists (S j), v'. split; [lia | auto].
      * intros (j & v' & -> & Hj & Hv). destruct j as [|j].
        { cbn in Hj. inversion Hj; subst. congruence. }
        exists j, v'. split; [lia | auto].
Qed.

Lemma fold_min_spec l : forall a,
  (fold_left Z.min l a = a \/ In (fold_left Z.min l a) l) /\
  fold_left Z.min l a <= a /\ (forall x, In x l -> fold_left Z.min l a <= x).
Proof.
  induction l as [|b l IH]; intros a; cbn.
  - split; [auto|]. split; [lia | intros x []].
  - destruct (IH (Z.min a b)) as (Hin & Hle & Hall). split; [|split].
    + destruct Hin as [E|Hin]; [|auto]. rewrite E.
      destruct (Z.min_spec a b) as [[_ ->]|[_ ->]]; auto.
    + lia.
    + intros x [<-|Hx]; [lia | auto].
Qed.

Lemma fold_max_spec l : forall a,
  (fold_left Z.max l a = a \/ In (fold_left Z.max l a) l) /\
  a <= fold_left Z.max l a /\ (forall x, In x l -> x <= fold_left Z.max l a).
Proof.
  induction l as [|b l IH]; intros a; cbn.
  - split; [auto|]. split; [lia | intros x []].
  - destruct (IH (Z.max a b)) as (Hin & Hle & Hall). split; [|split].
    + destruct Hin as [E|Hin]; [|auto]. rewrite E.
      destruct (Z.max_spec a b) as [[_ ->]|[_ ->]]; auto.
    + lia.
    + intros x [<-|Hx]; [lia | auto].
Qed.

Lemma np_min_spec l :
  l <> [] -> In (np_min l) l /\ forall x, In x l -> np_min l <= x.
Proof.
  destruct l as [|a l]; [congruence|]. intros _. cbn [np_min].
  destruct (fold_min_spec l a) as (Hin & Hle & Hall). split.
  - destruct Hin as [->|Hin]; [left; reflexivity | right; exact Hin].
  - intros x [<-|Hx]; auto.
Qed.

Lemma np_max_spec l :
  l <> [] -> In (np_max l) l /\ forall x, In x l -> x <= np_max l.
Proof.
  destruct l as [|a l]; [congruence|]. intros _. cbn [np_max].
  destruct (fold_max_spec l a) as (Hin & Hle & Hall). split.
  - destruct Hin as [->|Hin]; [left; reflexivity | right; exact Hin].
  - intros x [<-|Hx]; auto.
Qed.

Lemma data_row_indices nodata W x0 x1 row :
  (x0 <= x1 < W)%nat -> data_row nodata W x0 x1 row ->
  np_where_ne row nodata <> [] /\
  np_min (np_where_ne row nodata) = Z.of_nat x0 /\
  np_max (np_where_ne row nodata) = Z.of_nat x1.
Proof.
  intros Hx [Hlen Hrow]. unfold np_where_ne.
  assert (Hmem : forall x, In x (np_where_ne_from 0 row nodata) <->
                           exists j : nat, x = Z.of_nat j /\ (x0 <= j <= x1)%nat).
  { intros x. rewrite np_where_ne_from_In. split.
    - intros (j & v & -> & Hj & Hv). exists j. split; [lia|]. apply (Hrow j v Hj). exact Hv.
    - intros (j & -> & Hj). destruct (lookup_lt_is_Some_2 row j) as [v Hv]; [lia|].
      exists j, v. split; [lia|]. split; [exact Hv|]. apply (Hrow j v Hv). exact Hj. }
  assert (Hne : np_where_ne_from 0 row nodata <> []).
  { intros E. assert (Hin : In (Z.of_nat x0) (np_where_ne_from 0 row nodata))
      by (apply Hmem; exists x0; split; [reflexivity | lia]).
    rewrite E in Hin. destruct Hin. }
  split; [exact Hne|].
  destruct (np_min_spec _ Hne) as (Hmin & Hminall).
  destruct (np_max_spec _ Hne) as (Hmax & Hmaxall).
  apply Hmem in Hmin as (jm & Em & Hjm). apply Hmem in Hmax as (jM & EM & HjM).
  assert (H0 : In (Z.of_nat x0) (np_where_ne_from 0 row nodata))
    by (apply Hmem; exists x0; split; [reflexivity | lia]).
  assert (H1 : In (Z.of_nat x1) (np_where_ne_from 0 row nodata))
    by (apply Hmem; exists x1; split; [reflexivity | lia]).
  specialize (Hminall _ H0). specialize (Hmaxall _ H1). split; lia.
Qed.

Lemma blank_row_indices nodata row :
  (forall (j : nat) v, row !! j = Some v -> np_ne v nodata = false) ->
  np_where_ne row nodata = [].
Proof.
  intros Hrow. unfold np_where_ne.
  destruct (np_where_ne_from 0 row nodata) as [|x l] eqn:E; [reflexivity|].
  assert (Hin : In x (np_where_ne_from 0 row nodata)) by (rewrite E; left; reflexivity).
  apply np_where_ne_from_In in Hin as (j & v & _ & Hj & Hv).
  rewrite (Hrow _ _ Hj) in Hv. discriminate.
Qed.

Lemma scan_row_rectangle nodata W x0 x1 y0 y1 (i : nat) row :
  (x0 <= x1 < W)%nat -> (y0 <= y1)%nat ->
  length row = W ->
  (forall (j : nat) v, row !! j = Some v ->
     (np_ne v nodata = true <-> (y0 <= i <= y1)%nat /\ (x0 <= j <= x1)%nat)) ->
  scan_row nodata (Z.of_nat i) row (scan_state W x0 x1 y0 y1 i)
  = scan_state W x0 x1 y0 y1 (S i).
Proof.
  intros Hx Hy Hlen Hrow.
  destruct (decide (y0 <= i <= y1)%nat) as [Hin|Hout].
  - assert (Hd : data_row nodata W x0 x1 row).
    { split; [exact Hlen|]. intros j v Hj. rewrite (Hrow j v Hj). tauto. }
    destruct (data_row_indices _ _ _ _ _ Hx Hd) as (Hne & Hmin & Hmax).
    unfold scan_row, scan_state. 
    destruct (np_where_ne row nodata) as [|a l] eqn:E; [congruence|].
    rewrite <- E in *. clear E.
    assert (Hlen0 : (length (np_where_ne row nodata) =? 0)%nat = false)
      by (apply Nat.eqb_neq; destruct (np_where_ne row nodata); [congruence | cbn; lia]).
    destruct (i <=? y0)%nat eqn:Ei; [apply Nat.leb_le in Ei | apply Nat.leb_gt in Ei].
    + assert (i = y0) by lia. subst i.
      rewrite Hlen0, Hmin, Hmax.
      replace (S y0 <=? y0)%nat with false by (symmetry; apply Nat.leb_gt; lia).
      replace (Nat.min (S y0 - 1) y1) with y0 by lia.
      replace (Z.of_nat x0 <? Z.of_nat W) with true by (symmetry; apply Z.ltb_lt; lia).
      rewrite Z.eqb_refl.
      destruct (y0 =? 0)%nat eqn:E0; [apply Nat.eqb_eq in E0 | apply Nat.eqb_neq in E0].
      * subst y0. cbn [Nat.leb]. 
        destruct (Z.of_nat x1 >? 0) eqn:E1; [reflexivity|].
        rewrite Z.gtb_ltb in E1. apply Z.ltb_ge in E1.
        replace (Z.of_nat x1) with 0 by lia. reflexivity.
      * destruct (Z.of_nat x1 >? 0) eqn:E1; [reflexivity|].
        rewrite Z.gtb_ltb in E1. apply Z.ltb_ge in E1.
        replace (Z.of_nat x1) with 0 by lia. reflexivity.
    + rewrite Hlen0, Hmin, Hmax.
      replace (S i <=? y0)%nat with false by (symmetry; apply Nat.leb_gt; lia).
      replace (Nat.min (S i - 1) y1) with i by lia.
      replace (Nat.min (i - 1) y1) with (i - 1)%nat by lia.
      rewrite Z.ltb_irrefl. rewrite Z.gtb_ltb, Z.ltb_irrefl.
      destruct (y0 =? 0)%nat eqn:E0; [apply Nat.eqb_eq in E0 | apply Nat.eqb_neq in E0].
      * subst y0. replace (1 <=? i)%nat with true by (symmetry; apply Nat.leb_le; lia).
        destruct (1 <=? i - 1)%nat eqn:E2.
        { reflexivity. }
        apply Nat.leb_gt in E2. assert (i = 1%nat) by lia. subst i. reflexivity.
      * replace (Z.of_nat y0 =? 0) with false by (symmetry; apply Z.eqb_neq; lia).
        reflexivity.
  - assert (Hb : np_where_ne row nodata = []).
    { apply blank_row_indices. intros j v Hj.
      destruct (np_ne v nodata) eqn:E; [|reflexivity].
      apply (Hrow j v Hj) in E. tauto. }
    unfold scan_row. rewrite Hb. cbn [length Nat.eqb].
    unfold scan_state.
    destruct (i <=? y0)%nat eqn:Ei; [apply Nat.leb_le in Ei | apply Nat.leb_gt in Ei].
    + replace (S i <=? y0)%nat with true by (symmetry; apply Nat.leb_le; lia).
      reflexivity.
    + replace (S i <=? y0)%nat with false by (symmetry; apply Nat.leb_gt; lia).
      replace (Nat.min (S i - 1) y1) with (Nat.min (i - 1) y1) by lia.
      reflexivity.
Qed.

Lemma scan_fold_rectangle nodata W x0 x1 y0 y1 rs :
  (x0 <= x1 < W)%nat -> (y0 <= y1)%nat ->
  forall i : nat,
    (forall (t : nat) row, rs !! t = Some row ->
       length row = W /\
       forall (j : nat) v, row !! j = Some v ->
         (np_ne v nodata = true <->
          (y0 <= i + t <= y1)%nat /\ (x0 <= j <= x1)%nat)) ->
    scan_fold nodata (Z.of_nat i) rs (scan_state W x0 x1 y0 y1 i)
    = scan_state W x0 x1 y0 y1 (i + length rs).
Proof.
  intros Hx Hy. induction rs as [|row rest IH]; intros i Hrows.
  - cbn. rewrite Nat.add_0_r. reflexivity.
  - cbn [scan_fold length]. destruct (Hrows 0%nat row eq_refl) as [Hlen Hrow].
    rewrite (scan_row_rectangle nodata W x0 x1 y0 y1 i row Hx Hy Hlen).
    2:{ intros j v Hj. rewrite (Hrow j v Hj). rewrite Nat.add_0_r. reflexivity. }
    replace (Z.of_nat i + 1) with (Z.of_nat (S i)) by lia.
    rewrite IH.
    + f_equal. lia.
    + intros t r Ht. destruct (Hrows (S t) r Ht) as [Hl Hr]. split; [exact Hl|].
      intros j v Hj. rewrite (Hr j v Hj). replace (i + S t)%nat with (S i + t)%nat by lia.
      reflexivity.
Qed.

(** The box computed for a raster whose data fill a rectangle: the claimed
    box, except that a rectangle starting in row 0 and more than one row
    high gets [y_min = 1]. *)
Lemma pixel_box_rectangle nodata d x0 x1 y0 y1 :
  (x0 <= x1 < RasterXSize d)%nat -> (y0 <= y1 < length (band d))%nat ->
  Forall (fun row => length row = RasterXSize d) (band d) ->
  (forall i j v, pixel d i j = Some v ->
     (np_ne v nodata = true <-> (y0 <= i <= y1)%nat /\ (x0 <= j <= x1)%nat)) ->
  pixel_box nodata d =
  [Z.of_nat x0 - 1; Z.of_nat x1 + 1;
   (if (y0 =? 0)%nat && (y0 <? y1)%nat then 1 else Z.of_nat y0) - 1;
   Z.of_nat y1 + 1].
Proof.
  intros Hx Hy Hwf Hpix. unfold pixel_box.
  pose proof (scan_fold_rectangle nodata (RasterXSize d) x0 x1 y0 y1 (band d) Hx
                (proj1 Hy) 0%nat) as H.
  change (Z.of_nat 0) with 0 in H.
  change (scan_state (RasterXSize d) x0 x1 y0 y1 0)
    with (Z.of_nat (RasterXSize d), 0, 0, 0) in H.
  rewrite H.
  - unfold scan_state. cbn [Nat.add].
    replace (length (band d) <=? y0)%nat with false by (symmetry; apply Nat.leb_gt; lia).
    replace (Nat.min (length (band d) - 1) y1) with y1 by lia.
    cbn [box_of].
    destruct (y0 =? 0)%nat eqn:E0; [apply Nat.eqb_eq in E0 | reflexivity].
    subst y0. cbn [andb].
    destruct (1 <=? y1)%nat eqn:E1; [apply Nat.leb_le in E1 | apply Nat.leb_gt in E1].
    + replace (0 <? y1)%nat with true by (symmetry; apply Nat.ltb_lt; lia). reflexivity.
    + replace (0 <? y1)%nat with false by (symmetry; apply Nat.ltb_ge; lia). reflexivity.
  - intros t row Ht. split.
    + rewrite Forall_forall in Hwf. apply Hwf. eapply list_elem_of_lookup_2; eauto.
    + intros j v Hj. apply (Hpix t j v). unfold pixel. rewrite Ht. exact Hj.
Qed.

(** X1: on a bounding box whose data fill a rectangle, the first read of
    [min_pixel_bounds] returns the tightest rectangle widened by one pixel on
    each side, unless the rectangle starts in row 0 and is more than one
    row high: then the upper bound is row 0, not row -1. *)
Lemma min_pixel_bounds_rectangle self s b d nodata x0 x1 y0 y1 :
  bbox_at s self = Some b ->
  truthy (_min_pixel_bounds b) = false ->
  fs s !! _path (base b) = Some d ->
  nodata_of s (OBoundingBox b) = Some nodata ->
  (x0 <= x1 < RasterXSize d)%nat -> (y0 <= y1 < length (band d))%nat ->
  Forall (fun row => length row = RasterXSize d) (band d) ->
  (forall i j v, pixel d i j = Some v ->
     (np_ne v nodata = true <-> (y0 <= i <= y1)%nat /\ (x0 <= j <= x1)%nat)) ->
  exists s1,
    min_pixel_bounds self s =
    (inr (Some [Z.of_nat x0 - 1; Z.of_nat x1 + 1;
                (if (y0 =? 0)%nat && (y0 <? y1)%nat then 1 else Z.of_nat y0) - 1;
                Z.of_nat y1 + 1]), s1).
Proof.
  intros Hb Ht Hd Hn Hx Hy Hwf Hpix.
  destruct (min_pixel_bounds_computes _ _ _ _ _ Hb Ht Hd Hn) as (s1 & H).
  exists s1. rewrite H, (pixel_box_rectangle _ _ _ _ _ _ Hx Hy Hwf Hpix). reflexivity.
Qed.

(** C10: on a bounding box whose raster has no pixel other than the no-data
    value, the first read of [min_pixel_bounds] raises nothing and returns
    [[W - 1, 1, -1, 1]], where [W] is the width of the raster. *)
Theorem min_pixel_bounds_all_nodata self s b d nodata :
  bbox_at s self = Some b ->
  truthy (_min_pixel_bounds b) = false ->
  fs s !! _path (base b) = Some d ->
  nodata_of s (OBoundingBox b) = Some nodata ->
  Forall (Forall (fun v => np_ne v nodata = false)) (band d) ->
  exists s1,
    min_pixel_bounds self s =
    (inr (Some [Z.of_nat (RasterXSize d) - 1; 1; -1; 1]), s1).
Proof.
  intros Hb Ht Hd Hn Hblank.
  destruct (min_pixel_bounds_computes _ _ _ _ _ Hb Ht Hd Hn) as (s1 & H).
  exists s1. rewrite H. unfold pixel_box.
  rewrite (scan_fold_blank _ _ Hblank). reflexivity.
Qed.

Lemma min_pixel_bounds_all_nodata_witness :
  exists s1, min_pixel_bounds 0%nat blank_state = (inr (Some [2; 1; -1; 1]), s1).
Proof.
  apply (min_pixel_bounds_all_nodata 0%nat blank_state demo_bbox blank_raster (of_int 7)).
  - reflexivity.
  - reflexivity.
  - vm_compute. reflexivity.
  - vm_compute. reflexivity.
  - repeat constructor.
Defined.

(** C1: the raster whose four pixels all hold data has the tightest
    rectangle columns 0..1, rows 0..1, so the claimed box is
    [[-1, 2, -1, 2]]; [min_pixel_bounds] returns [[-1, 2, 0, 2]], because the
    loop takes [y_min == 0] for "not set yet" and moves [y_min] from row 0 to
    row 1. *)
Theorem min_pixel_bounds_first_row_slip :
  (forall i j v, pixel full_raster i j = Some v ->
     (np_ne v (NoDataValue full_raster) = true <->
      (0 <= i <= 1)%nat /\ (0 <= j <= 1)%nat)) /\
  fst (min_pixel_bounds 0%nat full_state) = inr (Some [-1; 2; 0; 2]) /\
  [-1; 2; 0; 2] <> [0 - 1; 1 + 1; 0 - 1; 1 + 1].
Proof.
  split; [|split; [vm_compute; reflexivity | discriminate]].
  intros i j v H.
  destruct i as [|[|i]]; [| |discriminate];
    (destruct j as [|[|j]]; [| |discriminate]);
    inversion H; subst; (split; [intros _; lia | intros _; reflexivity]).
Qed.

(** C8: once [min_pixel_bounds] or [min_geographic_bounds] has returned a
    value, every later read returns that value and touches nothing,
    whatever calls were made in between, [crop] with its replacement of the
    box's backing file included. *)
Theorem bounds_cached w self s :
  (forall v s1 cs,
      min_pixel_bounds self s = (inr v, s1) ->
      min_pixel_bounds self (run w cs s1) = (inr v, run w cs s1)) /\
  (forall g s1 cs,
      min_geographic_bounds self s = (inr g, s1) ->
      min_geographic_bounds self (run w cs s1) = (inr g, run w cs s1)).
Proof.
  split.
  - intros v s1 cs H. destruct (min_pixel_bounds_ok _ _ _ _ H) as (Ht & b1 & Hb1 & Hv).
    destruct (evolves_from_bbox _ _ _ _ _ (run_evolves w cs s1) Hb1)
      as (b2 & Hb2 & He). cbn in He. destruct He as (_ & Hpx & _).
    rewrite Hv in Hpx. specialize (Hpx Ht).
    rewrite (min_pixel_bounds_cached _ _ _ Hb2) by congruence. congruence.
  - intros g s1 cs H. destruct (min_geographic_bounds_ok _ _ _ _ H) as (Ht & b1 & Hb1 & Hv).
    destruct (evolves_from_bbox _ _ _ _ _ (run_evolves w cs s1) Hb1)
      as (b2 & Hb2 & He). cbn in He. destruct He as (_ & _ & Hg & _).
    rewrite Hv in Hg. specialize (Hg Ht).
    rewrite (min_geographic_bounds_cached _ _ _ Hb2) by congruence. congruence.
Qed.

Lemma bounds_cached_witness :
  let s1 := snd (min_pixel_bounds 0%nat demo_state) in
  let s2 := snd (min_geographic_bounds 0%nat demo_state) in
  min_pixel_bounds 0%nat (run window_by_pixels demo_calls s1)
  = (inr (Some [0; 3; 0; 3]), run window_by_pixels demo_calls s1) /\
  min_geographic_bounds 0%nat (run window_by_pixels demo_calls s2)
  = (inr (Some (map of_int [100; 500; 130; 470])), run window_by_pixels demo_calls s2) /\
  path_at s1 0%nat <> path_at (run window_by_pixels demo_calls s1) 0%nat.
Proof.
  cbv zeta. split; [|split].
  - apply (proj1 (bounds_cached window_by_pixels 0%nat demo_state)).
    vm_compute. reflexivity.
  - apply (proj2 (bounds_cached window_by_pixels 0%nat demo_state)).
    vm_compute. reflexivity.
  - vm_compute. discriminate.
Defined.

(** * The composite indicator: theorems *)

Example splitext_posix :
  splitext posixpath "out/NPP_2001.tif" = ("out/NPP_2001", ".tif")%string /\
  splitext posixpath "out.d/NPP_2001" = ("out.d/NPP_2001", "")%string /\
  splitext posixpath "out/.hidden" = ("out/.hidden", "")%string.
Proof. vm_compute. repeat split; reflexivity. Qed.

Example splitext_nt :
  splitext ntpath "c:\my_run\NPP_2001.tif" = ("c:\my_run\NPP_2001", ".tif")%string.
Proof. vm_compute. reflexivity. Qed.

Example trailing_year_examples :
  trailing_year "out/NPP_2001" = Some 2001 /\
  trailing_year "out/NPP_final" = None /\
  trailing_year "01" = None.
Proof. vm_compute. repeat split; reflexivity. Qed.

Lemma py_int_trailing_year stem y :
  trailing_year stem = Some y -> py_int (PyStr (last4 stem)) = inr y.
Proof.
  unfold trailing_year.
  destruct (last4 stem) as [|c1 [|c2 [|c3 [|c4 [|c5 r]]]]]; try discriminate.
  cbn [py_int decimal_value].
  destruct (digit_of_ascii c1) as [d1|]; [|discriminate].
  destruct (digit_of_ascii c2) as [d2|]; [|discriminate].
  destruct (digit_of_ascii c3) as [d3|]; [|discriminate].
  destruct (digit_of_ascii c4) as [d4|]; [|discriminate].
  intros H; inversion H; subst. f_equal. lia.
Qed.

Section IndicatorFacts.

Variable os : os_path.
Variable glob : string -> list string.
Variable blend : LayerCollection -> LayerCollection -> BlendMode -> exn + LayerCollection.

Lemma wrap_layers_state paths found st : snd (wrap_layers os paths found st) = st.
Proof.
  revert found. induction paths as [|p rest IH]; intros found; cbn [wrap_layers];
    [reflexivity|].
  unfold bind.
  destruct (Layer_init (UserPath p) (PyStr (last4 (fst (splitext os p)))) None);
    cbn [lift raise ret snd]; [reflexivity | apply IH].
Qed.

Lemma wrap_layers_years paths :
  Forall (fun p => is_Some (trailing_year (fst (splitext os p)))) paths ->
  forall found st,
  exists ls,
    wrap_layers os paths found st =
    (inr (mkLayerCollection (layers found ++ ls) (palette found)
                            (background_color found)), st) /\
    Forall2 (layer_from os) paths ls.
Proof.
  induction 1 as [|p rest [y Hy] _ IH]; intros found st.
  - exists []. rewrite app_nil_r. destruct found; split; [reflexivity | constructor].
  - cbn [wrap_layers]. unfold Layer_init.
    rewrite (py_int_trailing_year _ _ Hy). cbn [lift]. unfold bind at 1. cbn [ret].
    destruct (IH (append found (mkLayer (UserPath p) (Some y) None None)) st)
      as (ls & Hw & Hl).
    exists (mkLayer (UserPath p) (Some y) None None :: ls). rewrite Hw. cbn.
    rewrite <- app_assoc. split; [reflexivity|].
    constructor; [split; [reflexivity | exists y; split; [exact Hy | reflexivity]] | exact Hl].
Qed.

Lemma find_layers_eq pattern st :
  _find_layers os glob pattern st =
  let st1 := mkIndicatorState (this st) (trace st ++ [EvLayerCollection; EvGlob pattern]) in
  match wrap_layers os (glob pattern)
          (LayerCollection_init (_palette (this st)) (_background_color (this st))) st1 with
  | (inl e, _) => (inl e, st1)
  | (inr found, _) =>
      if collection_truthy found then (inr found, st1)
      else (inl (IOError (no_output_message pattern)), st1)
  end.
Proof.
  unfold _find_layers, new_LayerCollection, emit, modify, gets, bind, ret. cbn.
  rewrite <- app_assoc. cbn [app].
  match goal with
  | |- context [wrap_layers os ?ps ?f ?s] =>
      pose proof (wrap_layers_state ps f s) as Hs;
      destruct (wrap_layers os ps f s) as [[e|found] s2]
  end; cbn [snd] in Hs; subst; [reflexivity|].
  destruct (collection_truthy found); reflexivity.
Qed.

(** C7: every path the pattern discovers is wrapped, in the order found,
    as a layer on that path whose year is the integer written by the last
    four characters of the path without its extension. *)
Theorem find_layers_years pattern st :
  glob pattern <> [] ->
  Forall (fun p => is_Some (trailing_year (fst (splitext os p)))) (glob pattern) ->
  exists found st',
    _find_layers os glob pattern st = (inr found, st') /\
    Forall2 (layer_from os) (glob pattern) (layers found).
Proof.
  intros Hne Hall. rewrite find_layers_eq. cbv zeta.
  match goal with
  | |- context [wrap_layers os ?ps ?f ?s] =>
      destruct (wrap_layers_years ps Hall f s) as (ls & -> & Hl)
  end.
  cbn [layers LayerCollection_init app] in *.
  unfold collection_truthy. cbn [layers].
  destruct ls as [|l ls]; [inversion Hl; congruence|].
  eexists _, _. split; [reflexivity | exact Hl].
Qed.

End IndicatorFacts.

Lemma find_layers_years_witness :
  exists found st',
    _find_layers posixpath sample_glob "out/NPP_*.tif" (sample_indicator [])
    = (inr found, st') /\
    Forall2 (layer_from posixpath) ["out/NPP_2001.tif"; "out/NPP_2002.tif"]%string
            (layers found).
Proof.
  apply (find_layers_years posixpath sample_glob "out/NPP_*.tif" (sample_indicator [])).
  - discriminate.
  - repeat constructor; vm_compute; eauto.
Defined.

Section IndicatorBuild.

Variable os : os_path.
Variable glob : string -> list string.
Variable blend : LayerCollection -> LayerCollection -> BlendMode -> exn + LayerCollection.

Lemma find_layers_empty pattern st :
  glob pattern = [] ->
  _find_layers os glob pattern st =
  (inl (IOError (no_output_message pattern)),
   mkIndicatorState (this st) (trace st ++ [EvLayerCollection; EvGlob pattern])).
Proof. intros H. rewrite find_layers_eq, H. reflexivity. Qed.

Lemma find_layers_outcome pattern st :
  snd (_find_layers os glob pattern st) =
  mkIndicatorState (this st) (trace st ++ [EvLayerCollection; EvGlob pattern]) /\
  forall found, fst (_find_layers os glob pattern st) = inr found ->
                collection_truthy found = true.
Proof.
  rewrite find_layers_eq. cbv zeta.
  match goal with
  | |- context [wrap_layers os ?ps ?f ?s] =>
      destruct (wrap_layers os ps f s) as [[e|found] s2]
  end; [split; [reflexivity | discriminate]|].
  destruct (collection_truthy found) eqn:Ht; cbn; split; try reflexivity;
    intros f Hf; inversion Hf; subst; auto.
Qed.

Lemma blends_found_refl t : blends_found t t.
Proof. intros c f m H. auto. Qed.

Lemma blends_found_trans t1 t2 t3 :
  blends_found t1 t2 -> blends_found t2 t3 -> blends_found t1 t3.
Proof.
  intros H12 H23 c f m H. destruct (H23 c f m H) as [H2|Ht]; auto.
Qed.

Lemma blends_found_quiet t es :
  (forall c f m, ~ In (EvBlend c f m) es) -> blends_found t (t ++ es).
Proof.
  intros Hes c f m H. apply in_app_or in H as [H|H]; [auto|].
  exfalso. eapply Hes; eauto.
Qed.

Lemma blends_found_blend t c f m :
  collection_truthy f = true -> blends_found t (t ++ [EvBlend c f m]).
Proof.
  intros Ht c' f' m' H. apply in_app_or in H as [H|[H|[]]]; [auto|].
  inversion H; subst. auto.
Qed.

(** One turn of the loop of [_init], spelled out. *)
Lemma blend_patterns_cons pattern blend_mode rest st :
  blend_patterns os glob blend ((pattern, blend_mode) :: rest) st =
  match _find_layers os glob pattern st with
  | (inl e, st1) => (inl e, st1)
  | (inr found, st1) =>
      match _composite_layers (this st1) with
      | None => (inl AttributeError, st1)
      | Some composite =>
          let st2 := mkIndicatorState (this st1)
                       (trace st1 ++ [EvBlend composite found blend_mode]) in
          match blend composite found blend_mode with
          | inl e => (inl e, st2)
          | inr blended =>
              blend_patterns os glob blend rest
                (snd (set_composite_layers (Some blended) st2))
          end
      end
  end.
Proof.
  cbn [blend_patterns]. unfold bind at 1.
  destruct (_find_layers os glob pattern st) as [[e|found] st1]; [reflexivity|].
  unfold bind at 1, gets at 1.
  destruct (_composite_layers (this st1)) as [composite|]; [|reflexivity].
  unfold bind at 1, emit at 1, modify at 1. unfold bind at 1.
  destruct (blend composite found blend_mode); reflexivity.
Qed.

Lemma blend_patterns_blends items :
  forall st, blends_found (trace st) (trace (snd (blend_patterns os glob blend items st))).
Proof.
  induction items as [|[pattern blend_mode] rest IH]; intros st.
  - apply blends_found_refl.
  - rewrite blend_patterns_cons.
    destruct (find_layers_outcome pattern st) as [Hs Ht].
    assert (Hq : blends_found (trace st)
                   (trace st ++ [EvLayerCollection; EvGlob pattern])).
    { apply blends_found_quiet. intros c f m [H|[H|[]]]; discriminate. }
    destruct (_find_layers os glob pattern st) as [[e|found] st1];
      cbn [fst snd] in Hs, Ht; subst st1; cbn [trace this]; [exact Hq|].
    destruct (_composite_layers (this st)) as [composite|]; [|exact Hq].
    cbv zeta. cbn [this trace].
    assert (Hb : blends_found (trace st)
                   ((trace st ++ [EvLayerCollection; EvGlob pattern])
                      ++ [EvBlend composite found blend_mode])).
    { eapply blends_found_trans; [exact Hq|]. apply blends_found_blend. auto. }
    destruct (blend composite found blend_mode) as [e|blended]; [exact Hb|].
    eapply blends_found_trans; [exact Hb|].
    match goal with
    | |- blends_found _ (trace (snd (blend_patterns _ _ _ _ ?s))) => exact (IH s)
    end.
Qed.

Lemma blend_patterns_app pre rest : forall st st2,
  blend_patterns os glob blend pre st = (inr tt, st2) ->
  blend_patterns os glob blend (pre ++ rest) st = blend_patterns os glob blend rest st2.
Proof.
  induction pre as [|[pattern blend_mode] pre IH]; intros st st2 H.
  - inversion H; subst. reflexivity.
  - rewrite <- app_comm_cons. rewrite blend_patterns_cons in H |- *.
    destruct (_find_layers os glob pattern st) as [[e|found] st1]; [discriminate|].
    destruct (_composite_layers (this st1)) as [composite|]; [|discriminate].
    cbv zeta in H |- *.
    destruct (blend composite found blend_mode) as [e|blended]; [discriminate|].
    apply IH. exact H.
Qed.

Lemma blend_patterns_fails items pattern blend_mode :
  In (pattern, blend_mode) items -> glob pattern = [] ->
  forall st, exists e, fst (blend_patterns os glob blend items st) = inl e.
Proof.
  intros Hin Hg. induction items as [|[q mq] rest IH]; intros st; [destruct Hin|].
  rewrite blend_patterns_cons. destruct Hin as [Heq|Hin].
  - inversion Heq; subst. rewrite (find_layers_empty _ _ Hg). eauto.
  - destruct (_find_layers os glob q st) as [[e|found] st1]; [eauto|].
    destruct (_composite_layers (this st1)) as [composite|]; [|eauto].
    cbv zeta. destruct (blend composite found mq) as [e|blended]; [eauto|].
    apply (IH Hin).
Qed.

Lemma init_eq st :
  _init os glob blend st =
  if composite_truthy (_composite_layers (this st)) then (inr tt, st)
  else
    match blend_patterns os glob blend (_patterns (this st)) (begin_build st) with
    | (inl e, st1) => (inl e, st1)
    | (inr _, st1) =>
        match _composite_layers (this st1) with
        | None => (inl AttributeError, st1)
        | Some composite =>
            let per_ha := bool_decide (_map_units (this st1) = TcPerHa) in
            (inr tt,
             snd (set_results_provider
                    (Some (mkResultsProvider (layers composite) per_ha))
                    (mkIndicatorState (this st1)
                       (trace st1 ++ [EvResultsProvider (layers composite) per_ha]))))
        end
    end.
Proof.
  unfold _init. unfold bind at 1, gets at 1.
  destruct (composite_truthy (_composite_layers (this st))); cbn [negb]; [reflexivity|].
  unfold bind at 1, new_LayerCollection, bind at 1, emit, modify, ret.
  unfold bind at 1, set_composite_layers, modify. unfold bind at 1.
  cbn [this trace]. change (mkIndicatorState _ (trace st ++ [EvLayerCollection]))
    with (begin_build st).
  destruct (blend_patterns os glob blend (_patterns (this st)) (begin_build st))
    as [[e|[]] st1]; [reflexivity|].
  unfold bind at 1, gets at 1.
  destruct (_composite_layers (this st1)); reflexivity.
Qed.

(** Once the composite holds a layer, [_init] does nothing. *)
Lemma init_memoized st :
  composite_truthy (_composite_layers (this st)) = true ->
  _init os glob blend st = (inr tt, st).
Proof. intros H. rewrite init_eq, H. reflexivity. Qed.

(** C6, amended: while the composite is being built, a pattern that
    matches no file makes [_init] raise; when the patterns before it went
    through, the exception is the [IOError] that names it, raised right
    after its discovery, with the blends of the earlier patterns done and
    none attempted for it or for a later pattern; and no blend [_init]
    ever attempts takes an empty discovery. *)
Theorem init_rejects_empty_discovery st :
  composite_truthy (_composite_layers (this st)) = false ->
  (forall pattern blend_mode,
      In (pattern, blend_mode) (_patterns (this st)) -> glob pattern = [] ->
      exists e, fst (_init os glob blend st) = inl e) /\
  (forall pre pattern blend_mode post st2,
      _patterns (this st) = pre ++ (pattern, blend_mode) :: post ->
      glob pattern = [] ->
      blend_patterns os glob blend pre (begin_build st) = (inr tt, st2) ->
      _init os glob blend st =
      (inl (IOError (no_output_message pattern)),
       mkIndicatorState (this st2)
                        (trace st2 ++ [EvLayerCollection; EvGlob pattern]))) /\
  blends_found (trace st) (trace (snd (_init os glob blend st))).
Proof.
  intros Hf. rewrite init_eq, Hf. split; [|split].
  - intros pattern blend_mode Hin Hg.
    destruct (blend_patterns_fails _ _ _ Hin Hg (begin_build st)) as (e & He).
    destruct (blend_patterns os glob blend (_patterns (this st)) (begin_build st))
      as [[e'|u] st1]; cbn in He; [eauto | discriminate].
  - intros pre pattern blend_mode post st2 Hp Hg Hpre.
    rewrite Hp, (blend_patterns_app _ _ _ _ Hpre), blend_patterns_cons.
    rewrite (find_layers_empty _ _ Hg). reflexivity.
  - pose proof (blend_patterns_blends (_patterns (this st)) (begin_build st)) as Hb.
    assert (H0 : blends_found (trace st) (trace (begin_build st))).
    { apply blends_found_quiet. intros c f m [H|[]]; discriminate. }
    destruct (blend_patterns os glob blend (_patterns (this st)) (begin_build st))
      as [[e|u] st1]; cbn [snd] in Hb |- *;
      [eapply blends_found_trans; eauto|].
    destruct (_composite_layers (this st1)) as [composite|]; cbn [snd];
      [|eapply blends_found_trans; eauto].
    cbn. eapply blends_found_trans; [exact H0|].
    eapply blends_found_trans; [exact Hb|].
    apply blends_found_quiet. intros c f m [H|[]]; discriminate.
Qed.

End IndicatorBuild.

Lemma init_rejects_empty_discovery_witness :
  let st := sample_indicator [("out/NPP_*.tif"%string, Add); ("out/X_*.tif"%string, Subtract)] in
  (exists e, fst (_init posixpath sample_glob sample_blend st) = inl e) /\
  (exists st2,
      _init posixpath sample_glob sample_blend st =
      (inl (IOError "No spatial output found for pattern: out/X_*.tif"),
       mkIndicatorState (this st2)
                        (trace st2 ++ [EvLayerCollection; EvGlob "out/X_*.tif"]))) /\
  blends_found (trace st) (trace (snd (_init posixpath sample_glob sample_blend st))).
Proof.
  cbv zeta.
  destruct (init_rejects_empty_discovery posixpath sample_glob sample_blend
              (sample_indicator [("out/NPP_*.tif"%string, Add);
                                 ("out/X_*.tif"%string, Subtract)]) eq_refl)
    as (Hfail & Hprecise & Hblends).
  split; [|split].
  - apply (Hfail "out/X_*.tif"%string Subtract); [right; left; reflexivity | reflexivity].
  - eexists.
    apply (Hprecise [("out/NPP_*.tif"%string, Add)] "out/X_*.tif"%string Subtract []);
      [reflexivity | reflexivity | vm_compute; reflexivity].
  - exact Hblends.
Defined.

(** C6 as stated, refuted: with a first pattern that matches two files and a
    second that matches none, the [IOError] for the second is raised after
    the blend of the first has been attempted. *)
Lemma init_blends_before_rejecting :
  ~ (forall os glob blend st pattern blend_mode,
        composite_truthy (_composite_layers (this st)) = false ->
        In (pattern, blend_mode) (_patterns (this st)) ->
        glob pattern = [] ->
        exists st',
          _init os glob blend st = (inl (IOError (no_output_message pattern)), st') /\
          forall composite found mode,
            In (EvBlend composite found mode) (trace st') ->
            In (EvBlend composite found mode) (trace st)).
Proof.
  intros Hclaim.
  destruct (Hclaim posixpath sample_glob sample_blend
              (sample_indicator [("out/NPP_*.tif"%string, Add);
                                 ("out/X_*.tif"%string, Subtract)])
              "out/X_*.tif"%string Subtract eq_refl
              (or_intror (or_introl eq_refl)) eq_refl) as (st' & Hrun & Hnone).
  vm_compute in Hrun. inversion Hrun; subst st'. clear Hrun.
  eapply Hnone. cbn [trace]. do 3 right. left. reflexivity.
Qed.

Section IndicatorRender.

Variable os : os_path.
Variable glob : string -> list string.
Variable blend : LayerCollection -> LayerCollection -> BlendMode -> exn + LayerCollection.
Variables Frames kwargs : Type.
Variable simulation_years : ResultsProvider -> exn + Z * Z.
Variable render : LayerCollection -> option BoundingBox -> Z -> Z -> exn + Frames.
Variable plot_render :
  string -> option ResultsProvider -> Units -> kwargs -> exn + Frames.

(** X14: with a composite that holds a layer, neither render method builds
    anything: the indicator and the trace of its calls stay as they
    are. *)
Lemma render_reuses_composite st bounding_box options :
  composite_truthy (_composite_layers (this st)) = true ->
  snd (render_map_frames os glob blend Frames simulation_years render bounding_box st)
  = st /\
  snd (render_graph_frames os glob blend Frames kwargs plot_render options st) = st.
Proof.
  intros Ht. unfold render_map_frames, render_graph_frames. split.
  - rewrite (bind_ok _ _ _ _ _ (init_memoized os glob blend st Ht)).
    unfold bind at 1, gets at 1.
    destruct (_results_provider (this st)) as [p|]; [|reflexivity].
    destruct (_composite_layers (this st)) as [c|]; [|reflexivity].
    unfold bind. destruct (simulation_years p) as [e|[y1 y2]]; [reflexivity|].
    cbn. apply lift_state.
  - rewrite (bind_ok _ _ _ _ _ (init_memoized os glob blend st Ht)).
    unfold bind, gets. apply lift_state.
Qed.

(** C5: an indicator over an empty mapping of patterns builds a composite
    that holds no layer, which [_init] takes for not built: the second
    call creates the collection and the results provider again. *)
Theorem init_rebuilds_empty_composite indicator title graph_units map_units
    palette background_color options :
  let st0 := mkIndicatorState
               (CompositeIndicator_init indicator [] title graph_units map_units
                                        palette background_color) [] in
  let st1 := snd (render_graph_frames os glob blend Frames kwargs plot_render
                                      options st0) in
  let st2 := snd (render_graph_frames os glob blend Frames kwargs plot_render
                                      options st1) in
  let per_ha := bool_decide (map_units = TcPerHa) in
  fst (_init os glob blend st0) = inr tt /\
  trace st1 = [EvLayerCollection; EvResultsProvider [] per_ha] /\
  trace st2 = [EvLayerCollection; EvResultsProvider [] per_ha;
               EvLayerCollection; EvResultsProvider [] per_ha].
Proof.
  cbv zeta. split; [reflexivity|].
  unfold render_graph_frames, bind, gets. cbn.
  destruct (plot_render indicator _ graph_units options) as [e|f]; cbn;
    (split; [reflexivity|]);
    destruct (plot_render indicator _ graph_units options) as [e'|f']; reflexivity.
Qed.

End IndicatorRender.

(** * The bounding box: further properties *)

(** ** The row scan on any raster *)

Lemma data_at_row_data nodata d i j :
  data_at nodata d i j <-> row_data nodata (band d) i j.
Proof.
  unfold data_at, row_data, pixel. split.
  - intros (v & H & Hv). destruct (band d !! i) as [row|]; [|discriminate]. eauto.
  - intros (row & v & -> & H & Hv). eauto.
Qed.

Lemma row_data_lt nodata rs i j : row_data nodata rs i j -> (i < length rs)%nat.
Proof. intros (row & v & Hr & _). eapply lookup_lt_Some. exact Hr. Qed.

Lemma np_where_ne_In nodata row x :
  In x (np_where_ne row nodata) <->
  exists (j : nat) v, x = Z.of_nat j /\ row !! j = Some v /\ np_ne v nodata = true.
Proof. unfold np_where_ne. rewrite np_where_ne_from_In. reflexivity. Qed.

(** The loop of [min_pixel_bounds] keeps what each of its passes keeps. *)
Lemma scan_fold_invariant (P : nat -> Z * Z * Z * Z -> Prop) nodata rest :
  forall pre acc,
    (forall (n : nat) row a, (pre ++ rest) !! n = Some row -> P n a ->
                             P (S n) (scan_row nodata (Z.of_nat n) row a)) ->
    P (length pre) acc ->
    P (length (pre ++ rest)) (scan_fold nodata (Z.of_nat (length pre)) rest acc).
Proof.
  induction rest as [|row rest IH]; intros pre acc Hstep H0.
  - rewrite app_nil_r. exact H0.
  - cbn [scan_fold].
    replace (pre ++ row :: rest) with ((pre ++ [row]) ++ rest) in *
      by (rewrite <- app_assoc; reflexivity).
    replace (Z.of_nat (length pre) + 1) with (Z.of_nat (length (pre ++ [row])))
      by (rewrite length_app; cbn; lia).
    apply IH; [exact Hstep|].
    rewrite length_app. cbn [length]. rewrite Nat.add_1_r.
    apply Hstep; [|exact H0].
    rewrite <- app_assoc. cbn. apply list_lookup_middle. reflexivity.
Qed.

(** One pass of the loop: the row has no data and nothing changes, or its
    data have a least and a greatest column and the four numbers move. *)
Lemma scan_row_cases nodata i row x_min x_max y_min y_max :
  (np_where_ne row nodata = [] /\
   scan_row nodata i row (x_min, x_max, y_min, y_max) = (x_min, x_max, y_min, y_max)) \/
  (exists m M,
     In m (np_where_ne row nodata) /\ In M (np_where_ne row nodata) /\
     (forall x, In x (np_where_ne row nodata) -> m <= x <= M) /\
     scan_row nodata i row (x_min, x_max, y_min, y_max)
     = (Z.min m x_min, Z.max M x_max, (if y_min =? 0 then i else y_min), i)).
Proof.
  unfold scan_row. destruct (np_where_ne row nodata) as [|a l] eqn:E.
  - left. split; reflexivity.
  - right. rewrite <- E.
    assert (Hne : np_where_ne row nodata <> []) by (rewrite E; discriminate).
    destruct (np_min_spec _ Hne) as (Hm & Hmall).
    destruct (np_max_spec _ Hne) as (HM & HMall).
    exists (np_min (np_where_ne row nodata)), (np_max (np_where_ne row nodata)).
    split; [exact Hm|]. split; [exact HM|]. split; [intros x Hx; split; auto|].
    replace (length (np_where_ne row nodata) =? 0)%nat with false
      by (symmetry; apply Nat.eqb_neq; rewrite E; cbn; lia).
    cbv zeta. rewrite Z.gtb_ltb.
    destruct (Z.ltb_spec (np_min (np_where_ne row nodata)) x_min);
      destruct (Z.ltb_spec x_max (np_max (np_where_ne row nodata)));
      repeat f_equal; lia.
Qed.

Lemma scan_row_encloses nodata rs (n : nat) row acc :
  rs !! n = Some row -> scan_encloses nodata rs n acc ->
  scan_encloses nodata rs (S n) (scan_row nodata (Z.of_nat n) row acc).
Proof.
  intros Hrow. destruct acc as [[[x_min x_max] y_min] y_max].
  intros (Hy & HyM & Hin).
  destruct (scan_row_cases nodata (Z.of_nat n) row x_min x_max y_min y_max)
    as [[Hnone ->]|(m & M & Hm & HM & Hall & ->)].
  - split; [exact Hy|]. split; [lia|]. intros i j Hi Hd.
    destruct (decide (i = n)) as [->|Hne]; [|apply Hin; [lia | exact Hd]].
    destruct Hd as (row' & v & Hr & Hj & Hv).
    assert (row' = row) by congruence. subst row'.
    assert (Hx : In (Z.of_nat j) (np_where_ne row nodata))
      by (apply np_where_ne_In; eauto).
    rewrite Hnone in Hx. destruct Hx.
  - cbn [scan_encloses].
    split; [destruct (Z.eqb_spec y_min 0); lia|]. split; [lia|].
    intros i j Hi Hd. destruct (decide (i = n)) as [->|Hne].
    + destruct Hd as (row' & v & Hr & Hj & Hv).
      assert (row' = row) by congruence. subst row'.
      assert (Hx : In (Z.of_nat j) (np_where_ne row nodata))
        by (apply np_where_ne_In; eauto).
      specialize (Hall _ Hx).
      split; [lia|]. split; [lia|].
      destruct (Z.eqb_spec y_min 0); lia.
    + destruct (Hin i j) as (Hx & Hi' & Hy'); [lia | exact Hd |].
      split; [lia|]. split; [lia|].
      destruct Hy' as [->|Hy']; [left; reflexivity | right].
      destruct (Z.eqb_spec y_min 0); lia.
Qed.

Lemma scan_row_touches nodata W rs (n : nat) row acc :
  rs !! n = Some row -> (length row <= W)%nat ->
  scan_touches nodata W rs n acc ->
  scan_touches nodata W rs (S n) (scan_row nodata (Z.of_nat n) row acc).
Proof.
  intros Hrow Hlen. destruct acc as [[[x_min x_max] y_min] y_max]. intros Ht.
  assert (Hcol : forall x, In x (np_where_ne row nodata) ->
            exists j : nat, x = Z.of_nat j /\ (j < W)%nat /\ row_data nodata rs n j).
  { intros x Hx. apply np_where_ne_In in Hx as (j & v & -> & Hj & Hv).
    exists j. split; [reflexivity|]. split.
    - apply lookup_lt_Some in Hj. lia.
    - exists row, v. auto. }
  destruct (scan_row_cases nodata (Z.of_nat n) row x_min x_max y_min y_max)
    as [[Hnone ->]|(m & M & Hm & HM & Hall & ->)].
  - cbn [scan_touches] in *. destruct Ht as [[Hno ->]|Ht]; [left | right; exact Ht].
    split; [|reflexivity]. intros i j Hi Hd.
    destruct (decide (i = n)) as [->|Hne]; [|apply (Hno i j); [lia | exact Hd]].
    destruct Hd as (row' & v & Hr & Hj & Hv).
    assert (row' = row) by congruence. subst row'.
    assert (Hx : In (Z.of_nat j) (np_where_ne row nodata))
      by (apply np_where_ne_In; eauto).
    rewrite Hnone in Hx. destruct Hx.
  - destruct (Hcol _ Hm) as (jm & -> & Hjm & Hdm).
    destruct (Hcol _ HM) as (jM & -> & HjM & HdM).
    cbn [scan_touches] in *. right.
    destruct Ht as [[Hno E]|(Hxm & HxM & Hym & HyM)].
    + inversion E; subst. cbn [Z.eqb].
      split; [exists n, jm; split; [exact Hdm | lia]|].
      split; [exists n, jM; split; [exact HdM | lia]|].
      split; exists n, jm; split; auto.
    + split.
      { destruct (Z.min_spec (Z.of_nat jm) x_min) as [[_ ->]|[_ ->]];
          [exists n, jm; auto | exact Hxm]. }
      split.
      { destruct (Z.max_spec (Z.of_nat jM) x_max) as [[_ ->]|[_ ->]];
          [exact HxM | exists n, jM; auto]. }
      split.
      { destruct (Z.eqb_spec y_min 0); [exists n, jm; auto | exact Hym]. }
      exists n, jm. auto.
Qed.

Lemma pixel_box_encloses nodata d :
  scan_encloses nodata (band d) (length (band d))
    (scan_fold nodata 0 (band d) (Z.of_nat (RasterXSize d), 0, 0, 0)).
Proof.
  apply (scan_fold_invariant (scan_encloses nodata (band d)) nodata (band d) []).
  - intros n row a Hrow. apply scan_row_encloses. exact Hrow.
  - cbn. split; [lia|]. split; [lia|]. intros i j Hi. lia.
Qed.

Lemma pixel_box_touches nodata d :
  Forall (fun row => length row = RasterXSize d) (band d) ->
  scan_touches nodata (RasterXSize d) (band d) (length (band d))
    (scan_fold nodata 0 (band d) (Z.of_nat (RasterXSize d), 0, 0, 0)).
Proof.
  intros Hgrid.
  apply (scan_fold_invariant (scan_touches nodata (RasterXSize d) (band d))
           nodata (band d) []).
  - intros n row a Hrow. apply scan_row_touches; [exact Hrow|].
    rewrite Forall_forall in Hgrid. rewrite (Hgrid row); [lia|].
    eapply list_elem_of_lookup_2. exact Hrow.
  - cbn. left. split; [|reflexivity]. intros i j Hi. lia.
Qed.

(** X2: whatever the shape of the data, the box [[x_lo, x_hi, y_lo, y_hi]]
    the first read of [min_pixel_bounds] returns has every data pixel in a
    column strictly between [x_lo] and [x_hi] and in a row strictly before
    [y_hi]; the row is strictly after [y_lo] too, unless it is row 0. *)
Theorem min_pixel_bounds_encloses self s b d nodata :
  bbox_at s self = Some b ->
  truthy (_min_pixel_bounds b) = false ->
  fs s !! _path (base b) = Some d ->
  nodata_of s (OBoundingBox b) = Some nodata ->
  exists x_lo x_hi y_lo y_hi s1,
    min_pixel_bounds self s = (inr (Some [x_lo; x_hi; y_lo; y_hi]), s1) /\
    forall i j, data_at nodata d i j ->
      x_lo < Z.of_nat j < x_hi /\ Z.of_nat i < y_hi /\
      (i = 0%nat \/ y_lo < Z.of_nat i).
Proof.
  intros Hb Ht Hd Hn.
  destruct (min_pixel_bounds_computes _ _ _ _ _ Hb Ht Hd Hn) as (s1 & H).
  pose proof (pixel_box_encloses nodata d) as He. unfold pixel_box in H.
  destruct (scan_fold nodata 0 (band d) (Z.of_nat (RasterXSize d), 0, 0, 0))
    as [[[x_min x_max] y_min] y_max].
  destruct He as (_ & _ & He).
  exists (x_min - 1), (x_max + 1), (y_min - 1), (y_max + 1), s1.
  split; [exact H|]. intros i j Hdata. apply data_at_row_data in Hdata.
  destruct (He i j (row_data_lt _ _ _ _ Hdata) Hdata) as (Hx & Hy & Hy').
  split; [lia|]. split; [lia|]. destruct Hy'; [left; assumption | right; lia].
Qed.

Lemma min_pixel_bounds_encloses_witness :
  exists x_lo x_hi y_lo y_hi s1,
    min_pixel_bounds 0%nat demo_state = (inr (Some [x_lo; x_hi; y_lo; y_hi]), s1) /\
    forall i j, data_at (of_int 0) demo_bbox_raster i j ->
      x_lo < Z.of_nat j < x_hi /\ Z.of_nat i < y_hi /\
      (i = 0%nat \/ y_lo < Z.of_nat i).
Proof.
  apply (min_pixel_bounds_encloses 0%nat demo_state demo_bbox demo_bbox_raster
           (of_int 0)).
  - reflexivity.
  - reflexivity.
  - vm_compute. reflexivity.
  - vm_compute. reflexivity.
Defined.

(** X3: on a raster with a data pixel, whose rows all have the raster's
    width, each side of the box [[x_lo, x_hi, y_lo, y_hi]] the first read of
    [min_pixel_bounds] returns is next to a data pixel: there is one in
    column [x_lo + 1], one in column [x_hi - 1], one in row [y_lo + 1] and
    one in row [y_hi - 1]; so the bounds are at least two apart on either
    axis. *)
Theorem min_pixel_bounds_touches self s b d nodata i0 j0 :
  bbox_at s self = Some b ->
  truthy (_min_pixel_bounds b) = false ->
  fs s !! _path (base b) = Some d ->
  nodata_of s (OBoundingBox b) = Some nodata ->
  Forall (fun row => length row = RasterXSize d) (band d) ->
  data_at nodata d i0 j0 ->
  exists x_lo x_hi y_lo y_hi s1,
    min_pixel_bounds self s = (inr (Some [x_lo; x_hi; y_lo; y_hi]), s1) /\
    (exists i j, data_at nodata d i j /\ Z.of_nat j = x_lo + 1) /\
    (exists i j, data_at nodata d i j /\ Z.of_nat j = x_hi - 1) /\
    (exists i j, data_at nodata d i j /\ Z.of_nat i = y_lo + 1) /\
    (exists i j, data_at nodata d i j /\ Z.of_nat i = y_hi - 1) /\
    x_lo + 2 <= x_hi /\ y_lo + 2 <= y_hi.
Proof.
  intros Hb Ht Hd Hn Hgrid Hdata.
  destruct (min_pixel_bounds_computes _ _ _ _ _ Hb Ht Hd Hn) as (s1 & H).
  pose proof (pixel_box_touches nodata d Hgrid) as Htouch.
  pose proof (pixel_box_encloses nodata d) as He.
  unfold pixel_box in H.
  destruct (scan_fold nodata 0 (band d) (Z.of_nat (RasterXSize d), 0, 0, 0))
    as [[[x_min x_max] y_min] y_max].
  apply data_at_row_data in Hdata.
  destruct Htouch as [[Hno _]|(Hxm & HxM & Hym & HyM)].
  { exfalso. apply (Hno i0 j0); [eapply row_data_lt; exact Hdata | exact Hdata]. }
  destruct He as (Hy & _ & He).
  destruct (He i0 j0 (row_data_lt _ _ _ _ Hdata) Hdata) as (Hx & _).
  exists (x_min - 1), (x_max + 1), (y_min - 1), (y_max + 1), s1.
  split; [exact H|].
  assert (Hdat : forall P : nat -> nat -> Prop,
             (exists i j, row_data nodata (band d) i j /\ P i j) ->
             exists i j, data_at nodata d i j /\ P i j).
  { intros P (i & j & Hr & HP). exists i, j.
    split; [apply data_at_row_data; exact Hr | exact HP]. }
  split; [apply Hdat; destruct Hxm as (i & j & Hr & E); exists i, j; split; [exact Hr | lia]|].
  split; [apply Hdat; destruct HxM as (i & j & Hr & E); exists i, j; split; [exact Hr | lia]|].
  split; [apply Hdat; destruct Hym as (i & j & Hr & E); exists i, j; split; [exact Hr | lia]|].
  split; [apply Hdat; destruct HyM as (i & j & Hr & E); exists i, j; split; [exact Hr | lia]|].
  lia.
Qed.

Lemma min_pixel_bounds_touches_witness :
  exists x_lo x_hi y_lo y_hi s1,
    min_pixel_bounds 0%nat demo_state = (inr (Some [x_lo; x_hi; y_lo; y_hi]), s1) /\
    (exists i j, data_at (of_int 0) demo_bbox_raster i j /\ Z.of_nat j = x_lo + 1) /\
    (exists i j, data_at (of_int 0) demo_bbox_raster i j /\ Z.of_nat j = x_hi - 1) /\
    (exists i j, data_at (of_int 0) demo_bbox_raster i j /\ Z.of_nat i = y_lo + 1) /\
    (exists i j, data_at (of_int 0) demo_bbox_raster i j /\ Z.of_nat i = y_hi - 1) /\
    x_lo + 2 <= x_hi /\ y_lo + 2 <= y_hi.
Proof.
  apply (min_pixel_bounds_touches 0%nat demo_state demo_bbox demo_bbox_raster
           (of_int 0) 1%nat 1%nat).
  - reflexivity.
  - reflexivity.
  - vm_compute. reflexivity.
  - vm_compute. reflexivity.
  - repeat constructor.
  - exists (of_int 1). split; reflexivity.
Defined.

Lemma min_pixel_bounds_rectangle_witness :
  exists s1, min_pixel_bounds 0%nat offset_state = (inr (Some [1; 4; 1; 4]), s1).
Proof.
  apply (min_pixel_bounds_rectangle 0%nat offset_state demo_bbox offset_raster
           (of_int 0) 2%nat 3%nat 2%nat 3%nat).
  - reflexivity.
  - reflexivity.
  - vm_compute. reflexivity.
  - vm_compute. reflexivity.
  - cbn. lia.
  - cbn. lia.
  - repeat constructor.
  - intros i j v H.
    do 5 (destruct i as [|i];
          [do 5 (destruct j as [|j];
                 [inversion H; subst; split;
                  [intros E; lia || discriminate E
                  | intros; reflexivity || (exfalso; lia)]|]);
           destruct j; discriminate|]).
    destruct i; discriminate.
Defined.

(** ** Reads that raise, and what a read leaves alone *)

Lemma scan_rows_returns self s b d i acc :
  bbox_at s self = Some b -> fs s !! _path (base b) = Some d ->
  forall rs, exists a s1, scan_rows self i rs acc s = (inr a, s1).
Proof.
  intros Hb Hd rs. rewrite scan_rows_eq. destruct rs as [|row rest]; [eauto|].
  rewrite nodata_value_eq. apply bbox_at_Some in Hb. rewrite Hb. cbn [layer_of].
  destruct (_nodata_value (base b)); [eauto|]. rewrite Hd. eauto.
Qed.

Lemma min_pixel_bounds_raises self s e s1 :
  min_pixel_bounds self s = (inl e, s1) ->
  s1 = s /\ e = AttributeError /\
  forall b, bbox_at s self = Some b ->
            truthy (_min_pixel_bounds b) = false /\ fs s !! _path (base b) = None.
Proof.
  rewrite min_pixel_bounds_eq.
  destruct (bbox_at s self) as [b|] eqn:Hb.
  2:{ intros H; inversion H; subst. split; [reflexivity|]. split; [reflexivity|].
      discriminate. }
  destruct (truthy (_min_pixel_bounds b)) eqn:Ht; [discriminate|].
  destruct (fs s !! _path (base b)) as [d|] eqn:Hd.
  2:{ intros H; inversion H; subst. split; [reflexivity|]. split; [reflexivity|].
      intros b' Hb'; inversion Hb'; subst; auto. }
  destruct (scan_rows_returns self s b d 0 (Z.of_nat (RasterXSize d), 0, 0, 0)
              Hb Hd (band d)) as (a & s2 & Hs).
  rewrite Hs.
  destruct (scan_rows_bbox _ self _ _ _ _ _ _ _ Hs Hb) as (_ & b2 & Hb2 & _).
  rewrite Hb2. discriminate.
Qed.

Lemma min_geographic_bounds_raises self s e s1 :
  min_geographic_bounds self s = (inl e, s1) -> s1 = s.
Proof.
  rewrite min_geographic_bounds_eq.
  destruct (bbox_at s self) as [b|] eqn:Hb; [|intros H; inversion H; reflexivity].
  destruct (truthy (_min_geographic_bounds b)) eqn:Hg; [discriminate|].
  destruct (min_pixel_bounds self s) as [[e'|pb] sm] eqn:Hpx.
  { apply min_pixel_bounds_raises in Hpx as (-> & _). intros H; inversion H; reflexivity. }
  pose proof Hpx as Hpx'. rewrite min_pixel_bounds_eq, Hb in Hpx'.
  destruct (truthy (_min_pixel_bounds b)) eqn:Hp.
  - inversion Hpx'; subst pb sm.
    destruct (unpack4 (_min_pixel_bounds b) s) as [[e'|[[[x0 x1] y0] y1]] s2] eqn:Hu;
      pose proof (unpack4_state (_min_pixel_bounds b) s) as Hs2; rewrite Hu in Hs2;
      cbn [snd] in Hs2; subst s2; [intros H; inversion H; reflexivity|].
    rewrite Hb. destruct (fs s !! _path (base b)); [discriminate|].
    intros H; inversion H; reflexivity.
  - destruct (fs s !! _path (base b)) as [d|] eqn:Hd; [|discriminate].
    destruct (scan_rows self 0 (band d) (Z.of_nat (RasterXSize d), 0, 0, 0) s)
      as [[e'|acc] s2] eqn:Hs; [discriminate|].
    destruct (scan_rows_bbox _ self _ _ _ _ _ _ _ Hs Hb)
      as (Hc & b2 & Hb2 & _ & _ & _ & Hp2).
    rewrite Hb2 in Hpx'. inversion Hpx'; subst pb sm. clear Hpx'.
    destruct acc as [[[x_min x_max] y_min] y_max]. cbn [box_of unpack4 ret].
    erewrite bbox_at_put_eq by exact Hb2. cbn [set_pixel_bounds base].
    cbn [put_obj fs]. destruct Hc as (-> & _). rewrite Hp2, Hd. discriminate.
Qed.

(** X4: a read of [min_pixel_bounds] or of [min_geographic_bounds] that
    raises leaves everything as it was: no cache is filled, no object and
    no file is touched. *)
Theorem bounds_failure_keeps_state self s e s1 :
  min_pixel_bounds self s = (inl e, s1) \/ min_geographic_bounds self s = (inl e, s1) ->
  s1 = s.
Proof.
  intros [H|H].
  - apply min_pixel_bounds_raises in H as (-> & _). reflexivity.
  - apply min_geographic_bounds_raises in H. exact H.
Qed.

Lemma bounds_failure_keeps_state_witness :
  snd (min_pixel_bounds 0%nat missing_state) = missing_state.
Proof.
  apply (bounds_failure_keeps_state 0%nat missing_state AttributeError).
  left. vm_compute. reflexivity.
Defined.

(** X5: the read of [min_pixel_bounds] on a bounding box raises exactly
    when no pixel bounds are cached and the box's raster cannot be opened;
    no raster that can be opened makes it raise, an empty one or one
    without data included. *)
Theorem min_pixel_bounds_raises_iff self s b :
  bbox_at s self = Some b ->
  (exists e, fst (min_pixel_bounds self s) = inl e) <->
  truthy (_min_pixel_bounds b) = false /\ fs s !! _path (base b) = None.
Proof.
  intros Hb. split.
  - intros (e & He). destruct (min_pixel_bounds self s) as [r s1] eqn:H.
    cbn [fst] in He. subst r.
    apply min_pixel_bounds_raises in H as (_ & _ & H). apply H. exact Hb.
  - intros (Ht & Hd). rewrite min_pixel_bounds_eq, Hb, Ht, Hd. eauto.
Qed.

Lemma min_pixel_bounds_raises_iff_witness :
  (exists e, fst (min_pixel_bounds 0%nat missing_state) = inl e) <->
  truthy (_min_pixel_bounds demo_bbox) = false /\
  fs missing_state !! _path (base demo_bbox) = None.
Proof.
  apply (min_pixel_bounds_raises_iff 0%nat missing_state demo_bbox). reflexivity.
Defined.

Lemma caches_only_plain s s1 :
  caches_only s s1 ->
  fs s1 = fs s /\ next_tmp s1 = next_tmp s /\ length (heap s1) = length (heap s) /\
  forall (l : nat) o, heap s !! l = Some o ->
    exists o', heap s1 !! l = Some o' /\
               _path (layer_of o') = _path (layer_of o) /\
               _year (layer_of o') = _year (layer_of o) /\
               _interpretation (layer_of o') = _interpretation (layer_of o) /\
               flag_of o' = flag_of o.
Proof.
  intros (Hfs & Hn & Hlen & Hh). split; [exact Hfs|]. split; [exact Hn|].
  split; [exact Hlen|]. intros l o Hl.
  destruct (Hh l o Hl) as (o' & Ho' & He & Hp & Hf).
  apply object_evolves_layer_static in He as (Hy & Hi & _).
  exists o'. auto 6.
Qed.

(** X6: a read of [min_pixel_bounds] or of [min_geographic_bounds],
    whether it returns or raises, writes no file, asks for no temporary
    name, and creates, removes and moves no object: every object keeps its
    path, its year, its interpretation and its initialisation flag. *)
Theorem bounds_reads_fill_caches_only self s s1 :
  s1 = snd (min_pixel_bounds self s) \/ s1 = snd (min_geographic_bounds self s) ->
  fs s1 = fs s /\ next_tmp s1 = next_tmp s /\ length (heap s1) = length (heap s) /\
  forall (l : nat) o, heap s !! l = Some o ->
    exists o', heap s1 !! l = Some o' /\
               _path (layer_of o') = _path (layer_of o) /\
               _year (layer_of o') = _year (layer_of o) /\
               _interpretation (layer_of o') = _interpretation (layer_of o) /\
               flag_of o' = flag_of o.
Proof.
  intros [->| ->]; apply caches_only_plain;
    [apply min_pixel_bounds_caches_only | apply min_geographic_bounds_caches_only].
Qed.

Lemma bounds_reads_fill_caches_only_witness :
  let s1 := snd (min_geographic_bounds 0%nat demo_state) in
  fs s1 = fs demo_state /\ next_tmp s1 = next_tmp demo_state /\
  length (heap s1) = length (heap demo_state) /\
  forall (l : nat) o, heap demo_state !! l = Some o ->
    exists o', heap s1 !! l = Some o' /\
               _path (layer_of o') = _path (layer_of o) /\
               _year (layer_of o') = _year (layer_of o) /\
               _interpretation (layer_of o') = _interpretation (layer_of o) /\
               flag_of o' = flag_of o.
Proof.
  cbv zeta. apply (bounds_reads_fill_caches_only 0%nat demo_state). right. reflexivity.
Defined.

(** X7: on a box without cached geographic bounds, reading
    [min_pixel_bounds] first changes nothing to what
    [min_geographic_bounds] then returns and to the state it leaves. *)
Theorem geographic_bounds_after_pixel_bounds self s b :
  bbox_at s self = Some b ->
  truthy (_min_geographic_bounds b) = false ->
  min_geographic_bounds self (snd (min_pixel_bounds self s))
  = min_geographic_bounds self s.
Proof.
  intros Hb Hg.
  destruct (min_pixel_bounds self s) as [[e|pb] sm] eqn:Hpx; cbn [snd].
  - apply min_pixel_bounds_raises in Hpx as (-> & _). reflexivity.
  - destruct (min_pixel_bounds_keeps self self s b Hb) as (bm & Hbm & Hgm & _).
    rewrite Hpx in Hbm. cbn [snd] in Hbm.
    destruct (min_pixel_bounds_ok _ _ _ _ Hpx) as (Ht & bm' & Hbm' & Hpm).
    assert (bm' = bm) by congruence. subst bm'.
    rewrite (min_geographic_bounds_eq self s), Hb, Hg, Hpx.
    rewrite (min_geographic_bounds_eq self sm), Hbm, Hgm, Hg.
    rewrite (min_pixel_bounds_cached _ _ _ Hbm) by congruence.
    rewrite Hpm. reflexivity.
Qed.

Lemma geographic_bounds_after_pixel_bounds_witness :
  min_geographic_bounds 0%nat (snd (min_pixel_bounds 0%nat demo_state))
  = min_geographic_bounds 0%nat demo_state.
Proof.
  apply (geographic_bounds_after_pixel_bounds 0%nat demo_state demo_bbox);
    reflexivity.
Defined.

(** ** The window of a new box *)

(** First access to both properties on a box whose file can be opened. *)
Lemma min_geographic_bounds_computes self s b d nodata x_min x_max y_min y_max :
  bbox_at s self = Some b ->
  truthy (_min_pixel_bounds b) = false ->
  truthy (_min_geographic_bounds b) = false ->
  fs s !! _path (base b) = Some d ->
  nodata_of s (OBoundingBox b) = Some nodata ->
  pixel_box nodata d = [x_min; x_max; y_min; y_max] ->
  exists s1,
    min_geographic_bounds self s
    = (inr (Some (affine (GeoTransform d) x_min x_max y_min y_max)), s1) /\
    min_pixel_bounds self s1 = (inr (Some [x_min; x_max; y_min; y_max]), s1).
Proof.
  intros Hb Hp Hg Hd Hn Hbox.
  destruct (min_pixel_bounds_computes _ _ _ _ _ Hb Hp Hd Hn) as (sm & Hpx).
  pose proof (min_pixel_bounds_caches_only self s) as Hc. rewrite Hpx in Hc.
  cbn [snd] in Hc.
  destruct (min_pixel_bounds_ok _ _ _ _ Hpx) as (_ & bm & Hbm & Hpm).
  destruct (caches_only_bbox _ _ _ _ Hc Hb) as (bm' & Hbm' & _ & Hpath & _).
  assert (bm' = bm) by congruence. subst bm'.
  destruct Hc as (Hfs & _).
  rewrite min_geographic_bounds_eq, Hb, Hg, Hpx, Hbox. cbn [unpack4 ret].
  rewrite Hbm, Hfs, Hpath, Hd. cbv zeta. eexists. split; [reflexivity|].
  erewrite min_pixel_bounds_cached;
    [|eapply bbox_at_put_eq; exact Hbm | cbn; rewrite Hpm, Hbox; reflexivity].
  cbn. rewrite Hpm, Hbox. reflexivity.
Qed.

Lemma BoundingBox_init_eq p s :
  BoundingBox_init p s =
  (inr (length (heap s)),
   mkState (fs s) (next_tmp s)
     (heap s ++ [OBoundingBox (mkBoundingBox (mkLayer p (Some 0) None None)
                                             None None false)])).
Proof. reflexivity. Qed.

(** X8: a box just built by [BoundingBox(path)] on a raster that can be
    opened is a new object.  Its [min_geographic_bounds] returns the
    corners, under the raster's transform computed in binary64, of the
    pixel box [[x_lo, x_hi, y_lo, y_hi]] that [min_pixel_bounds] returns
    from then on, and that pixel box has, for every pixel other than the
    raster's no-data value, [x_lo] at least one column before the pixel,
    [x_hi] at least one column after it, [y_hi] at least one row after
    it, and [y_lo] at least one row before it unless the pixel is in row
    0: a data pixel in row 0 need not be inside the box. *)
Theorem new_box_window_covers_data p s d :
  fs s !! p = Some d ->
  exists self s0 x_lo x_hi y_lo y_hi s1,
    BoundingBox_init p s = (inr self, s0) /\
    heap s !! self = None /\
    min_geographic_bounds self s0
    = (inr (Some (affine (GeoTransform d) x_lo x_hi y_lo y_hi)), s1) /\
    min_pixel_bounds self s1 = (inr (Some [x_lo; x_hi; y_lo; y_hi]), s1) /\
    forall i j v, pixel d i j = Some v -> np_ne v (NoDataValue d) = true ->
      x_lo <= Z.of_nat j - 1 /\ Z.of_nat j + 1 <= x_hi /\
      Z.of_nat i + 1 <= y_hi /\
      (i <> 0%nat -> y_lo <= Z.of_nat i - 1).
Proof.
  intros Hd. rewrite BoundingBox_init_eq.
  set (fresh := mkBoundingBox (mkLayer p (Some 0) None None) None None false).
  set (s0 := mkState (fs s) (next_tmp s) (heap s ++ [OBoundingBox fresh])).
  assert (Hb : bbox_at s0 (length (heap s)) = Some fresh).
  { apply bbox_at_Some. cbn. apply list_lookup_middle. reflexivity. }
  pose proof (pixel_box_encloses (NoDataValue d) d) as He.
  destruct (scan_fold (NoDataValue d) 0 (band d) (Z.of_nat (RasterXSize d), 0, 0, 0))
    as [[[x_min x_max] y_min] y_max] eqn:Hscan.
  destruct (min_geographic_bounds_computes (length (heap s)) s0 fresh d (NoDataValue d)
              (x_min - 1) (x_max + 1) (y_min - 1) (y_max + 1) Hb eq_refl eq_refl Hd)
    as (s1 & H & Hpx).
  { unfold nodata_of. cbn. rewrite Hd. reflexivity. }
  { unfold pixel_box. rewrite Hscan. reflexivity. }
  exists (length (heap s)), s0, (x_min - 1), (x_max + 1), (y_min - 1), (y_max + 1), s1.
  split; [reflexivity|]. split; [apply lookup_ge_None; lia|]. split; [exact H|].
  split; [exact Hpx|].
  intros i j v Hv Hne.
  assert (Hdata : row_data (NoDataValue d) (band d) i j)
    by (apply data_at_row_data; exists v; auto).
  destruct He as (_ & _ & He).
  destruct (He i j (row_data_lt _ _ _ _ Hdata) Hdata) as (Hx & Hy & Hy').
  split; [lia|]. split; [lia|]. split; [lia|].
  intros Hi. destruct Hy'; [contradiction | lia].
Qed.

Lemma new_box_window_covers_data_witness :
  exists self s0 x_lo x_hi y_lo y_hi s1,
    BoundingBox_init (UserPath "bbox.tif") demo_state = (inr self, s0) /\
    heap demo_state !! self = None /\
    min_geographic_bounds self s0
    = (inr (Some (affine (GeoTransform demo_bbox_raster) x_lo x_hi y_lo y_hi)), s1) /\
    min_pixel_bounds self s1 = (inr (Some [x_lo; x_hi; y_lo; y_hi]), s1) /\
    forall i j v, pixel demo_bbox_raster i j = Some v ->
      np_ne v (NoDataValue demo_bbox_raster) = true ->
      x_lo <= Z.of_nat j - 1 /\ Z.of_nat j + 1 <= x_hi /\
      Z.of_nat i + 1 <= y_hi /\
      (i <> 0%nat -> y_lo <= Z.of_nat i - 1).
Proof.
  apply (new_box_window_covers_data (UserPath "bbox.tif") demo_state demo_bbox_raster).
  vm_compute. reflexivity.
Defined.

(** ** More on [crop] *)

Section CropFurther.

Variable w : Dataset -> option (list float) -> exn + Dataset.

(** X9: no sequence of calls on the objects of the heap, [crop] included
    and whether the calls return or raise, changes or removes a file that
    was there before under a caller's name or under a temporary name
    already handed out. *)
Theorem calls_keep_existing_files cs s p :
  old_path s p -> fs (run w cs s) !! p = fs s !! p.
Proof.
  intros Hp. destruct (run_evolves w cs s) as (_ & Hfs & _). apply Hfs. exact Hp.
Qed.

(** X10: what a successful [crop] returns stays: whatever calls follow,
    the returned layer is still there with its path, year and
    interpretation, and the raster written for it is still the file at its
    path. *)
Theorem crop_result_stable self layer s out s1 cs :
  crop w self layer s = (inr out, s1) ->
  exists lout lout' O,
    heap s1 !! out = Some (OLayer lout) /\
    fs s1 !! _path lout = Some O /\
    heap (run w cs s1) !! out = Some (OLayer lout') /\
    _path lout' = _path lout /\ _year lout' = _year lout /\
    _interpretation lout' = _interpretation lout /\
    fs (run w cs s1) !! _path lout = Some O.
Proof.
  intros H. destruct (crop_ok w _ _ _ _ _ H) as (b & sm & _ & _ & Hl).
  destruct (crop_layer_ok w _ _ _ _ _ Hl)
    as (ol & bs' & dl & A & B & nb & nl & _ & _ & _ & _ & _ & _ & _ & _ & _ & _
        & Hnew & _ & Hnt & Hfs).
  pose proof (run_evolves w cs s1) as (_ & Hkeep & Hobj).
  destruct (Hobj _ _ Hnew) as ([lout'|b'] & Hout' & Hev); [|contradiction].
  destruct Hev as ((Hy & Hi & _) & Hp).
  eexists _, lout', _. split; [exact Hnew|]. cbn [_path] in *.
  split; [rewrite Hfs; apply lookup_insert_eq|].
  split; [exact Hout'|]. split; [exact Hp|]. split; [exact Hy|]. split; [exact Hi|].
  rewrite Hkeep; [rewrite Hfs; apply lookup_insert_eq|].
  cbn. rewrite Hnt. lia.
Qed.

(** X12: [crop] returns only if it could open both rasters: the one of
    the box and, for a layer that is not the box at its first [crop], the
    one of the layer.  With either missing, it raises. *)
Theorem crop_needs_both_rasters self layer s b ol out s1 :
  bbox_at s self = Some b ->
  heap s !! layer = Some ol ->
  old_path s (_path (base b)) ->
  old_path s (_path (layer_of ol)) ->
  layer <> self \/ _initialized b = true ->
  crop w self layer s = (inr out, s1) ->
  is_Some (fs s !! _path (base b)) /\ is_Some (fs s !! _path (layer_of ol)).
Proof.
  intros Hb Hol Hbold Hold Halias H.
  destruct (crop_ok w _ _ _ _ _ H) as (b' & sm & Hb' & Hsm & Hl).
  assert (b' = b) by congruence. subst b'.
  destruct (crop_layer_ok w _ _ _ _ _ Hl)
    as (olm & bs' & dl & A & B & nb & nl & Holm & Hdl & Hbs' & _ & HB & _).
  destruct (_initialized b) eqn:Hi.
  - subst sm. assert (olm = ol) by congruence. subst olm. split; [|eauto].
    pose proof (crop_layer_quiet w self layer s) as [_ Hk].
    rewrite Hl in Hk. cbn [snd] in Hk.
    destruct (Hk _ _ (proj1 (bbox_at_Some _ _ _) Hb)) as (o' & Ho' & Hp' & _).
    assert (o' = OBoundingBox bs') by (apply bbox_at_Some in Hbs'; congruence).
    subst o'. cbn [layer_of] in Hp'. rewrite Hp' in HB.
    rewrite (old_name_lookup (next_tmp s)) in HB; [eauto | exact Hbold | lia].
  - destruct Halias as [Hne|?]; [|discriminate].
    destruct (self_crop_spec w _ _ _ _ _ Hb Hi Hsm)
      as ((_ & Hfs & _) & Hk & bm & _ & _ & _ & _ & _ & d & Hd & _).
    split; [eauto|].
    destruct (Hk _ _ Hne Hol) as (olm' & Holm' & Hp & _).
    assert (olm' = olm) by congruence. subst olm'.
    rewrite Hp, Hfs in Hdl by exact Hold. eauto.
Qed.


(** X11: a successful [crop] of a layer other than the box asks for two
    temporary names, after one more for the box itself at its first
    [crop].  Under the first it leaves the layer's raster windowed to the
    bounds [min_geographic_bounds] returns; the returned layer is on the
    second, the last name handed out.  The raster of the returned layer
    has the width, the height and the geotransform of that window, and
    declares the no-data value of the input layer, which is what the
    returned layer's own [nodata_value] then reads. *)
Theorem crop_output_shape self layer s b ol out s1 :
  bbox_at s self = Some b -> heap s !! layer = Some ol -> layer <> self ->
  old_path s (_path (base b)) -> old_path s (_path (layer_of ol)) ->
  crop w self layer s = (inr out, s1) ->
  exists lout dl g A O nl (k : nat),
    k = (next_tmp s + (if _initialized b then 0 else 1))%nat /\
    next_tmp s1 = S (S k) /\
    heap s1 !! out = Some (OLayer lout) /\ _path lout = TmpPath (S k) /\
    fs s !! _path (layer_of ol) = Some dl /\
    min_geographic_bounds self s1 = (inr g, s1) /\
    w dl g = inr A /\
    fs s1 !! TmpPath k = Some A /\ fs s1 !! TmpPath (S k) = Some O /\
    RasterXSize O = RasterXSize A /\ length (band O) = length (band A) /\
    GeoTransform O = GeoTransform A /\
    nodata_value layer s1 = (inr nl, s1) /\ NoDataValue O = nl /\
    fst (nodata_value out s1) = inr nl.
Proof.
  intros Hb Hol Hne Hbold Hold H.
  destruct (crop_ok w _ _ _ _ _ H) as (b' & sm0 & Hb' & Hsm0 & Hl0).
  assert (b' = b) by congruence. subst b'.
  assert (Hk : next_tmp sm0 = (next_tmp s + (if _initialized b then 0 else 1))%nat).
  { destruct (_initialized b) eqn:Hi; [subst sm0; lia|].
    destruct (self_crop_spec w _ _ _ _ _ Hb Hi Hsm0) as (_ & _ & bm & _ & _ & _ & Hn & _).
    lia. }
  assert (Hfs0 : fs sm0 !! _path (layer_of ol) = fs s !! _path (layer_of ol)).
  { destruct (_initialized b) eqn:Hi; [subst sm0; reflexivity|].
    destruct (self_crop_spec w _ _ _ _ _ Hb Hi Hsm0) as ((_ & Hfs & _) & _).
    apply Hfs. exact Hold. }
  assert (Holm0 : exists olm, heap sm0 !! layer = Some olm /\
                              _path (layer_of olm) = _path (layer_of ol)).
  { destruct (_initialized b) eqn:Hi; [subst sm0; eauto|].
    destruct (self_crop_spec w _ _ _ _ _ Hb Hi Hsm0) as (_ & Hkeep & _).
    destruct (Hkeep _ _ Hne Hol) as (olm & Holm & Hp & _). eauto. }
  destruct Holm0 as (olm & Holm & Hpolm).
  destruct (crop_layer_ok w _ _ _ _ _ Hl0)
    as (olm' & bs' & dl & A & B & nb & nl & Holm' & Hdl & Hbs' & HA & _ & _ & Hnl & _
        & Hlen & _ & Hnew & _ & Hnt & Hfs).
  assert (olm' = olm) by congruence. subst olm'.
  destruct (crop_layer_geo w _ _ _ _ _ Hl0) as (bs'' & Hbs'' & Hgeo).
  assert (bs'' = bs') by congruence. subst bs''.
  eexists _, dl, (_min_geographic_bounds bs'), A, _, nl, (next_tmp sm0).
  split; [exact Hk|]. split; [exact Hnt|].
  split; [exact Hnew|]. cbn [_path]. split; [reflexivity|].
  split; [rewrite <- Hfs0, <- Hpolm; exact Hdl|].
  split; [apply min_geographic_bounds_cached; assumption|].
  split; [exact HA|].
  split.
  { rewrite Hfs, lookup_insert_ne by (intros E; inversion E; lia).
    apply lookup_insert_eq. }
  split; [rewrite Hfs; apply lookup_insert_eq|].
  cbn [RasterXSize band GeoTransform NoDataValue].
  split; [reflexivity|].
  split; [rewrite length_zip_with; lia|].
  split; [reflexivity|]. split; [exact Hnl|]. split; [reflexivity|].
  rewrite nodata_value_eq, Hnew. cbn [layer_of _nodata_value _path].
  rewrite Hfs, lookup_insert_eq. reflexivity.
Qed.




End CropFurther.

Lemma calls_keep_existing_files_witness :
  fs (run window_by_pixels demo_calls demo_state) !! UserPath "bbox.tif"
  = fs demo_state !! UserPath "bbox.tif".
Proof.
  apply (calls_keep_existing_files window_by_pixels demo_calls demo_state
           (UserPath "bbox.tif")).
  exact I.
Defined.

Lemma crop_result_stable_witness :
  let s1 := snd (crop window_by_pixels 0%nat 1%nat demo_state) in
  exists lout lout' O,
    heap s1 !! 2%nat = Some (OLayer lout) /\
    fs s1 !! _path lout = Some O /\
    heap (run window_by_pixels demo_calls s1) !! 2%nat = Some (OLayer lout') /\
    _path lout' = _path lout /\ _year lout' = _year lout /\
    _interpretation lout' = _interpretation lout /\
    fs (run window_by_pixels demo_calls s1) !! _path lout = Some O.
Proof.
  cbv zeta.
  apply (crop_result_stable window_by_pixels 0%nat 1%nat demo_state 2%nat).
  vm_compute. reflexivity.
Defined.

Lemma crop_output_shape_witness :
  let s1 := snd (crop window_by_pixels 0%nat 1%nat demo_state) in
  exists lout dl g A O nl (k : nat),
    k = (next_tmp demo_state + (if _initialized demo_bbox then 0 else 1))%nat /\
    next_tmp s1 = S (S k) /\
    heap s1 !! 2%nat = Some (OLayer lout) /\ _path lout = TmpPath (S k) /\
    fs demo_state !! UserPath "npp_2001.tif" = Some dl /\
    min_geographic_bounds 0%nat s1 = (inr g, s1) /\
    window_by_pixels dl g = inr A /\
    fs s1 !! TmpPath k = Some A /\ fs s1 !! TmpPath (S k) = Some O /\
    RasterXSize O = RasterXSize A /\ length (band O) = length (band A) /\
    GeoTransform O = GeoTransform A /\
    nodata_value 1%nat s1 = (inr nl, s1) /\ NoDataValue O = nl /\
    fst (nodata_value 2%nat s1) = inr nl.
Proof.
  cbv zeta.
  apply (crop_output_shape window_by_pixels 0%nat 1%nat demo_state demo_bbox
           (OLayer demo_layer) 2%nat).
  - reflexivity.
  - reflexivity.
  - discriminate.
  - exact I.
  - exact I.
  - vm_compute. reflexivity.
Defined.

Lemma crop_needs_both_rasters_witness :
  is_Some (fs demo_state !! UserPath "bbox.tif") /\
  is_Some (fs demo_state !! UserPath "npp_2001.tif").
Proof.
  apply (crop_needs_both_rasters window_by_pixels 0%nat 1%nat demo_state demo_bbox
           (OLayer demo_layer) 2%nat
           (snd (crop window_by_pixels 0%nat 1%nat demo_state))).
  - reflexivity.
  - reflexivity.
  - exact I.
  - exact I.
  - left. discriminate.
  - vm_compute. reflexivity.
Defined.


(** * The composite indicator: further properties *)

Lemma same_settings_refl i : same_settings i i.
Proof. unfold same_settings. auto 8. Qed.

Section IndicatorFold.

Variable os : os_path.
Variable glob : string -> list string.
Variable blend : LayerCollection -> LayerCollection -> BlendMode -> exn + LayerCollection.

Lemma wrap_layers_fst paths : forall found (st st' : indicator_state),
  fst (wrap_layers os paths found st) = fst (wrap_layers os paths found st').
Proof.
  induction paths as [|p rest IH]; intros found st st'; cbn [wrap_layers]; [reflexivity|].
  unfold bind.
  destruct (Layer_init (UserPath p) (PyStr (last4 (fst (splitext os p)))) None);
    cbn [lift raise ret]; [reflexivity | apply IH].
Qed.

(** What a pattern discovers depends on the indicator through its palette
    and background colour only. *)
Lemma find_layers_fst pattern st st' :
  _palette (this st') = _palette (this st) ->
  _background_color (this st') = _background_color (this st) ->
  fst (_find_layers os glob pattern st') = fst (_find_layers os glob pattern st).
Proof.
  intros Hp Hc. rewrite !find_layers_eq. cbv zeta. rewrite Hp, Hc.
  match goal with
  | |- fst (match wrap_layers os ?ps ?f ?s1 with _ => _ end)
       = fst (match wrap_layers os ?ps ?f ?s2 with _ => _ end) =>
      pose proof (wrap_layers_fst ps f s1 s2) as E;
      destruct (wrap_layers os ps f s1) as [[e1|f1] t1];
      destruct (wrap_layers os ps f s2) as [[e2|f2] t2];
      cbn [fst] in E; inversion E; subst
  end; [reflexivity|].
  destruct (collection_truthy f2); reflexivity.
Qed.

Lemma fold_blend_step_raised discover items e :
  fold_left (blend_step discover blend) items (inl e) = inl e.
Proof. induction items as [|item items IH]; [reflexivity | exact IH]. Qed.

(** The loop of [_init] is the fold of [blend_step]; of the indicator it
    changes the composite and nothing else. *)
Lemma blend_patterns_fold st0 items : forall st composite,
  _composite_layers (this st) = Some composite ->
  same_settings (this st0) (this st) ->
  same_settings (this st0) (this (snd (blend_patterns os glob blend items st))) /\
  _results_provider (this (snd (blend_patterns os glob blend items st)))
  = _results_provider (this st) /\
  is_Some (_composite_layers (this (snd (blend_patterns os glob blend items st)))) /\
  match fold_left (blend_step (fun p => fst (_find_layers os glob p st0)) blend)
                  items (inr composite) with
  | inl e => fst (blend_patterns os glob blend items st) = inl e
  | inr final =>
      fst (blend_patterns os glob blend items st) = inr tt /\
      _composite_layers (this (snd (blend_patterns os glob blend items st))) = Some final
  end.
Proof.
  induction items as [|[pattern blend_mode] rest IH]; intros st composite Hc Hs.
  - cbn. rewrite Hc. eauto.
  - rewrite blend_patterns_cons. cbn [fold_left blend_step fst snd].
    destruct (find_layers_outcome os glob pattern st) as [Hst _].
    assert (Hf : fst (_find_layers os glob pattern st)
                 = fst (_find_layers os glob pattern st0)).
    { apply find_layers_fst; apply Hs. }
    rewrite <- Hf.
    destruct (_find_layers os glob pattern st) as [[e|found] st1];
      cbn [fst snd] in Hst |- *; subst st1; cbn [this].
    { rewrite fold_blend_step_raised, Hc. eauto. }
    rewrite Hc. cbv zeta.
    destruct (blend composite found blend_mode) as [e|blended]; cbn [fst snd this].
    { rewrite fold_blend_step_raised, Hc. eauto. }
    match goal with
    | |- context [blend_patterns os glob blend rest ?s] =>
        destruct (IH s blended) as (Hs' & Hp' & Hc' & Hfold)
    end.
    { reflexivity. }
    { exact Hs. }
    split; [exact Hs'|]. split; [exact Hp'|]. split; [exact Hc'|]. exact Hfold.
Qed.

(** [_init] on an indicator whose composite is not built, when the fold of
    its patterns goes through. *)
Lemma init_builds st composite :
  composite_truthy (_composite_layers (this st)) = false ->
  fold_left (blend_step (fun p => fst (_find_layers os glob p st)) blend)
    (_patterns (this st))
    (inr (LayerCollection_init (_palette (this st)) (_background_color (this st))))
  = inr composite ->
  exists st',
    _init os glob blend st = (inr tt, st') /\
    same_settings (this st) (this st') /\
    _composite_layers (this st') = Some composite /\
    _results_provider (this st')
    = Some (mkResultsProvider (layers composite)
              (bool_decide (_map_units (this st) = TcPerHa))).
Proof.
  intros Hf Hfold. rewrite init_eq, Hf.
  destruct (blend_patterns_fold st (_patterns (this st)) (begin_build st)
              (LayerCollection_init (_palette (this st)) (_background_color (this st)))
              eq_refl) as (Hs & _ & _ & H).
  { unfold same_settings. cbn. auto 8. }
  change (_patterns (this (begin_build st))) with (_patterns (this st)) in *.
  rewrite Hfold in H. destruct H as [Hok Hc].
  destruct (blend_patterns os glob blend (_patterns (this st)) (begin_build st))
    as [[e'|u] st1]; cbn [fst snd] in *; [discriminate|].
  rewrite Hc. cbv zeta. eexists. split; [reflexivity|].
  destruct Hs as (H1 & H2 & H3 & H4 & H5 & H6 & H7).
  cbn. rewrite H5. unfold same_settings. cbn. auto 10.
Qed.

(** X15: [_init] on an indicator whose composite is not built folds the
    mapping of patterns from the left, in its order, starting from an
    empty collection with the indicator's palette and background colour:
    each pattern's discovery is blended into the composite so far in that
    pattern's mode.  If a discovery or a blend raises, [_init] raises the
    same exception; otherwise it returns, the composite is the result of
    the fold, the results provider is built from that composite's layers
    and is per hectare exactly when the map units are [Units.TcPerHa], and
    no other attribute of the indicator has changed. *)
Theorem init_folds_patterns st :
  composite_truthy (_composite_layers (this st)) = false ->
  match fold_left (blend_step (fun p => fst (_find_layers os glob p st)) blend)
          (_patterns (this st))
          (inr (LayerCollection_init (_palette (this st))
                                     (_background_color (this st)))) with
  | inl e => fst (_init os glob blend st) = inl e
  | inr composite =>
      exists st',
        _init os glob blend st = (inr tt, st') /\
        same_settings (this st) (this st') /\
        _composite_layers (this st') = Some composite /\
        _results_provider (this st')
        = Some (mkResultsProvider (layers composite)
                  (bool_decide (_map_units (this st) = TcPerHa)))
  end.
Proof.
  intros Hf.
  destruct (fold_left _ (_patterns (this st)) _) as [e|composite] eqn:Hfold.
  - rewrite init_eq, Hf.
    destruct (blend_patterns_fold st (_patterns (this st)) (begin_build st)
                (LayerCollection_init (_palette (this st)) (_background_color (this st)))
                eq_refl) as (_ & _ & _ & H).
    { unfold same_settings. cbn. auto 8. }
    change (_patterns (this (begin_build st))) with (_patterns (this st)) in *.
    rewrite Hfold in H.
    destruct (blend_patterns os glob blend (_patterns (this st)) (begin_build st))
      as [[e'|u] st1]; cbn [fst] in H; [exact H | discriminate].
  - apply init_builds; assumption.
Qed.

Lemma calls_app t1 t2 : calls (t1 ++ t2) = calls t1 ++ calls t2.
Proof. unfold calls. apply omap_app. Qed.

(** The calls of the loop of [_init], exactly: all the planned ones when
    no discovery and no blend raises, and otherwise the planned ones up to
    and including the first that raises. *)
Lemma blend_patterns_calls st0 items : forall st composite,
  _composite_layers (this st) = Some composite ->
  same_settings (this st0) (this st) ->
  (fst (blend_patterns os glob blend items st) = inr tt /\
   calls (trace (snd (blend_patterns os glob blend items st)))
   = calls (trace st) ++ planned items) \/
  (exists pre pattern blend_mode post e c,
     items = pre ++ (pattern, blend_mode) :: post /\
     fst (blend_patterns os glob blend items st) = inl e /\
     fold_left (blend_step (fun p => fst (_find_layers os glob p st0)) blend)
               pre (inr composite) = inr c /\
     ((fst (_find_layers os glob pattern st0) = inl e /\
       calls (trace (snd (blend_patterns os glob blend items st)))
       = calls (trace st) ++ planned pre ++ [inl pattern]) \/
      (exists found,
         fst (_find_layers os glob pattern st0) = inr found /\
         blend c found blend_mode = inl e /\
         calls (trace (snd (blend_patterns os glob blend items st)))
         = calls (trace st) ++ planned pre ++ [inl pattern; inr blend_mode]))).
Proof.
  induction items as [|[pattern blend_mode] rest IH]; intros st composite Hc Hs.
  - left. cbn. rewrite app_nil_r. auto.
  - rewrite blend_patterns_cons.
    destruct (find_layers_outcome os glob pattern st) as [Hst _].
    assert (Hf : fst (_find_layers os glob pattern st)
                 = fst (_find_layers os glob pattern st0)).
    { apply find_layers_fst; apply Hs. }
    destruct (_find_layers os glob pattern st) as [[e|found] st1];
      cbn [fst snd] in Hst, Hf |- *; subst st1; cbn [this trace].
    { right. exists [], pattern, blend_mode, rest, e, composite.
      split; [reflexivity|]. split; [reflexivity|]. split; [reflexivity|].
      left. split; [auto|]. rewrite calls_app. reflexivity. }
    rewrite Hc. cbv zeta.
    destruct (blend composite found blend_mode) as [e|blended] eqn:Hblend;
      cbn [fst snd trace].
    { right. exists [], pattern, blend_mode, rest, e, composite.
      split; [reflexivity|]. split; [reflexivity|]. split; [reflexivity|].
      right. exists found. split; [auto|]. split; [exact Hblend|].
      rewrite !calls_app, <- app_assoc. reflexivity. }
    match goal with
    | |- context [blend_patterns os glob blend rest ?s] =>
        destruct (IH s blended) as [[Hok Hcalls]|Hraise];
          [reflexivity | exact Hs | |];
          assert (Hpre : calls (trace s)
                         = calls (trace st) ++ [inl pattern; inr blend_mode])
            by (cbn [set_composite_layers modify snd trace];
                rewrite !calls_app, <- app_assoc; reflexivity)
    end.
    + left. split; [exact Hok|]. rewrite Hcalls, Hpre, <- app_assoc. reflexivity.
    + destruct Hraise as (pre & q & mq & post & e & c & Hitems & Hfail & Hfold & Hlast).
      right. exists ((pattern, blend_mode) :: pre), q, mq, post, e, c.
      split; [rewrite Hitems; reflexivity|]. split; [exact Hfail|].
      split.
      { cbn [fold_left blend_step fst snd]. rewrite <- Hf, Hblend. exact Hfold. }
      destruct Hlast as [[Hq Hcalls]|(f & Hq & Hb & Hcalls)].
      * left. split; [exact Hq|]. rewrite Hcalls, Hpre, <- app_assoc. reflexivity.
      * right. exists f. split; [exact Hq|]. split; [exact Hb|].
        rewrite Hcalls, Hpre, <- app_assoc. reflexivity.
Qed.

(** X16: the [glob] and [blend] calls [_init] makes while it builds the
    composite.  If it returns, they are the planned ones, all of them in
    order: the first pattern globbed, a blend in the first pattern's mode,
    the second pattern globbed, a blend in its mode, and so on through the
    mapping.  If it raises, there is a first pattern whose discovery or
    whose blend raises, the patterns before it having been blended into
    the composite one after the other; [_init] raises that exception, and
    the calls it has made are the planned ones of the patterns before it,
    then the glob of that pattern and, if it was the blend that raised,
    that blend: no call is made after the one that raises. *)
Theorem init_call_order st :
  composite_truthy (_composite_layers (this st)) = false ->
  let discover := fun p => fst (_find_layers os glob p st) in
  let empty := LayerCollection_init (_palette (this st)) (_background_color (this st)) in
  let made := calls (trace (snd (_init os glob blend st))) in
  (fst (_init os glob blend st) = inr tt /\
   made = calls (trace st) ++ planned (_patterns (this st))) \/
  (exists pre pattern blend_mode post e c,
     _patterns (this st) = pre ++ (pattern, blend_mode) :: post /\
     fst (_init os glob blend st) = inl e /\
     fold_left (blend_step discover blend) pre (inr empty) = inr c /\
     ((discover pattern = inl e /\
       made = calls (trace st) ++ planned pre ++ [inl pattern]) \/
      (exists found,
         discover pattern = inr found /\
         blend c found blend_mode = inl e /\
         made = calls (trace st) ++ planned pre ++ [inl pattern; inr blend_mode]))).
Proof.
  intros Hf. cbv zeta. rewrite init_eq, Hf.
  assert (Hsame : same_settings (this st) (this (begin_build st)))
    by (unfold same_settings; cbn; auto 8).
  destruct (blend_patterns_fold st (_patterns (this st)) (begin_build st)
              (LayerCollection_init (_palette (this st)) (_background_color (this st)))
              eq_refl Hsame) as (_ & _ & [c1 Hc1] & _).
  destruct (blend_patterns_calls st (_patterns (this st)) (begin_build st)
              (LayerCollection_init (_palette (this st)) (_background_color (this st)))
              eq_refl Hsame) as [[Hok Hcalls]|Hraise].
  - left.
    assert (Hb : calls (trace (begin_build st)) = calls (trace st))
      by (cbn; rewrite calls_app; apply app_nil_r).
    rewrite Hb in Hcalls.
    change (_patterns (this (begin_build st))) with (_patterns (this st)) in *.
    destruct (blend_patterns os glob blend (_patterns (this st)) (begin_build st))
      as [[e|u] st1]; cbn [fst snd] in *; [discriminate|].
    rewrite Hc1. cbn. split; [reflexivity|].
    rewrite calls_app, Hcalls. apply app_nil_r.
  - right.
    destruct Hraise as (pre & q & mq & post & e & c & Hitems & Hfail & Hfold & Hlast).
    assert (Hb : calls (trace (begin_build st)) = calls (trace st))
      by (cbn; rewrite calls_app; apply app_nil_r).
    rewrite Hb in Hlast.
    change (_patterns (this (begin_build st))) with (_patterns (this st)) in *.
    exists pre, q, mq, post, e, c.
    destruct (blend_patterns os glob blend (_patterns (this st)) (begin_build st))
      as [[e'|u] st1]; cbn [fst snd] in *; [|discriminate].
    inversion Hfail; subst e'.
    split; [exact Hitems|]. split; [reflexivity|]. split; [exact Hfold|]. exact Hlast.
Qed.

(** An [_init] that raises leaves the results provider and the settings
    of the indicator as they were. *)
Lemma init_raises_provider st e st1 :
  _init os glob blend st = (inl e, st1) ->
  _results_provider (this st1) = _results_provider (this st) /\
  same_settings (this st) (this st1).
Proof.
  rewrite init_eq.
  destruct (composite_truthy (_composite_layers (this st))); [discriminate|].
  destruct (blend_patterns_fold st (_patterns (this st)) (begin_build st)
              (LayerCollection_init (_palette (this st)) (_background_color (this st)))
              eq_refl) as (Hs & Hp & Hc & _).
  { unfold same_settings. cbn. auto 8. }
  change (_patterns (this (begin_build st))) with (_patterns (this st)) in *.
  destruct (blend_patterns os glob blend (_patterns (this st)) (begin_build st))
    as [[e'|u] st2]; cbn [snd] in *.
  - intros H; inversion H; subst. split; [exact Hp | exact Hs].
  - destruct Hc as [c Hc]. rewrite Hc. discriminate.
Qed.

Lemma Layer_init_path p year interpretation l :
  Layer_init p year interpretation = inr l -> _path l = p.
Proof.
  unfold Layer_init. destruct year as [|z|y].
  - intros H; inversion H; reflexivity.
  - cbn. intros H; inversion H; reflexivity.
  - destruct (py_int (PyStr y)); intros H; inversion H; reflexivity.
Qed.

Lemma wrap_layers_paths paths : forall found st found' st',
  wrap_layers os paths found st = (inr found', st') ->
  palette found' = palette found /\
  background_color found' = background_color found /\
  map _path (layers found') = map _path (layers found) ++ map UserPath paths.
Proof.
  induction paths as [|p rest IH]; intros found st found' st' H; cbn [wrap_layers] in H.
  - inversion H; subst. rewrite app_nil_r. auto.
  - apply bind_inv_ok in H as (layer & s1 & Hl & H).
    destruct (Layer_init (UserPath p) (PyStr (last4 (fst (splitext os p)))) None)
      as [e|l] eqn:E; cbn [lift raise ret] in Hl; inversion Hl; subst.
    apply Layer_init_path in E.
    destruct (IH _ _ _ _ H) as (Hp & Hc & Hm). cbn [append palette background_color layers] in *.
    split; [exact Hp|]. split; [exact Hc|].
    rewrite Hm, map_app, <- app_assoc. cbn. rewrite E. reflexivity.
Qed.

(** X19: what [_find_layers] returns is a collection with the indicator's
    palette and background colour that holds one layer for each path the
    pattern discovers, in the order found, none left out and none twice,
    and at least one; the call leaves the indicator itself as it was. *)
Theorem find_layers_collection pattern st found st' :
  _find_layers os glob pattern st = (inr found, st') ->
  this st' = this st /\
  palette found = _palette (this st) /\
  background_color found = _background_color (this st) /\
  map _path (layers found) = map UserPath (glob pattern) /\
  glob pattern <> [].
Proof.
  rewrite find_layers_eq. cbv zeta.
  match goal with
  | |- context [wrap_layers os ?ps ?f ?s] =>
      destruct (wrap_layers os ps f s) as [[e|found0] s2] eqn:Hw
  end; [discriminate|].
  destruct (collection_truthy found0) eqn:Ht; [|discriminate].
  intros H; inversion H; subst found0 st'. clear H.
  destruct (wrap_layers_paths _ _ _ _ _ Hw) as (Hp & Hc & Hm).
  cbn [LayerCollection_init palette background_color layers map app] in *.
  split; [reflexivity|]. split; [exact Hp|]. split; [exact Hc|]. split; [exact Hm|].
  intros E. rewrite E in Hm. cbn in Hm. unfold collection_truthy in Ht.
  destruct (layers found); [discriminate | discriminate].
Qed.

End IndicatorFold.

Section IndicatorRenderFurther.

Variable os : os_path.
Variable glob : string -> list string.
Variable blend : LayerCollection -> LayerCollection -> BlendMode -> exn + LayerCollection.
Variables Frames kwargs : Type.
Variable simulation_years : ResultsProvider -> exn + Z * Z.
Variable render : LayerCollection -> option BoundingBox -> Z -> Z -> exn + Frames.
Variable plot_render :
  string -> option ResultsProvider -> Units -> kwargs -> exn + Frames.

(** X17: when [_init] raises on an indicator without a results provider
    after a pattern has already been blended into a composite that holds
    a layer, the indicator is left half built: the next [_init] takes the
    composite for built and does nothing, so no results provider is ever
    made; [render_map_frames] then raises [AttributeError] without looking
    for layers again, and [render_graph_frames] hands the plot no
    provider. *)
Theorem failed_build_is_not_retried st e st1 bounding_box options :
  _init os glob blend st = (inl e, st1) ->
  composite_truthy (_composite_layers (this st1)) = true ->
  _results_provider (this st) = None ->
  _init os glob blend st1 = (inr tt, st1) /\
  render_map_frames os glob blend Frames simulation_years render bounding_box st1
  = (inl AttributeError, st1) /\
  render_graph_frames os glob blend Frames kwargs plot_render options st1
  = lift (plot_render (_indicator (this st)) None (_graph_units (this st)) options) st1.
Proof.
  intros Hfail Ht Hnone.
  destruct (init_raises_provider os glob blend _ _ _ Hfail) as (Hp & Hs).
  rewrite Hnone in Hp.
  pose proof (init_memoized os glob blend st1 Ht) as Hm.
  split; [exact Hm|]. split.
  - unfold render_map_frames. rewrite (bind_ok _ _ _ _ _ Hm).
    unfold bind, gets. rewrite Hp. reflexivity.
  - unfold render_graph_frames. rewrite (bind_ok _ _ _ _ _ Hm).
    unfold bind, gets. rewrite Hp.
    destruct Hs as (-> & _ & _ & -> & _). reflexivity.
Qed.

(** X18: on an indicator whose composite is not built and whose patterns
    fold into a composite, [render_map_frames] returns what the composite's
    [render] makes of the bounding box it was given and of the simulation
    years of a results provider over the composite's layers, per hectare
    exactly when the map units are [Units.TcPerHa]; [render_graph_frames]
    returns what the plot makes of the indicator's name, that provider,
    the graph units and the options it was given. *)
Theorem render_builds_then_renders st composite bounding_box options :
  composite_truthy (_composite_layers (this st)) = false ->
  fold_left (blend_step (fun p => fst (_find_layers os glob p st)) blend)
    (_patterns (this st))
    (inr (LayerCollection_init (_palette (this st)) (_background_color (this st))))
  = inr composite ->
  let provider := mkResultsProvider (layers composite)
                    (bool_decide (_map_units (this st) = TcPerHa)) in
  fst (render_map_frames os glob blend Frames simulation_years render bounding_box st)
  = match simulation_years provider with
    | inl e => inl e
    | inr (start_year, end_year) => render composite bounding_box start_year end_year
    end /\
  fst (render_graph_frames os glob blend Frames kwargs plot_render options st)
  = plot_render (_indicator (this st)) (Some provider) (_graph_units (this st)) options.
Proof.
  intros Hf Hfold. cbv zeta.
  destruct (init_builds os glob blend st composite Hf Hfold)
    as (st' & Hinit & Hs & Hc & Hp).
  unfold render_map_frames, render_graph_frames.
  rewrite !(bind_ok _ _ _ _ _ Hinit). unfold bind at 1 3, gets. rewrite Hp, Hc.
  destruct Hs as (-> & _ & _ & -> & _). split.
  - unfold bind. destruct (simulation_years _) as [e|[y0 y1]]; cbn; [reflexivity|].
    destruct (render composite bounding_box y0 y1); reflexivity.
  - destruct (plot_render _ _ _ options); reflexivity.
Qed.

End IndicatorRenderFurther.

Lemma render_reuses_composite_witness :
  let st := snd (_init posixpath sample_glob sample_blend (sample_indicator npp_then_rh)) in
  snd (render_map_frames posixpath sample_glob sample_blend nat sample_years
         sample_render None st) = st /\
  snd (render_graph_frames posixpath sample_glob sample_blend nat unit sample_plot tt st)
  = st.
Proof.
  cbv zeta.
  apply (render_reuses_composite posixpath sample_glob sample_blend nat unit
           sample_years sample_render sample_plot).
  vm_compute. reflexivity.
Defined.

Lemma init_folds_patterns_witness :
  exists st',
    _init posixpath sample_glob sample_blend (sample_indicator npp_then_rh)
    = (inr tt, st') /\
    same_settings (this (sample_indicator npp_then_rh)) (this st') /\
    _composite_layers (this st')
    = Some (mkLayerCollection
              [mkLayer (UserPath "out/NPP_2001.tif") (Some 2001) None None;
               mkLayer (UserPath "out/NPP_2002.tif") (Some 2002) None None]
              "Greens" (255, 255, 255)) /\
    _results_provider (this st')
    = Some (mkResultsProvider
              [mkLayer (UserPath "out/NPP_2001.tif") (Some 2001) None None;
               mkLayer (UserPath "out/NPP_2002.tif") (Some 2002) None None]
              true).
Proof.
  exact (init_folds_patterns posixpath sample_glob sample_blend
           (sample_indicator npp_then_rh) eq_refl).
Defined.

Lemma init_call_order_witness :
  let st := sample_indicator npp_then_nothing in
  let discover := fun p => fst (_find_layers posixpath sample_glob p st) in
  let empty := LayerCollection_init (_palette (this st)) (_background_color (this st)) in
  let made := calls (trace (snd (_init posixpath sample_glob sample_blend st))) in
  (fst (_init posixpath sample_glob sample_blend st) = inr tt /\
   made = calls (trace st) ++ planned npp_then_nothing) \/
  (exists pre pattern blend_mode post e c,
     npp_then_nothing = pre ++ (pattern, blend_mode) :: post /\
     fst (_init posixpath sample_glob sample_blend st) = inl e /\
     fold_left (blend_step discover sample_blend) pre (inr empty) = inr c /\
     ((discover pattern = inl e /\
       made = calls (trace st) ++ planned pre ++ [inl pattern]) \/
      (exists found,
         discover pattern = inr found /\
         sample_blend c found blend_mode = inl e /\
         made = calls (trace st) ++ planned pre ++ [inl pattern; inr blend_mode]))).
Proof.
  cbv zeta.
  apply (init_call_order posixpath sample_glob sample_blend
           (sample_indicator npp_then_nothing)).
  reflexivity.
Defined.

Lemma failed_build_is_not_retried_witness :
  let st := sample_indicator npp_then_nothing in
  let st1 := snd (_init posixpath sample_glob sample_blend st) in
  _init posixpath sample_glob sample_blend st1 = (inr tt, st1) /\
  render_map_frames posixpath sample_glob sample_blend nat sample_years sample_render
    None st1
  = (inl AttributeError, st1) /\
  render_graph_frames posixpath sample_glob sample_blend nat unit sample_plot tt st1
  = lift (sample_plot "NBP" None Tc tt) st1.
Proof.
  cbv zeta.
  apply (failed_build_is_not_retried posixpath sample_glob sample_blend nat unit
           sample_years sample_render sample_plot
           (sample_indicator npp_then_nothing)
           (IOError "No spatial output found for pattern: out/X_*.tif")).
  - vm_compute. reflexivity.
  - vm_compute. reflexivity.
  - reflexivity.
Defined.

Lemma render_builds_then_renders_witness :
  fst (render_map_frames posixpath sample_glob sample_blend nat sample_years
         sample_render None (sample_indicator npp_then_rh))
  = inr 2%nat /\
  fst (render_graph_frames posixpath sample_glob sample_blend nat unit sample_plot tt
         (sample_indicator npp_then_rh))
  = inr 2%nat.
Proof.
  exact (render_builds_then_renders posixpath sample_glob sample_blend nat unit
           sample_years sample_render sample_plot (sample_indicator npp_then_rh)
           (mkLayerCollection
              [mkLayer (UserPath "out/NPP_2001.tif") (Some 2001) None None;
               mkLayer (UserPath "out/NPP_2002.tif") (Some 2002) None None]
              "Greens" (255, 255, 255))
           None tt eq_refl eq_refl).
Defined.

Lemma find_layers_collection_witness :
  let st := sample_indicator npp_then_rh in
  this (snd (_find_layers posixpath sample_glob "out/NPP_*.tif" st)) = this st /\
  "Greens"%string = _palette (this st) /\
  (255, 255, 255) = _background_color (this st) /\
  [UserPath "out/NPP_2001.tif"; UserPath "out/NPP_2002.tif"]
  = map UserPath (sample_glob "out/NPP_*.tif") /\
  sample_glob "out/NPP_*.tif" <> [].
Proof.
  cbv zeta.
  apply (find_layers_collection posixpath sample_glob "out/NPP_*.tif"
           (sample_indicator npp_then_rh)
           (mkLayerCollection
              [mkLayer (UserPath "out/NPP_2001.tif") (Some 2001) None None;
               mkLayer (UserPath "out/NPP_2002.tif") (Some 2002) None None]
              "Greens" (255, 255, 255))).
  vm_compute. reflexivity.
Defined.

